(** * PilotR: the sandboxed file-and-process layer of [server/main.py]

    A shallow embedding of the [PilotRServer] class (its session fields, the
    state store, the path guard, the interpreter runner and the tool
    handlers) together with the properties of the specification that are
    about it.

    Conventions of the embedding.
    - Python [str] values are Rocq strings of 8-bit characters.
    - A [pathlib.Path] is the list of its components below the root; every
      path the server stores is absolute.
    - The file system is a finite map from paths to nodes.  A node is found
      under the spelling of its path: the model has no links of its own and
      what [Path.resolve] answers is a parameter of the environment.  A [..]
      component is kept as it is spelled, so what a handler leaves on the
      disk is stated for names of one component.
    - [exists], [is_file], [is_dir] and [stat] answer from the map and are
      never refused; the I/O that the environment may refuse is opening,
      reading, writing, renaming, removing and creating.
    - What the operating system decides (path resolution, [PATH] lookup, the
      child process, the clock, refused I/O) is a record [Env] of functions.
    - A method is a computation in the monad [Py]: it reads and writes the
      server object, the file system and the process's current directory, and
      either returns a value or raises an exception, keeping the effects it had
      up to that point.
    - The free text of an error envelope ([message], [hints]) is left out;
      the [code] and the [details] are kept. *)

From Stdlib Require Import ZArith Ascii String List Bool Lia DecimalString Sorted.
From stdpp Require Import base option list gmap strings.

Open Scope Z_scope.

(** ** Strings: the [str] methods the server calls *)

Module Str.

Definition nl : ascii := "010"%char.
Definition cr : ascii := "013"%char.
Definition tab : ascii := "009"%char.

(** [s.startswith(p)] *)
Fixpoint startswith (s p : string) : bool :=
  match p, s with
  | EmptyString, _ => true
  | String a p', String b s' => Ascii.eqb a b && startswith s' p'
  | String _ _, EmptyString => false
  end.

(** [s.endswith(p)]: some tail of [s] is [p]. *)
Fixpoint endswith (s p : string) : bool :=
  String.eqb s p ||
  match s with
  | EmptyString => false
  | String _ s' => endswith s' p
  end.

(** [p in s] *)
Fixpoint contains (s p : string) : bool :=
  startswith s p ||
  match s with
  | EmptyString => false
  | String _ s' => contains s' p
  end.

(** [s.replace(old, new)] for a non-empty [old]: occurrences are replaced
    from left to right and do not overlap; [skip] counts the characters of
    an occurrence still to be dropped. *)
Fixpoint replace_go (old new : string) (skip : nat) (s : string) : string :=
  match s with
  | EmptyString => EmptyString
  | String a s' =>
      match skip with
      | S k => replace_go old new k s'
      | O =>
          if startswith s old
          then new +:+ replace_go old new (Nat.pred (String.length old)) s'
          else String a (replace_go old new O s')
      end
  end.

Definition replace (s old new : string) : string := replace_go old new O s.

(** [s.split(c)] for a one-character separator: never the empty list. *)
Fixpoint split (c : ascii) (s : string) : list string :=
  match s with
  | EmptyString => [EmptyString]
  | String a s' =>
      if Ascii.eqb a c then EmptyString :: split c s'
      else match split c s' with
           | [] => [String a EmptyString]
           | w :: ws => String a w :: ws
           end
  end.

(** Line boundaries of [str.splitlines] among the 8-bit characters. *)
Definition is_linebreak (a : ascii) : bool :=
  match a with
  | "010" | "011" | "012" | "013" | "028" | "029" | "030" | "133" => true
  | _ => false
  end%char.

(** [s.splitlines()]: a carriage return followed by a line feed is one
    boundary, and a final boundary opens no further line. *)
Fixpoint splitlines (s : string) : list string :=
  match s with
  | EmptyString => []
  | String a s' =>
      if is_linebreak a then
        match s' with
        | String b s'' =>
            if Ascii.eqb a cr && Ascii.eqb b nl
            then EmptyString :: splitlines s''
            else EmptyString :: splitlines s'
        | EmptyString => [EmptyString]
        end
      else match splitlines s' with
           | [] => [String a EmptyString]
           | w :: ws => String a w :: ws
           end
  end.

(** Characters [str.isspace] accepts. *)
Definition is_space (a : ascii) : bool :=
  match a with
  | "009" | "010" | "011" | "012" | "013"
  | "028" | "029" | "030" | "031" | " " | "133" | "160" => true
  | _ => false
  end%char.

Fixpoint lstrip (s : string) : string :=
  match s with
  | String a s' => if is_space a then lstrip s' else s
  | EmptyString => EmptyString
  end.

(** [s.strip()] *)
Definition strip (s : string) : string :=
  String.rev (lstrip (String.rev (lstrip s))).

Definition lower_char (a : ascii) : ascii :=
  let n := nat_of_ascii a in
  if (Nat.leb 65 n && Nat.leb n 90)%bool then ascii_of_nat (n + 32) else a.

(** [s.lower()] on the ASCII letters. *)
Fixpoint lower (s : string) : string :=
  match s with
  | EmptyString => EmptyString
  | String a s' => String (lower_char a) (lower s')
  end.

(** ["/".join(l)] and friends. *)
Fixpoint join (sep : string) (l : list string) : string :=
  match l with
  | [] => EmptyString
  | [x] => x
  | x :: l' => x +:+ sep +:+ join sep l'
  end.

(** What reading in text mode makes of the line ends: a carriage return
    followed by a line feed, and a carriage return alone, are read as a line
    feed. *)
Definition universal_newlines (s : string) : string :=
  replace (replace s (String cr (String nl EmptyString)) (String nl EmptyString))
          (String cr EmptyString) (String nl EmptyString).

End Str.

(** ** Paths: the [pathlib] operations the server calls *)

Abbreviation path := (list string).

Module Path.

(** The components of a path string: empty components and [.] are dropped,
    [..] is kept (only [resolve] removes it). *)
Definition segments (s : string) : path :=
  filter (fun c => c <> EmptyString /\ c <> ".") (Str.split "/" s).

(** [base / s]: an absolute [s] replaces [base]. *)
Definition joinpath (base : path) (s : string) : path :=
  if Str.startswith s "/" then segments s else base ++ segments s.

(** [str(p)] *)
Definition str (p : path) : string := "/" +:+ Str.join "/" p.

(** [p.name]: the last component, empty for the root. *)
Definition name (p : path) : string := default EmptyString (last p).

Fixpoint proper_prefixes (p : path) : list path :=
  match p with
  | [] => []
  | c :: p' => [] :: map (cons c) (proper_prefixes p')
  end.

(** [p.parents]: the ancestors of [p], the nearest first. *)
Definition parents (p : path) : list path := reverse (proper_prefixes p).

(** [p.parent]: the root is its own parent. *)
Definition parent (p : path) : path := removelast p.

(** [p.is_relative_to(other)], as [pathlib] writes it:
    [other == self or other in self.parents]. *)
Definition is_relative_to (p other : path) : bool :=
  bool_decide (other = p) || bool_decide (other ∈ parents p).

(** Splits a name at its last dot: what is before, and the rest from the
    dot on. *)
Fixpoint split_last_dot (s : string) : option (string * string) :=
  match s with
  | EmptyString => None
  | String a s' =>
      match split_last_dot s' with
      | Some (pre, suf) => Some (String a pre, suf)
      | None => if Ascii.eqb a "." then Some (EmptyString, s) else None
      end
  end.

(** [name.suffix]: from the last dot on, unless that dot is the first or the
    last character. *)
Definition name_suffix (n : string) : string :=
  match split_last_dot n with
  | Some (pre, suf) =>
      if bool_decide (pre <> EmptyString) && bool_decide (suf <> ".")
      then suf else EmptyString
  | None => EmptyString
  end.

Definition suffix (p : path) : string := name_suffix (name p).

Definition name_with_suffix (n suf : string) : string :=
  match split_last_dot n with
  | Some (pre, old) =>
      if bool_decide (pre <> EmptyString) && bool_decide (old <> ".")
      then pre +:+ suf else n +:+ suf
  | None => n +:+ suf
  end.

(** [p.with_suffix(suf)] for a well-formed [suf]; a path with an empty name
    has none ([ValueError]). *)
Definition with_suffix (p : path) (suf : string) : option path :=
  match last p with
  | Some n => Some (removelast p ++ [name_with_suffix n suf])
  | None => None
  end.

End Path.

(** ** Values, documents and envelopes *)

(** The values of a state document and of the [data] of an envelope: what
    JSON can hold. *)
#[warnings="-register-all"]
Inductive value :=
  | VNone
  | VBool (b : bool)
  | VInt (z : Z)
  | VStr (s : string)
  | VList (l : list value)
  | VDict (d : gmap string value).

(** A Python [dict] with string keys. *)
Abbreviation dict := (gmap string value).

(** The envelope every handler returns: [{ok: true, data}] or
    [{ok: false, error: {code, details?}}]. *)
Inductive result :=
  | Ok (data : dict)
  | Err (code : string) (details : option dict).

Definition is_ok (r : result) : bool :=
  match r with Ok _ => true | Err _ _ => false end.

Definition error_code (r : result) : option string :=
  match r with Ok _ => None | Err c _ => Some c end.

(** ** The file system *)

(** What a regular file holds: text, or a serialised JSON object (the state
    document).  [Text] stands for content that [json.load] rejects; a JSON
    file whose top level is not an object is outside the model. *)
Inductive content :=
  | Text (s : string)
  | Json (d : dict).

Inductive node :=
  | Dir
  | File (c : content).

Abbreviation FS := (gmap path node).

Definition exists_ (fs : FS) (p : path) : bool := bool_decide (is_Some (fs !! p)).

Definition is_dir (fs : FS) (p : path) : bool :=
  match fs !! p with Some Dir => true | _ => false end.

Definition is_file (fs : FS) (p : path) : bool :=
  match fs !! p with Some (File _) => true | _ => false end.

(** ** Exceptions *)

Inductive exn :=
  | FileExistsError
  | FileNotFoundError
  | IsADirectoryError
  | NotADirectoryError
  | OSError
  | ValueError
  | RuntimeError
  | TypeError
  | AttributeError
  | UnicodeDecodeError
  | LookupError
  | KeyError
  | CsvError
  | TimeoutExpired.

#[global] Instance exn_eq_dec : EqDecision exn.
Proof. solve_decision. Defined.

(** ** The environment of a call *)

(** The system calls the operating system may refuse for reasons outside the
    model (permissions, a full disk). *)
Inductive io_op := OpOpenWrite | OpWrite | OpRead | OpReplace | OpRename | OpUnlink | OpMkdir.

(** Non-strict [Path.resolve] raises [ValueError] (an embedded null) or
    [RuntimeError] (a loop of links) and nothing else. *)
Inductive resolve_error := NullByte | LinkLoop.

Definition exn_of (e : resolve_error) : exn :=
  match e with NullByte => ValueError | LinkLoop => RuntimeError end.

Inductive resolved :=
  | Resolved (p : path)
  | Unresolved (e : resolve_error).

(** How [subprocess.run] ends: the child completed, the timeout expired, or
    the launch raised. *)
Inductive completion :=
  | Completed (returncode : Z) (stdout stderr : string)
  | TimedOut
  | LaunchFailed (e : exn).

(** The rows a [csv.reader] yields, possibly ending in an exception. *)
Inductive csv_stream :=
  | CsvEnd
  | CsvRow (r : list string) (rest : csv_stream)
  | CsvFail (e : exn).

Record Env := {
  (** [p.resolve()] of an absolute path *)
  resolve : path -> resolved;
  (** [Path(s).expanduser().resolve()], from the current directory *)
  expand_resolve : path -> string -> resolved;
  (** [shutil.which] *)
  which : string -> option string;
  (** [subprocess.run(argv, timeout)] in a current directory: how it ends and
      what the child did to the file system *)
  subprocess_run : list string -> Z -> path -> FS -> completion * FS;
  (** [datetime.now().isoformat()] *)
  now : string;
  (** the operating system refuses this call on this path *)
  io_fault : io_op -> path -> bool;
  (** what an interrupted [json.dump] leaves in the file *)
  torn : string;
  (** [json.dumps]: the text of a state document *)
  json_text : dict -> string;
  (** the codec registry knows this encoding *)
  known_encoding : string -> bool;
  (** decoding the bytes of some text in an encoding fails *)
  decode_fails : string -> string -> bool;
  (** [base64.b64encode] *)
  b64encode : string -> string;
  (** [csv.reader] over a text with a delimiter *)
  csv_reader : string -> string -> csv_stream;
  (** [csv.Sniffer().sniff(sample).delimiter] *)
  sniff : string -> exn + string;
  (** [root.glob(pattern)], in the order of enumeration *)
  glob : FS -> path -> string -> exn + list path;
  (** [p.stat().st_mtime] *)
  mtime : path -> Z;
  (** [datetime.fromtimestamp(t).isoformat()] *)
  isoformat : Z -> string
}.

(** ** The server object and the process around it *)

(** The fields of [PilotRServer]. *)
Record PilotRServer := Server {
  state_dir : option path;
  state_file : option path;
  workdir : option path;
  primary_file : string
}.

(** [PilotRServer.__init__] *)
Definition init : PilotRServer :=
  {| state_dir := None; state_file := None; workdir := None; primary_file := "agent.R" |}.

(** What a method can read and write: the server object, the file system and
    the process-wide current directory.  [journal] is a ghost field: the
    file-system states left behind, the latest first, one for every write; a
    crash leaves the disk in [fs] or in one of them. *)
Record state := State {
  self : PilotRServer;
  fs : FS;
  cwd : path;
  journal : list FS
}.

Definition set_self (f : PilotRServer -> PilotRServer) (st : state) : state :=
  {| self := f (self st); fs := fs st; cwd := cwd st; journal := journal st |}.
Definition set_fs (f : FS -> FS) (st : state) : state :=
  {| self := self st; fs := f (fs st); cwd := cwd st; journal := fs st :: journal st |}.
Definition set_cwd (p : path) (st : state) : state :=
  {| self := self st; fs := fs st; cwd := p; journal := journal st |}.

(** ** The monad of methods: state and exceptions *)

Inductive outcome (A : Type) :=
  | Val (a : A)
  | Raise (e : exn).
Arguments Val {A} a.
Arguments Raise {A} e.

Definition Py (A : Type) : Type := state -> outcome A * state.

Definition ret {A} (a : A) : Py A := fun st => (Val a, st).
Definition raise {A} (e : exn) : Py A := fun st => (Raise e, st).
Definition bind {A B} (m : Py A) (k : A -> Py B) : Py B :=
  fun st => match m st with
            | (Val a, st') => k a st'
            | (Raise e, st') => (Raise e, st')
            end.

(** [try: m except ...: h e] *)
Definition try_except {A} (m : Py A) (h : exn -> Py A) : Py A :=
  fun st => match m st with
            | (Val a, st') => (Val a, st')
            | (Raise e, st') => h e st'
            end.

Definition get : Py state := fun st => (Val st, st).
Definition modify (f : state -> state) : Py unit := fun st => (Val tt, f st).

Declare Scope py_scope.
Delimit Scope py_scope with py.
Notation "x <- m ;; k" := (bind m (fun x => k))
  (at level 100, m at next level, right associativity) : py_scope.
Notation "m ;;; k" := (bind m (fun _ => k))
  (at level 100, right associativity) : py_scope.
Open Scope py_scope.

(** ** System calls *)

Section Model.

Context (E : Env).

(** Every system call first asks the environment whether it is refused. *)
Definition fault (op : io_op) (p : path) : Py unit :=
  if io_fault E op p then raise OSError else ret tt.

(** [open(p, 'w')]: creates the file or truncates it. *)
Definition open_write (p : path) : Py unit :=
  fault OpOpenWrite p ;;;
  st <- get ;;
  match fs st !! p with
  | Some Dir => raise IsADirectoryError
  | _ =>
      match fs st !! Path.parent p with
      | Some Dir => modify (set_fs (insert p (File (Text EmptyString))))
      | Some (File _) => raise NotADirectoryError
      | None => raise FileNotFoundError
      end
  end.

(** Writing the content of an open file; a refused write leaves a torn
    file behind. *)
Definition write_content (p : path) (c : content) : Py unit :=
  if io_fault E OpWrite p
  then modify (set_fs (insert p (File (Text (torn E))))) ;;; raise OSError
  else modify (set_fs (insert p (File c))).

(** [p.write_text(s)] *)
Definition write_text (p : path) (s : string) : Py unit :=
  open_write p ;;; write_content p (Text s).

(** The text of a file, before decoding. *)
Definition read_raw (p : path) : Py string :=
  fault OpRead p ;;;
  st <- get ;;
  match fs st !! p with
  | Some (File (Text s)) => ret s
  | Some (File (Json d)) => ret (json_text E d)
  | Some Dir => raise IsADirectoryError
  | None => raise FileNotFoundError
  end.

(** [p.read_text(encoding)]: the file is opened in text mode, so the line
    ends are translated. *)
Definition read_text (p : path) (encoding : string) : Py string :=
  if negb (known_encoding E encoding) then raise LookupError
  else
    s <- read_raw p ;;
    if decode_fails E encoding s then raise UnicodeDecodeError
    else ret (Str.universal_newlines s).

(** [json.load] of the file at [p]. *)
Definition read_json (p : path) : Py dict :=
  fault OpRead p ;;;
  st <- get ;;
  match fs st !! p with
  | Some (File (Json d)) => ret d
  | Some (File (Text _)) => raise ValueError
  | Some Dir => raise IsADirectoryError
  | None => raise FileNotFoundError
  end.

(** [p.unlink()] *)
Definition unlink (p : path) : Py unit :=
  fault OpUnlink p ;;;
  st <- get ;;
  match fs st !! p with
  | Some (File _) => modify (set_fs (delete p))
  | Some Dir => raise IsADirectoryError
  | None => raise FileNotFoundError
  end.

(** Moving a directory takes what is below it along. *)
Definition move_tree (src dst : path) (m : FS) : FS :=
  list_to_map
    (map (fun kv : path * node =>
            if bool_decide (src `prefix_of` kv.1)
            then (dst ++ drop (length src) kv.1, kv.2) else kv)
         (map_to_list m)).

(** [os.replace(src, dst)] and [os.rename(src, dst)]: one step, after which
    [dst] is what [src] was. *)
Definition move (op : io_op) (src dst : path) : Py unit :=
  fault op src ;;;
  st <- get ;;
  match fs st !! src, fs st !! dst with
  | None, _ => raise FileNotFoundError
  | Some (File _), Some Dir => raise IsADirectoryError
  | Some Dir, Some (File _) => raise NotADirectoryError
  | Some (File c), _ =>
      match fs st !! Path.parent dst with
      | Some Dir => modify (set_fs (fun m => <[dst := File c]> (delete src m)))
      | Some (File _) => raise NotADirectoryError
      | None => raise FileNotFoundError
      end
  | Some Dir, _ =>
      if bool_decide (src `prefix_of` dst) then raise OSError
      else if existsb (fun kv : path * node =>
                         bool_decide (dst `prefix_of` kv.1 /\ kv.1 <> dst))
                      (map_to_list (fs st))
      then raise OSError
      else match fs st !! Path.parent dst with
           | Some Dir => modify (set_fs (move_tree src dst))
           | Some (File _) => raise NotADirectoryError
           | None => raise FileNotFoundError
           end
  end.

Definition replace_ := move OpReplace.
Definition rename := move OpRename.

(** [os.mkdir(p)] *)
Definition os_mkdir (p : path) : Py unit :=
  fault OpMkdir p ;;;
  st <- get ;;
  match fs st !! p with
  | Some _ => raise FileExistsError
  | None =>
      match fs st !! Path.parent p with
      | Some Dir => modify (set_fs (insert p Dir))
      | Some (File _) => raise NotADirectoryError
      | None => raise FileNotFoundError
      end
  end.

(** The [except OSError] clause of [Path.mkdir]: an existing directory is
    accepted when [exist_ok] is set. *)
Definition mkdir_exists (exist_ok : bool) (p : path) (e : exn) : Py unit :=
  st <- get ;;
  if negb exist_ok || negb (is_dir (fs st) p) then raise e else ret tt.

(** [p.mkdir(exist_ok=...)], without [parents]. *)
Definition mkdir (exist_ok : bool) (p : path) : Py unit :=
  try_except (os_mkdir p)
    (fun e => match e with
              | FileNotFoundError => raise e
              | _ => mkdir_exists exist_ok p e
              end).

(** [p.mkdir(parents=True, exist_ok=...)], by recursion on the components
    of [p] from the last one up; at the root, [self.parent == self]. *)
Fixpoint mkdir_parents_rev (exist_ok : bool) (rp : list string) : Py unit :=
  try_except (os_mkdir (reverse rp))
    (fun e => match e with
              | FileNotFoundError =>
                  match rp with
                  | [] => raise e
                  | _ :: rp' =>
                      mkdir_parents_rev true rp' ;;; mkdir exist_ok (reverse rp)
                  end
              | _ => mkdir_exists exist_ok (reverse rp) e
              end).

Definition mkdir_parents (exist_ok : bool) (p : path) : Py unit :=
  mkdir_parents_rev exist_ok (reverse p).

(** [os.getcwd()] *)
Definition getcwd : Py path :=
  st <- get ;;
  if is_dir (fs st) (cwd st) then ret (cwd st) else raise FileNotFoundError.

(** [os.chdir(p)] *)
Definition chdir (p : path) : Py unit :=
  st <- get ;;
  match fs st !! p with
  | Some Dir => modify (set_cwd p)
  | Some (File _) => raise NotADirectoryError
  | None => raise FileNotFoundError
  end.

(** [subprocess.run(argv, capture_output=True, text=True, timeout=...,
    check=False)]: the child runs in the current directory of the process. *)
Definition run (argv : list string) (timeout : Z) : Py (Z * string * string) :=
  st <- get ;;
  let '(c, fs') := subprocess_run E argv timeout (cwd st) (fs st) in
  modify (set_fs (fun _ => fs')) ;;;
  match c with
  | Completed rc out err => ret (rc, out, err)
  | TimedOut => raise TimeoutExpired
  | LaunchFailed e => raise e
  end.

(** ** The state store *)

(** [load_state] *)
Definition load_state : Py dict :=
  st <- get ;;
  match state_file (self st) with
  | None => ret ∅
  | Some sf =>
      if negb (exists_ (fs st) sf) then ret ∅
      else try_except (read_json sf) (fun _ => ret ∅)
  end.

(** The body of the [try] of [save_state]. *)
Definition write_and_replace (temp_file sf : path) (d : dict) : Py unit :=
  open_write temp_file ;;;
  write_content temp_file (Json d) ;;;
  replace_ temp_file sf.

(** [save_state] *)
Definition save_state (d : dict) : Py unit :=
  st <- get ;;
  match state_file (self st) with
  | None => ret tt
  | Some sf =>
      match Path.with_suffix sf ".tmp" with
      | None => raise ValueError
      | Some temp_file =>
          try_except (write_and_replace temp_file sf d)
            (fun _ =>
               st' <- get ;;
               if exists_ (fs st') temp_file then unlink temp_file else ret tt)
      end
  end.

(** ** Session checks *)

(** [ensure_workdir_set]: the flag and the [code] of the error. *)
Definition ensure_workdir_set : Py (bool * option string) :=
  st <- get ;;
  match workdir (self st) with
  | None => ret (false, Some "NO_WORKDIR")
  | Some w =>
      if negb (exists_ (fs st) w) then ret (false, Some "WORKDIR_MISSING")
      else ret (true, None)
  end.

(** [is_safe_path] *)
Definition is_safe_path (s : PilotRServer) (p : path) : bool :=
  match workdir s with
  | None => false
  | Some w =>
      match resolve E p with
      | Resolved r => Path.is_relative_to r w
      | Unresolved _ => false
      end
  end.

(** ** The interpreter runner *)

(** [find_r_executable] *)
Definition find_r_executable : option string :=
  match which E "Rscript" with
  | Some rscript => Some rscript
  | None =>
      match which E "R" with
      | Some r_exe => Some r_exe
      | None => None
      end
  end.

(** The lines of a captured stream: [out.strip().split('\n') if out else []]. *)
Definition stream_lines (out : string) : list string :=
  if bool_decide (out = EmptyString) then []
  else Str.split Str.nl (Str.strip out).

Definition nonempty (s : string) : bool := negb (bool_decide (s = EmptyString)).

(** [run_r_command] *)
Definition run_r_command (args : list string) (timeout : Z) : Py result :=
  match find_r_executable with
  | None => ret (Err "R_NOT_FOUND" None)
  | Some r_exe =>
      try_except
        (original_cwd <- getcwd ;;
         st <- get ;;
         match workdir (self st) with
         | Some w => chdir w
         | None => ret tt
         end ;;;
         r <- run (r_exe :: args) timeout ;;
         let '(returncode, out, err) := r in
         chdir original_cwd ;;;
         let stdout_lines :=
           filter (fun line => nonempty line = true /\
                               Str.startswith line "Loading required package:" = false)
                  (stream_lines out) in
         let stderr_lines :=
           filter (fun line => nonempty line = true /\
                               Str.contains line "no visible binding" = false)
                  (stream_lines err) in
         let payload : dict :=
           {[ "stdout" := VList (VStr <$> stdout_lines);
              "stderr" := VList (VStr <$> stderr_lines);
              "returncode" := VInt returncode ]} in
         if bool_decide (returncode <> 0)
         then ret (Err "R_EXECUTION_ERROR" (Some payload))
         else ret (Ok payload))
        (fun e => match e with
                  | TimeoutExpired => ret (Err "TIMEOUT" None)
                  | _ => ret (Err "EXECUTION_ERROR" None)
                  end)
  end.

(** ** Tool handlers *)

(** [R_SCAFFOLD]: a single line feed. *)
Definition R_SCAFFOLD : string := String Str.nl EmptyString.

(** The encoding of [read_text()] and [write_text()] when none is given. *)
Definition locale_encoding : string := "locale".

(** [if not filename.endswith(('.R', '.r')): filename += '.R'] *)
Definition ensure_R_extension (filename : string) : string :=
  if Str.endswith filename ".R" || Str.endswith filename ".r"
  then filename else filename +:+ ".R".

(** [{"ok": False, "error": error}] with the error of [ensure_workdir_set]. *)
Definition failure (error : option string) : result :=
  Err (default EmptyString error) None.

(** [self.workdir / name], once [ensure_workdir_set] has passed. *)
Definition in_workdir (name : string) : Py path :=
  st <- get ;;
  match workdir (self st) with
  | Some w => ret (Path.joinpath w name)
  | None => raise TypeError
  end.

(** [self.workdir], once [ensure_workdir_set] has passed. *)
Definition the_workdir : Py path :=
  st <- get ;;
  match workdir (self st) with
  | Some w => ret w
  | None => raise AttributeError
  end.

Definition path_value (p : option path) : value :=
  match p with Some w => VStr (Path.str w) | None => VNone end.

(** [x in v] for a string [x] *)
Definition is_str (x : string) (v : value) : bool :=
  match v with VStr s => String.eqb s x | _ => false end.

Definition py_in (x : string) (v : value) : Py bool :=
  match v with
  | VList l => ret (existsb (is_str x) l)
  | VStr s => ret (Str.contains s x)
  | VDict d => ret (bool_decide (is_Some (d !! x)))
  | VNone | VBool _ | VInt _ => raise TypeError
  end.

(** [v.append(x)] *)
Definition py_append (x : string) (v : value) : Py value :=
  match v with
  | VList l => ret (VList (l ++ [VStr x]))
  | _ => raise AttributeError
  end.

(** [l.remove(x)] on a list that holds [x]: the first occurrence goes. *)
Fixpoint remove_first (x : string) (l : list value) : list value :=
  match l with
  | [] => []
  | v :: l' => if is_str x v then l' else v :: remove_first x l'
  end.

Definition py_remove (x : string) (v : value) : Py value :=
  match v with
  | VList l => if existsb (is_str x) l then ret (VList (remove_first x l)) else raise ValueError
  | _ => raise AttributeError
  end.

(** The registration of a file name, as [create_R_file] and [write_R_code]
    both write it:
    [if "files" not in state: state["files"] = []]
    [if filename not in state["files"]: state["files"].append(filename)] *)
Definition register (filename : string) (state0 : dict) : Py dict :=
  let state1 :=
    match state0 !! "files" with
    | None => <["files" := VList []]> state0
    | Some _ => state0
    end in
  match state1 !! "files" with
  | None => raise KeyError
  | Some files =>
      present <- py_in filename files ;;
      if present then ret state1
      else files' <- py_append filename files ;;
           ret (<["files" := files']> state1)
  end.

(** [handle_set_workdir] *)
Definition handle_set_workdir (path_arg : string) (create : bool) : Py result :=
  try_except
    (st <- get ;;
     match expand_resolve E (cwd st) path_arg with
     | Unresolved e => raise (exn_of e)
     | Resolved w =>
         early <-
           (if negb (exists_ (fs st) w) then
              if create then mkdir_parents true w ;;; ret None
              else ret (Some (Err "DIR_NOT_FOUND" None))
            else if negb (is_dir (fs st) w) then ret (Some (Err "NOT_A_DIR" None))
            else ret None) ;;
         match early with
         | Some r => ret r
         | None =>
             modify (set_self (fun s =>
               {| workdir := Some w; state_dir := state_dir s;
                  state_file := state_file s; primary_file := primary_file s |})) ;;;
             let sd := Path.joinpath w ".pilotr" in
             modify (set_self (fun s =>
               {| workdir := workdir s; state_dir := Some sd;
                  state_file := state_file s; primary_file := primary_file s |})) ;;;
             mkdir true sd ;;;
             modify (set_self (fun s =>
               {| workdir := workdir s; state_dir := state_dir s;
                  state_file := Some (Path.joinpath sd "state.json");
                  primary_file := primary_file s |})) ;;;
             doc <- load_state ;;
             st' <- get ;;
             let doc' :=
               <["updated_at" := VStr (now E)]>
                 (<["primary_file" := VStr (primary_file (self st'))]>
                    (<["workdir" := path_value (workdir (self st'))]> doc)) in
             save_state doc' ;;;
             ret (Ok {[ "workdir" := path_value (workdir (self st'));
                        "state_dir" := path_value (state_dir (self st'));
                        "primary_file" := VStr (primary_file (self st')) ]})
         end
     end)
    (fun _ => ret (Err "SET_DIR_ERROR" None)).

(** [handle_get_state] *)
Definition handle_get_state : Py result :=
  st <- get ;;
  doc <- (if bool_decide (is_Some (state_file (self st))) then load_state else ret ∅) ;;
  ret (Ok (<["r_available" := VBool (bool_decide (is_Some find_r_executable))]>
             (<["primary_file" := VStr (primary_file (self st))]>
                (<["workdir" := path_value (workdir (self st))]> doc)))).

(** [handle_create_R_file] *)
Definition handle_create_R_file (filename : string) (overwrite scaffold : bool) : Py result :=
  chk <- ensure_workdir_set ;;
  let '(ok, error) := chk in
  if negb ok then ret (failure error)
  else
    let filename := ensure_R_extension filename in
    filepath <- in_workdir filename ;;
    st <- get ;;
    if negb (is_safe_path (self st) filepath) then ret (Err "UNSAFE_PATH" None)
    else if exists_ (fs st) filepath && negb overwrite then ret (Err "FILE_EXISTS" None)
    else
      try_except
        (write_text filepath (if scaffold then R_SCAFFOLD else EmptyString) ;;;
         doc <- load_state ;;
         doc <- register filename doc ;;
         save_state (<["updated_at" := VStr (now E)]> doc) ;;;
         ret (Ok {[ "filename" := VStr filename;
                    "filepath" := VStr (Path.str filepath);
                    "scaffold_used" := VBool scaffold ]}))
        (fun _ => ret (Err "CREATE_ERROR" None)).

(** The state update of [handle_rename_R_file]: the file list, then the
    primary file of the document and of the server. *)
Definition rename_in_state (old_name new_name : string) (doc : dict) : Py dict :=
  doc1 <-
    match doc !! "files" with
    | None => ret doc
    | Some files =>
        present <- py_in old_name files ;;
        if present then
          files1 <- py_remove old_name files ;;
          files2 <- py_append new_name files1 ;;
          ret (<["files" := files2]> doc)
        else ret doc
    end ;;
  match doc1 !! "primary_file" with
  | Some (VStr p) =>
      if String.eqb p old_name then
        modify (set_self (fun s =>
          {| workdir := workdir s; state_dir := state_dir s;
             state_file := state_file s; primary_file := new_name |})) ;;;
        ret (<["primary_file" := VStr new_name]> doc1)
      else ret doc1
  | _ => ret doc1
  end.

(** [handle_rename_R_file] *)
Definition handle_rename_R_file (old_name new_name : string) (overwrite : bool) : Py result :=
  chk <- ensure_workdir_set ;;
  let '(ok, error) := chk in
  if negb ok then ret (failure error)
  else
    let old_name := ensure_R_extension old_name in
    let new_name := ensure_R_extension new_name in
    old_path <- in_workdir old_name ;;
    new_path <- in_workdir new_name ;;
    st <- get ;;
    if negb (is_safe_path (self st) old_path) || negb (is_safe_path (self st) new_path)
    then ret (Err "UNSAFE_PATH" None)
    else if negb (exists_ (fs st) old_path) then ret (Err "FILE_NOT_FOUND" None)
    else if exists_ (fs st) new_path && negb overwrite then ret (Err "FILE_EXISTS" None)
    else
      try_except
        ((if exists_ (fs st) new_path && overwrite then unlink new_path else ret tt) ;;;
         rename old_path new_path ;;;
         doc <- load_state ;;
         doc <- rename_in_state old_name new_name doc ;;
         save_state (<["updated_at" := VStr (now E)]> doc) ;;;
         ret (Ok {[ "old_name" := VStr old_name; "new_name" := VStr new_name ]}))
        (fun _ => ret (Err "RENAME_ERROR" None)).

(** [handle_set_primary_file] *)
Definition handle_set_primary_file (filename : string) : Py result :=
  chk <- ensure_workdir_set ;;
  let '(ok, error) := chk in
  if negb ok then ret (failure error)
  else
    let filename := ensure_R_extension filename in
    filepath <- in_workdir filename ;;
    st <- get ;;
    if negb (is_safe_path (self st) filepath) then ret (Err "UNSAFE_PATH" None)
    else if negb (exists_ (fs st) filepath) then ret (Err "FILE_NOT_FOUND" None)
    else
      modify (set_self (fun s =>
        {| workdir := workdir s; state_dir := state_dir s;
           state_file := state_file s; primary_file := filename |})) ;;;
      doc <- load_state ;;
      save_state (<["updated_at" := VStr (now E)]> (<["primary_file" := VStr filename]> doc)) ;;;
      ret (Ok {[ "primary_file" := VStr filename ]}).

(** [filename] or, when it is missing or empty, the primary file. *)
Definition or_primary (filename : option string) : Py string :=
  st <- get ;;
  match filename with
  | Some f => if nonempty f then ret f else ret (primary_file (self st))
  | None => ret (primary_file (self st))
  end.

Definition line_count (s : string) : value := VInt (Z.of_nat (length (Str.splitlines s))).

Definition ends_with_newline (s : string) : bool := Str.endswith s (String Str.nl EmptyString).

(** [handle_append_R_code] *)
Definition handle_append_R_code (code : string) (filename : option string)
    (ensure_trailing_newline : bool) : Py result :=
  chk <- ensure_workdir_set ;;
  let '(ok, error) := chk in
  if negb ok then ret (failure error)
  else
    filename <- or_primary filename ;;
    let filename := ensure_R_extension filename in
    filepath <- in_workdir filename ;;
    st <- get ;;
    if negb (is_safe_path (self st) filepath) then ret (Err "UNSAFE_PATH" None)
    else if negb (exists_ (fs st) filepath) then ret (Err "FILE_NOT_FOUND" None)
    else
      try_except
        (existing_content <- read_text filepath locale_encoding ;;
         let code_to_append :=
           if ensure_trailing_newline && negb (ends_with_newline code)
           then code +:+ String Str.nl EmptyString else code in
         let existing_content :=
           if nonempty existing_content && negb (ends_with_newline existing_content)
           then existing_content +:+ String Str.nl EmptyString else existing_content in
         let new_content := existing_content +:+ code_to_append in
         write_text filepath new_content ;;;
         ret (Ok {[ "filename" := VStr filename;
                    "lines_appended" := line_count code;
                    "total_lines" := line_count new_content ]}))
        (fun _ => ret (Err "APPEND_ERROR" None)).

(** [handle_write_R_code] *)
Definition handle_write_R_code (code : string) (filename : option string)
    (overwrite use_scaffold_header : bool) : Py result :=
  chk <- ensure_workdir_set ;;
  let '(ok, error) := chk in
  if negb ok then ret (failure error)
  else
    filename <- or_primary filename ;;
    let filename := ensure_R_extension filename in
    filepath <- in_workdir filename ;;
    st <- get ;;
    if negb (is_safe_path (self st) filepath) then ret (Err "UNSAFE_PATH" None)
    else if exists_ (fs st) filepath && negb overwrite then ret (Err "FILE_EXISTS" None)
    else
      try_except
        (let content0 :=
           if use_scaffold_header && nonempty R_SCAFFOLD then R_SCAFFOLD +:+ code else code in
         let content1 :=
           if nonempty content0 && negb (ends_with_newline content0)
           then content0 +:+ String Str.nl EmptyString else content0 in
         write_text filepath content1 ;;;
         doc <- load_state ;;
         doc <- register filename doc ;;
         save_state (<["updated_at" := VStr (now E)]> doc) ;;;
         ret (Ok {[ "filename" := VStr filename;
                    "lines_written" := line_count content1;
                    "scaffold_used" := VBool use_scaffold_header ]}))
        (fun _ => ret (Err "WRITE_ERROR" None)).

(** [result["data"][k] = v] on a successful result. *)
Definition with_data (r : result) (k : string) (v : value) : result :=
  match r with
  | Ok data => Ok (<[k := v]> data)
  | Err _ _ => r
  end.

(** [handle_run_R_script] *)
Definition handle_run_R_script (filename : option string) (args : list string)
    (timeout_sec : Z) (save_rdata : bool) : Py result :=
  chk <- ensure_workdir_set ;;
  let '(ok, error) := chk in
  if negb ok then ret (failure error)
  else
    filename <- or_primary filename ;;
    let filename := ensure_R_extension filename in
    filepath <- in_workdir filename ;;
    st <- get ;;
    if negb (is_safe_path (self st) filepath) then ret (Err "UNSAFE_PATH" None)
    else if negb (exists_ (fs st) filepath) then ret (Err "FILE_NOT_FOUND" None)
    else
      let cmd_args :=
        [if save_rdata then "--save" else "--no-save"] ++ [Path.str filepath] ++ args in
      r <- run_r_command cmd_args timeout_sec ;;
      ret (with_data (with_data r "filename" (VStr filename)) "save_rdata" (VBool save_rdata)).

(** [handle_run_R_expression] *)
Definition handle_run_R_expression (expr : string) (timeout_sec : Z) : Py result :=
  chk <- ensure_workdir_set ;;
  let '(ok, error) := chk in
  if negb ok then ret (failure error)
  else
    r <- run_r_command ["-e"; expr; "--slave"] timeout_sec ;;
    ret (with_data r "expression" (VStr expr)).

(** [l.sort(key=..., reverse=...)] is stable: [insert_sorted] puts an element
    after those that may stay before it. *)
Fixpoint insert_sorted {A} (before : A -> A -> bool) (x : A) (l : list A) : list A :=
  match l with
  | [] => [x]
  | y :: l' => if before y x then y :: insert_sorted before x l' else x :: y :: l'
  end.

Definition stable_sort {A} (before : A -> A -> bool) (l : list A) : list A :=
  fold_left (fun acc x => insert_sorted before x acc) l [].

(** [l[:limit]] *)
Definition slice_to {A} (limit : Z) (l : list A) : list A :=
  if 0 <=? limit then take (Z.to_nat limit) l
  else take (length l - Z.to_nat (- limit))%nat l.

(** The size in bytes of what a file holds. *)
Definition content_text (c : content) : string :=
  match c with Text s => s | Json d => json_text E d end.

(** [p.stat().st_size] *)
Definition stat_size (p : path) : Py Z :=
  st <- get ;;
  match fs st !! p with
  | Some (File c) => ret (Z.of_nat (String.length (content_text c)))
  | Some Dir => ret 0
  | None => raise FileNotFoundError
  end.

(** What [handle_list_exports] collects for one file. *)
Record export_entry := ExportEntry {
  ee_name : string;
  ee_size : Z;
  ee_mtime : Z;
  ee_extension : string
}.

Definition entry_value (e : export_entry) : value :=
  VDict {[ "name" := VStr (ee_name e);
           "size" := VInt (ee_size e);
           "mtime" := VInt (ee_mtime e);
           "mtime_str" := VStr (isoformat E (ee_mtime e));
           "extension" := VStr (ee_extension e) ]}.

Definition collect_entry (m : FS) (item : path) : list export_entry :=
  match m !! item with
  | Some (File c) =>
      [ {| ee_name := Path.name item;
           ee_size := Z.of_nat (String.length (content_text c));
           ee_mtime := mtime E item;
           ee_extension := Path.suffix item |} ]
  | _ => []
  end.

Definition sort_entries (sort_by : string) (descending : bool)
    (files : list export_entry) : list export_entry :=
  let ordered (le : export_entry -> export_entry -> bool) (reverse : bool) :=
    stable_sort (fun x y => if reverse then le y x else le x y) files in
  if String.eqb sort_by "mtime" then ordered (fun x y => ee_mtime x <=? ee_mtime y) descending
  else if String.eqb sort_by "size" then ordered (fun x y => ee_size x <=? ee_size y) descending
  else if String.eqb sort_by "name" then
    ordered (fun x y => String.leb (ee_name x) (ee_name y)) (negb descending)
  else files.

(** [handle_list_exports] *)
Definition handle_list_exports (pattern sort_by : string) (descending : bool)
    (limit : Z) : Py result :=
  chk <- ensure_workdir_set ;;
  let '(ok, error) := chk in
  if negb ok then ret (failure error)
  else
    try_except
      (st <- get ;;
       w <- the_workdir ;;
       match glob E (fs st) w pattern with
       | inl e => raise e
       | inr items =>
           let files := flat_map (collect_entry (fs st)) items in
           let files := slice_to limit (sort_entries sort_by descending files) in
           ret (Ok {[ "files" := VList (entry_value <$> files);
                      "count" := VInt (Z.of_nat (length files));
                      "workdir" := path_value (workdir (self st)) ]})
       end)
      (fun _ => ret (Err "LIST_ERROR" None)).

(** [handle_read_export] *)
Definition handle_read_export (name : string) (max_bytes : Z) (as_text : bool)
    (encoding : string) : Py result :=
  chk <- ensure_workdir_set ;;
  let '(ok, error) := chk in
  if negb ok then ret (failure error)
  else
    filepath <- in_workdir name ;;
    st <- get ;;
    if negb (is_safe_path (self st) filepath) then ret (Err "UNSAFE_PATH" None)
    else if negb (exists_ (fs st) filepath) then ret (Err "FILE_NOT_FOUND" None)
    else if negb (is_file (fs st) filepath) then ret (Err "NOT_A_FILE" None)
    else
      try_except
        (file_size <- stat_size filepath ;;
         if max_bytes <? file_size then ret (Err "FILE_TOO_LARGE" None)
         else if as_text then
           text <- read_text filepath encoding ;;
           ret (Ok {[ "content" := VStr text;
                      "filename" := VStr name;
                      "size" := VInt file_size;
                      "lines" := line_count text ]})
         else
           bytes <- read_raw filepath ;;
           ret (Ok {[ "content_base64" := VStr (b64encode E bytes);
                      "filename" := VStr name;
                      "size" := VInt file_size ]}))
        (fun e => match e with
                  | UnicodeDecodeError => ret (Err "DECODE_ERROR" None)
                  | _ => ret (Err "READ_ERROR" None)
                  end).

(** The loop of [handle_preview_table] over the rows after the header:
    every row is counted, the first [max_rows] are kept. *)
Fixpoint read_rows (max_rows : Z) (rows : list (list string)) (total_rows : Z)
    (reader : csv_stream) : exn + (list (list string) * Z) :=
  match reader with
  | CsvEnd => inr (rows, total_rows)
  | CsvFail e => inl e
  | CsvRow row rest =>
      let total_rows := total_rows + 1 in
      let rows := if Z.of_nat (length rows) <? max_rows then rows ++ [row] else rows in
      read_rows max_rows rows total_rows rest
  end.

Definition row_value (row : list string) : value := VList (VStr <$> row).

(** [open(p, 'r')]: the text the reads will give. *)
Definition open_read (p : path) : Py string := read_raw p.

(** The delimiter [handle_preview_table] reads with: [tab] and a backslash
    followed by [t] stand for the tab character, [auto] asks the sniffer to
    look at the first 1024 characters. *)
Definition choose_delimiter (delimiter text : string) : exn + string :=
  let delimiter :=
    if String.eqb delimiter "\t" || String.eqb delimiter "tab"
    then String Str.tab EmptyString else delimiter in
  if String.eqb delimiter "auto" then sniff E (String.substring 0 1024 text)
  else inr delimiter.

(** [handle_preview_table] *)
Definition handle_preview_table (name delimiter : string) (max_rows : Z) : Py result :=
  chk <- ensure_workdir_set ;;
  let '(ok, error) := chk in
  if negb ok then ret (failure error)
  else
    filepath <- in_workdir name ;;
    st <- get ;;
    if negb (is_safe_path (self st) filepath) then ret (Err "UNSAFE_PATH" None)
    else if negb (exists_ (fs st) filepath) then ret (Err "FILE_NOT_FOUND" None)
    else
      try_except
        (text <- open_read filepath ;;
         delimiter <-
           match choose_delimiter delimiter text with
           | inl e => raise e
           | inr d => ret d
           end ;;
         match csv_reader E text delimiter with
         | CsvFail e => raise e
         | CsvEnd | CsvRow [] _ => ret (Err "EMPTY_FILE" None)
         | CsvRow header reader =>
             match read_rows max_rows [] 0 reader with
             | inl e => raise e
             | inr (rows, total_rows) =>
                 ret (Ok {[ "header" := row_value header;
                            "rows" := VList (row_value <$> rows);
                            "total_rows" := VInt total_rows;
                            "displayed_rows" := VInt (Z.of_nat (length rows));
                            "delimiter" := VStr delimiter;
                            "truncated" := VBool (max_rows <? total_rows) ]})
             end
         end)
        (fun _ => ret (Err "PREVIEW_ERROR" None)).

(** The advice [handle_ggplot_style_check] collects and the rewritten code. *)
Definition style_check (code : string) : list string * string :=
  let has := Str.contains code in
  let opt1 :=
    if has "<-" then (["Replace '<-' with '=' for consistency"], Str.replace code "<-" "=")
    else ([], code) in
  let opt2 :=
    if has "theme_gray()" || has "theme_grey()" then
      (opt1.1 ++ ["Replace theme_gray() with theme_minimal(base_size=14)"],
       Str.replace (Str.replace opt1.2 "theme_gray()" "theme_minimal(base_size=14)")
                   "theme_grey()" "theme_minimal(base_size=14)")
    else if negb (has "theme(") && has "ggplot(" then
      (opt1.1 ++ ["Add theme_minimal(base_size=14) for better aesthetics"], opt1.2)
    else opt1 in
  let save :=
    if has "ggsave(" then
      (if negb (has "dpi=") then ["Add dpi=800 to ggsave() for publication quality"] else []) ++
      (if negb (has "width=") || negb (has "height=")
       then ["Specify width=5, height=4 in ggsave() for optimal dimensions"] else [])
    else if has "ggplot(" then ["Add ggsave() with width=5, height=4, dpi=800"]
    else [] in
  let colour :=
    if has "ggplot(" && has "color=" && negb (has "scale_color") && negb (has "scale_colour")
    then ["Add scale_color_brewer(palette='Set2') for better categorical colors"] else [] in
  let fill :=
    if has "ggplot(" && has "fill=" && negb (has "scale_fill") then
      if Str.contains (Str.lower code) "continuous" || Str.contains (Str.lower code) "numeric"
      then ["Consider scale_fill_viridis_c() for continuous data"]
      else ["Add scale_fill_brewer(palette='Set2') for categorical data"]
    else [] in
  let point :=
    if has "geom_point(" && negb (has "size=")
    then ["Set size=2.5 in geom_point() for better visibility"] else [] in
  let line :=
    if has "geom_line(" && (negb (has "linewidth=") && negb (has "size="))
    then ["Set linewidth=0.8 in geom_line() for better visibility"] else [] in
  (opt2.1 ++ save ++ colour ++ fill ++ point ++ line, opt2.2).

Definition style_notes : list string :=
  [ "Following publication-ready ggplot2 best practices:";
    "- Muted color palettes (Set2, viridis)";
    "- Clear typography (base_size ≥ 14pt)";
    "- Optimal export dimensions (5x4 inches)";
    "- High resolution (dpi=800)" ].

(** [handle_ggplot_style_check]: every step of its [try] is a total string
    operation, so the [except] branch is never entered. *)
Definition handle_ggplot_style_check (code : string) : Py result :=
  let '(optimizations, optimized_code) := style_check code in
  ret (Ok {[ "original_code" := VStr code;
             "optimized_code" :=
               VStr (if bool_decide (optimizations <> []) then optimized_code else code);
             "optimizations" := VList (VStr <$> optimizations);
             "style_notes" := VList (VStr <$> style_notes);
             "improvements_found" := VInt (Z.of_nat (length optimizations)) ]}).

(** The R program of [handle_inspect_R_objects].  Its text is written here
    with a backquote wherever the program has a double quote. *)
Definition dq : string := String "034"%char EmptyString.

Definition r_text (lines : list string) : string :=
  Str.replace (Str.join (String Str.nl EmptyString) lines) "`" dq.

Definition r_load : string :=
  r_text [ EmptyString;
           "        # Load saved workspace";
           "        load(`.RData`)";
           "        ";
           "        # Get all objects if none specified";
           "        all_objects <- ls()";
           "        " ].

Definition r_requested (objects : list string) : string :=
  r_text [ EmptyString;
           "            requested_objects <- c(" +:+
             Str.join ", " ((fun obj => "`" +:+ obj +:+ "`") <$> objects) +:+ ")";
           "            missing <- setdiff(requested_objects, all_objects)";
           "            if (length(missing) > 0) {";
           "                cat(`Warning: Objects not found:`, paste(missing, collapse=`, `), `\n`)";
           "            }";
           "            objects_to_inspect <- intersect(requested_objects, all_objects)";
           "            " ].

Definition r_all : string :=
  r_text [ EmptyString;
           "            objects_to_inspect <- all_objects";
           "            " ].

Definition r_inspect (str_max_level : Z) : string :=
  r_text [ EmptyString;
           "        # Inspect each object";
           "        for (obj_name in objects_to_inspect) {";
           "            cat(`\n=== Object:`, obj_name, `===\n`)";
           "            obj <- get(obj_name)";
           "            ";
           "            # Basic info";
           "            cat(`Class:`, paste(class(obj), collapse=`, `), `\n`)";
           "            cat(`Type:`, typeof(obj), `\n`)";
           "            ";
           "            # Size info";
           "            if (is.data.frame(obj) || is.matrix(obj)) {";
           "                cat(`Dimensions:`, nrow(obj), `x`, ncol(obj), `\n`)";
           "            } else if (is.list(obj)) {";
           "                cat(`Length:`, length(obj), `\n`)";
           "            } else if (is.vector(obj)) {";
           "                cat(`Length:`, length(obj), `\n`)";
           "            }";
           "            ";
           "            # Structure";
           "            cat(`\nStructure:\n`)";
           "            str(obj, max.level=" +:+ NilZero.string_of_int (Z.to_int str_max_level) +:+ ")";
           "            ";
           "            # Summary for data frames";
           "            if (is.data.frame(obj)) {";
           "                cat(`\nSummary:\n`)";
           "                print(summary(obj))";
           "            }";
           "            ";
           "            # First few elements for vectors";
           "            if (is.vector(obj) && !is.list(obj) && length(obj) > 0) {";
           "                cat(`\nFirst elements:\n`)";
           "                print(head(obj, 10))";
           "            }";
           "        }";
           "        " ].

(** [handle_inspect_R_objects] *)
Definition handle_inspect_R_objects (objects : list string) (str_max_level timeout_sec : Z)
    : Py result :=
  chk <- ensure_workdir_set ;;
  let '(ok, error) := chk in
  if negb ok then ret (failure error)
  else
    rdata_file <- in_workdir ".RData" ;;
    st <- get ;;
    if negb (exists_ (fs st) rdata_file) then ret (Err "NO_RDATA" None)
    else
      let r_code :=
        r_load +:+
        (match objects with [] => r_all | _ => r_requested objects end) +:+
        r_inspect str_max_level in
      r <- run_r_command ["-e"; r_code; "--slave"] timeout_sec ;;
      ret (with_data r "objects_inspected"
             (match objects with [] => VStr "all" | _ => VList (VStr <$> objects) end)).

(** [handle_which_R] *)
Definition handle_which_R : Py result :=
  let rscript := which E "Rscript" in
  let r_exe := which E "R" in
  let executable := match rscript with Some x => Some x | None => r_exe end in
  let alternatives := option_list rscript ++ option_list r_exe in
  match executable with
  | Some x => ret (Ok {[ "executable" := VStr x;
                         "alternatives" := VList (VStr <$> alternatives) ]})
  | None => ret (Err "R_NOT_FOUND" None)
  end.

(** The inner loop of [handle_list_R_files]: the names of the files among
    the items, each once. *)
Definition add_names (m : FS) (items : list path) (r_files : list string) : list string :=
  fold_left
    (fun acc item =>
       if is_file m item && negb (bool_decide (Path.name item ∈ acc))
       then acc ++ [Path.name item] else acc)
    items r_files.

(** [handle_list_R_files] *)
Definition handle_list_R_files : Py result :=
  chk <- ensure_workdir_set ;;
  let '(ok, error) := chk in
  if negb ok then ret (failure error)
  else
    try_except
      (st <- get ;;
       w <- the_workdir ;;
       match glob E (fs st) w "*.R" with
       | inl e => raise e
       | inr upper =>
           match glob E (fs st) w "*.r" with
           | inl e => raise e
           | inr lower =>
               let r_files := add_names (fs st) lower (add_names (fs st) upper []) in
               ret (Ok {[ "files" := VList (VStr <$> stable_sort String.leb r_files);
                          "primary_file" := VStr (primary_file (self st)) ]})
           end
       end)
      (fun _ => ret (Err "LIST_ERROR" None)).

(** ** Dispatch *)

(** A call of a tool with its arguments, the defaults of the handler filled in. *)
Inductive request :=
  | SetWorkdir (path_arg : string) (create : bool)
  | GetState
  | CreateRFile (filename : string) (overwrite scaffold : bool)
  | RenameRFile (old_name new_name : string) (overwrite : bool)
  | SetPrimaryFile (filename : string)
  | AppendRCode (code : string) (filename : option string) (ensure_trailing_newline : bool)
  | WriteRCode (code : string) (filename : option string) (overwrite use_scaffold_header : bool)
  | RunRScript (filename : option string) (args : list string) (timeout_sec : Z) (save_rdata : bool)
  | RunRExpression (expr : string) (timeout_sec : Z)
  | ListExports (pattern sort_by : string) (descending : bool) (limit : Z)
  | ReadExport (name : string) (max_bytes : Z) (as_text : bool) (encoding : string)
  | PreviewTable (name delimiter : string) (max_rows : Z)
  | GgplotStyleCheck (code : string)
  | InspectRObjects (objects : list string) (str_max_level timeout_sec : Z)
  | WhichR
  | ListRFiles
  | UnknownTool (name : string).

Definition handler (r : request) : Py result :=
  match r with
  | SetWorkdir p c => handle_set_workdir p c
  | GetState => handle_get_state
  | CreateRFile f o s => handle_create_R_file f o s
  | RenameRFile a b o => handle_rename_R_file a b o
  | SetPrimaryFile f => handle_set_primary_file f
  | AppendRCode c f n => handle_append_R_code c f n
  | WriteRCode c f o h => handle_write_R_code c f o h
  | RunRScript f a t s => handle_run_R_script f a t s
  | RunRExpression e t => handle_run_R_expression e t
  | ListExports g s d l => handle_list_exports g s d l
  | ReadExport n m t e => handle_read_export n m t e
  | PreviewTable n d m => handle_preview_table n d m
  | GgplotStyleCheck c => handle_ggplot_style_check c
  | InspectRObjects o l t => handle_inspect_R_objects o l t
  | WhichR => handle_which_R
  | ListRFiles => handle_list_R_files
  | UnknownTool _ => ret (Err "UNKNOWN_TOOL" None)
  end.

(** [call_tool]: what a handler lets escape becomes [INTERNAL_ERROR]. *)
Definition call_tool (r : request) (st : state) : result * state :=
  match handler r st with
  | (Val res, st') => (res, st')
  | (Raise _, st') => (Err "INTERNAL_ERROR" None, st')
  end.

End Model.

(** * Specification-side notions and the scenarios used below *)

(** [c] lies strictly below [r]. *)
Definition nested_beneath (c r : path) : Prop :=
  exists rest, rest <> [] /\ c = r ++ rest.

(** The state directory, the state file and its temporary sibling below a
    root, as [handle_set_workdir] and [save_state] name them. *)
Definition state_dir_of (w : path) : path := Path.joinpath w ".pilotr".
Definition state_file_of (w : path) : path := Path.joinpath (state_dir_of w) "state.json".
Definition temp_file_of (w : path) : path := w ++ [".pilotr"; "state.tmp"].

(** An environment in which nothing goes wrong: paths resolve to themselves,
    [Rscript] is installed and exits with status [0], no call is refused. *)
Definition quiet_env : Env := {|
  resolve := Resolved;
  expand_resolve := fun c s => Resolved (Path.joinpath c s);
  which := fun n => if String.eqb n "Rscript" then Some "/usr/bin/Rscript" else None;
  subprocess_run := fun _ _ _ m => (Completed 0 "[1] 2" EmptyString, m);
  now := "2025-01-01T00:00:00";
  io_fault := fun _ _ => false;
  torn := "{";
  json_text := fun _ => "{}";
  known_encoding := fun _ => true;
  decode_fails := fun _ _ => false;
  b64encode := fun s => s;
  csv_reader := fun _ _ => CsvEnd;
  sniff := fun _ => inr ",";
  glob := fun _ _ _ => inr [];
  mtime := fun _ => 0;
  isoformat := fun _ => EmptyString |}.

(** A disk with a home directory, and a freshly started server in it. *)
Definition fresh_disk : FS := {[ [] := Dir; ["home"] := Dir ]}.

Definition fresh : state :=
  {| self := init; fs := fresh_disk; cwd := ["home"]; journal := [] |}.

(** A reader that yields the given rows and then ends. *)
Definition stream_of (rows : list (list string)) : csv_stream :=
  foldr CsvRow CsvEnd rows.

(** As [quiet_env], but the child process never finishes in time. *)
Definition stalling_env : Env := {|
  resolve := resolve quiet_env;
  expand_resolve := expand_resolve quiet_env;
  which := which quiet_env;
  subprocess_run := fun _ _ _ m => (TimedOut, m);
  now := now quiet_env;
  io_fault := io_fault quiet_env;
  torn := torn quiet_env;
  json_text := json_text quiet_env;
  known_encoding := known_encoding quiet_env;
  decode_fails := decode_fails quiet_env;
  b64encode := b64encode quiet_env;
  csv_reader := csv_reader quiet_env;
  sniff := sniff quiet_env;
  glob := glob quiet_env;
  mtime := mtime quiet_env;
  isoformat := isoformat quiet_env |}.

(** A server whose working directory [/w] exists, started from [/home]. *)
Definition in_w : state :=
  {| self := {| state_dir := Some ["w"; ".pilotr"];
                state_file := Some ["w"; ".pilotr"; "state.json"];
                workdir := Some ["w"];
                primary_file := "agent.R" |};
     fs := {[ [] := Dir; ["home"] := Dir; ["w"] := Dir; ["w"; ".pilotr"] := Dir ]};
     cwd := ["home"];
     journal := [] |}.

(** As [quiet_env], with a reader that finds a header and three rows. *)
Definition table_env : Env := {|
  resolve := resolve quiet_env;
  expand_resolve := expand_resolve quiet_env;
  which := which quiet_env;
  subprocess_run := subprocess_run quiet_env;
  now := now quiet_env;
  io_fault := io_fault quiet_env;
  torn := torn quiet_env;
  json_text := json_text quiet_env;
  known_encoding := known_encoding quiet_env;
  decode_fails := decode_fails quiet_env;
  b64encode := b64encode quiet_env;
  csv_reader := fun _ _ => stream_of [["x"; "y"]; ["1"; "2"]; ["3"; "4"]; ["5"; "6"]];
  sniff := sniff quiet_env;
  glob := glob quiet_env;
  mtime := mtime quiet_env;
  isoformat := isoformat quiet_env |}.

(** The server of [in_w] with a table [/w/t.csv] on the disk. *)
Definition with_table : state :=
  {| self := self in_w;
     fs := <[ ["w"; "t.csv"] := File (Text "x,y 1,2 3,4 5,6") ]> (fs in_w);
     cwd := cwd in_w;
     journal := [] |}.

(** A call answers to the session check: without a working directory its
    error is [NO_WORKDIR], with one that is no longer there
    [WORKDIR_MISSING]. *)
Definition requires_session (E : Env) (r : request) (st : state) : Prop :=
  (workdir (self st) = None ->
   error_code (call_tool E r st).1 = Some "NO_WORKDIR") /\
  (forall w, workdir (self st) = Some w -> exists_ (fs st) w = false ->
   error_code (call_tool E r st).1 = Some "WORKDIR_MISSING").

(** The tools whose handler begins with [ensure_workdir_set]. *)
Definition guarded (r : request) : bool :=
  match r with
  | SetWorkdir _ _ | GetState | GgplotStyleCheck _ | WhichR | UnknownTool _ => false
  | _ => true
  end.

(** A server whose working directory [/gone] has been removed. *)
Definition orphaned : state :=
  {| self := {| state_dir := Some ["gone"; ".pilotr"];
                state_file := Some ["gone"; ".pilotr"; "state.json"];
                workdir := Some ["gone"];
                primary_file := "agent.R" |};
     fs := fresh_disk;
     cwd := ["home"];
     journal := [] |}.

(** A name with the extension of a script. *)
Definition R_name (n : string) : Prop :=
  Str.endswith n ".R" = true \/ Str.endswith n ".r" = true.

(** [frames K st st']: from [st] to [st'] the server object and the current
    directory are the same, and only paths in [K] were written: every other
    path holds what it held, on the final disk and on every disk state left
    behind on the way. *)
Definition frames (K : path -> Prop) (st st' : state) : Prop :=
  self st' = self st /\ cwd st' = cwd st /\
  exists steps, journal st' = steps ++ journal st /\
    forall k, ~ K k ->
      fs st' !! k = fs st !! k /\ Forall (fun m : FS => m !! k = fs st !! k) steps.

(** A computation that writes only paths in [K], however it ends. *)
Definition touches {A} (m : Py A) (K : path -> Prop) : Prop :=
  forall st, frames K st (m st).2.

(** The file at [p] holds the state document [d], whole. *)
Definition holds (m : FS) (p : path) (d : dict) : Prop :=
  m !! p = Some (File (Json d)).

(** Nothing stands in the way of a save below the root [w]: neither the
    state file nor its temporary sibling is a directory, and the environment
    refuses none of the calls of [save_state] and [load_state]. *)
Definition store_clear (E : Env) (m : FS) (w : path) : Prop :=
  m !! temp_file_of w <> Some Dir /\
  m !! state_file_of w <> Some Dir /\
  io_fault E OpOpenWrite (temp_file_of w) = false /\
  io_fault E OpWrite (temp_file_of w) = false /\
  io_fault E OpReplace (temp_file_of w) = false /\
  io_fault E OpRead (state_file_of w) = false.

(** ... and the state directory is there. *)
Definition store_ready (E : Env) (m : FS) (w : path) : Prop :=
  m !! state_dir_of w = Some Dir /\ store_clear E m w.

(** As [quiet_env], but every rename over the target is refused. *)
Definition refusing_env : Env := {|
  resolve := resolve quiet_env;
  expand_resolve := expand_resolve quiet_env;
  which := which quiet_env;
  subprocess_run := subprocess_run quiet_env;
  now := now quiet_env;
  io_fault := fun op _ => match op with OpReplace => true | _ => false end;
  torn := torn quiet_env;
  json_text := json_text quiet_env;
  known_encoding := known_encoding quiet_env;
  decode_fails := decode_fails quiet_env;
  b64encode := b64encode quiet_env;
  csv_reader := csv_reader quiet_env;
  sniff := sniff quiet_env;
  glob := glob quiet_env;
  mtime := mtime quiet_env;
  isoformat := isoformat quiet_env |}.

Definition old_doc : dict :=
  {[ "workdir" := VStr "/w"; "primary_file" := VStr "agent.R";
     "files" := VList [VStr "agent.R"]; "updated_at" := VStr "2024-12-31T23:59:59" ]}.

Definition new_doc : dict := <["updated_at" := VStr "2025-01-01T00:00:00"]> old_doc.

(** The server of [in_w] with [old_doc] in its state file and the script
    [agent.R] on the disk. *)
Definition stored : state :=
  {| self := self in_w;
     fs := <[ ["w"; "agent.R"] := File (Text "x = 1") ]>
             (<[ ["w"; ".pilotr"; "state.json"] := File (Json old_doc) ]> (fs in_w));
     cwd := cwd in_w;
     journal := [] |}.

(** The session fields [handle_set_workdir] assigns for the root [w]; the
    primary file is not among them. *)
Definition session_at (w : path) (s : PilotRServer) : PilotRServer :=
  {| state_dir := Some (state_dir_of w);
     state_file := Some (state_file_of w);
     workdir := Some w;
     primary_file := primary_file s |}.

(** The entries [handle_set_workdir] puts into the state document. *)
Definition stamped (E : Env) (w : path) (primary : string) (doc : dict) : dict :=
  <["updated_at" := VStr (now E)]>
    (<["primary_file" := VStr primary]>
       (<["workdir" := VStr (Path.str w)]> doc)).

(** A server as it is started, on a disk where [/w] exists and [/w/.pilotr]
    is a regular file. *)
Definition blocked : state :=
  {| self := init;
     fs := <[ ["w"; ".pilotr"] := File (Text "notes") ]> (<[ ["w"] := Dir ]> fresh_disk);
     cwd := ["home"];
     journal := [] |}.

(** C2 as the specification states it: a call of [set_workdir] either
    succeeds and leaves the session with the root, the state locations and the
    default primary file of the new directory, or fails and leaves the root,
    the state directory and the state file as they were. *)
Definition set_workdir_atomic (E : Env) (path_arg : string) (create : bool) (st : state) : Prop :=
  let '(r, st') := call_tool E (SetWorkdir path_arg create) st in
  (is_ok r = true /\
   exists w, self st' = {| state_dir := Some (state_dir_of w);
                           state_file := Some (state_file_of w);
                           workdir := Some w;
                           primary_file := "agent.R" |}) \/
  (is_ok r = false /\
   workdir (self st') = workdir (self st) /\
   state_dir (self st') = state_dir (self st) /\
   state_file (self st') = state_file (self st)).

(** C5 as the specification states it: after a successful [set_workdir] the
    primary file is the default one. *)
Definition resets_primary (E : Env) (path_arg : string) (create : bool) (st : state) : Prop :=
  is_ok (call_tool E (SetWorkdir path_arg create) st).1 = true ->
  primary_file (self (call_tool E (SetWorkdir path_arg create) st).2) = "agent.R".

(** A run of tool calls from a state. *)
Definition run_calls (E : Env) (rs : list request) (st : state) : state :=
  fold_left (fun s r => (call_tool E r s).2) rs st.

(** A server that has selected [/a], created [analysis.R] there and made it
    the primary file. *)
Definition after_select : state :=
  Eval vm_compute in
  run_calls quiet_env
    [SetWorkdir "/a" true; CreateRFile "analysis" false true; SetPrimaryFile "analysis"]
    fresh.

(** The data of a successful envelope. *)
Definition payload (o : outcome result) : dict :=
  match o with Val (Ok data) => data | _ => ∅ end.

(** The tracked file list of a state document. *)
Definition tracked (doc : dict) : list value :=
  match doc !! "files" with
  | Some (VList l) => l
  | _ => []
  end.

(** The [files] entry of the document, if there is one, is a list. *)
Definition files_listed (doc : dict) : Prop :=
  doc !! "files" = None \/ exists l, doc !! "files" = Some (VList l).

(** How often a name occurs in a list of values. *)
Definition occurrences (name : string) (l : list value) : nat :=
  length (filter (fun v => is_str name v = true) l).

(** The name a call of [create_R_file] or [write_R_code] registers. *)
Definition registers (st : state) (r : request) : option string :=
  match r with
  | CreateRFile f _ _ => Some (ensure_R_extension f)
  | WriteRCode _ f _ _ =>
      Some (ensure_R_extension
              match f with
              | Some f' => if nonempty f' then f' else primary_file (self st)
              | None => primary_file (self st)
              end)
  | _ => None
  end.

(** The tracked file list as the state file of the session has it. *)
Definition tracked_on_disk (st : state) : list value :=
  match state_file (self st) with
  | Some sf =>
      match fs st !! sf with
      | Some (File (Json doc)) => tracked doc
      | _ => []
      end
  | None => []
  end.

(** The tracked list after a rename, as [handle_rename_R_file] updates it:
    when the old name is tracked, its first occurrence goes and the new name
    is added at the end; otherwise the list stays. *)
Definition renamed (old_name new_name : string) (l : list value) : list value :=
  if existsb (is_str old_name) l then remove_first old_name l ++ [VStr new_name] else l.

(** C7 as the specification states it: after a successful rename the primary
    file of the session follows the file if it was the one renamed and stays
    otherwise, and the tracked list has the new name and no longer the old. *)
Definition rename_tracks (E : Env) (old_name new_name : string) (overwrite : bool)
    (st : state) : Prop :=
  let old := ensure_R_extension old_name in
  let new := ensure_R_extension new_name in
  let '(r, st') := call_tool E (RenameRFile old_name new_name overwrite) st in
  is_ok r = true ->
  (primary_file (self st) = old -> primary_file (self st') = new) /\
  (primary_file (self st) <> old -> primary_file (self st') = primary_file (self st)) /\
  existsb (is_str new) (tracked_on_disk st') = true /\
  existsb (is_str old) (tracked_on_disk st') = false.

(** A disk on which the directory [/w] already holds a script [x.R], and a
    server that has selected [/w] and created [a.R] there. *)
Definition with_script : state :=
  Eval vm_compute in
  run_calls quiet_env [SetWorkdir "/w" true; CreateRFile "a" false true]
    {| self := init;
       fs := <[ ["w"; "x.R"] := File (Text "x = 1") ]> (<[ ["w"] := Dir ]> fresh_disk);
       cwd := ["home"];
       journal := [] |}.

(** C9 as the specification states it: when two calls of [create_R_file] or
    [write_R_code] for one file name both succeed, the tracked list of the
    state file then has the name exactly once. *)
Definition registers_once (E : Env) (r1 r2 : request) (st : state) : Prop :=
  forall name,
    registers st r1 = Some name -> registers st r2 = Some name ->
    let '(res1, st1) := call_tool E r1 st in
    let '(res2, st2) := call_tool E r2 st1 in
    is_ok res1 = true -> is_ok res2 = true ->
    occurrences name (tracked_on_disk st2) = 1%nat.

(** A server that has selected [/w], created [a.R] and [b.R] there and
    renamed [a.R] over [b.R]. *)
Definition renamed_over : state :=
  Eval vm_compute in
  run_calls quiet_env
    [SetWorkdir "/w" true; CreateRFile "a" false true; CreateRFile "b" false true;
     RenameRFile "a" "b" true]
    fresh.

(** * Further notions, for the properties of the rest of the server *)

(** A computation relates every state it starts in to the state it ends in,
    however it ends. *)
Definition preserves (R : state -> state -> Prop) {A} (m : Py A) : Prop :=
  forall st, R st (m st).2.

(** The server object is the same. *)
Definition same_self (st st' : state) : Prop := self st' = self st.

(** The working directory and the locations of the state store are the same
    (the primary file may not be). *)
Definition same_session (st st' : state) : Prop :=
  workdir (self st') = workdir (self st) /\
  state_dir (self st') = state_dir (self st) /\
  state_file (self st') = state_file (self st).

(** The tools that only look: their handlers write nothing. *)
Definition read_only (r : request) : bool :=
  match r with
  | GetState | ListExports _ _ _ _ | ReadExport _ _ _ _ | PreviewTable _ _ _
  | GgplotStyleCheck _ | WhichR | ListRFiles | UnknownTool _ => true
  | _ => false
  end.

(** The tools whose handlers assign a field of the server object. *)
Definition assigns_session (r : request) : bool :=
  match r with SetWorkdir _ _ => true | _ => false end.

Definition assigns_primary (r : request) : bool :=
  match r with RenameRFile _ _ _ | SetPrimaryFile _ => true | _ => false end.

(** The shape the locations of a session have: the state directory is the
    [.pilotr] directory of the working directory, and the state file, once
    there is one, is the [state.json] of the [.pilotr] directory of some
    root. *)
Definition session_ok (s : PilotRServer) : Prop :=
  state_dir s = state_dir_of <$> workdir s /\
  (state_file s = None \/ exists w, state_file s = Some (state_file_of w)).

Definition ok_step (st st' : state) : Prop :=
  session_ok (self st) -> session_ok (self st').

(** [returns m]: the computation lets no exception escape. *)
Definition returns {A} (m : Py A) : Prop := forall st, exists a st', m st = (Val a, st').

(** [yields Q m]: every result the computation returns satisfies [Q]. *)
Definition yields {A} (Q : A -> Prop) (m : Py A) : Prop :=
  forall st a st', m st = (Val a, st') -> Q a.

(** The codes [run_r_command] answers with when it does not succeed. *)
Definition runner_codes : list string :=
  ["R_NOT_FOUND"; "R_EXECUTION_ERROR"; "TIMEOUT"; "EXECUTION_ERROR"].

Definition runner_result (r : result) : Prop :=
  match r with
  | Ok _ => True
  | Err c _ => c ∈ runner_codes
  end.

(** The report of a run: the data of a success, the details of a failure. *)
Definition report (r : result) : option dict :=
  match r with Ok d => Some d | Err _ details => details end.

(** The lines [run_r_command] keeps of the two streams. *)
Definition kept_stdout (line : string) : Prop :=
  line <> EmptyString /\ Str.startswith line "Loading required package:" = false.

Definition kept_stderr (line : string) : Prop :=
  line <> EmptyString /\ Str.contains line "no visible binding" = false.

#[global] Instance kept_stdout_dec (line : string) : Decision (kept_stdout line).
Proof. unfold kept_stdout. apply _. Defined.

#[global] Instance kept_stderr_dec (line : string) : Decision (kept_stderr line).
Proof. unfold kept_stderr. apply _. Defined.

(** The directory the child process of [run_r_command] runs in: the working
    directory if there is one, else where the process is. *)
Definition run_dir (st : state) : path :=
  match workdir (self st) with Some w => w | None => cwd st end.

(** The codes with which a handler turns a call down before doing anything:
    a check on the session, the path, the file or the interpreter failed. *)
Definition refusals : list string :=
  [ "NO_WORKDIR"; "WORKDIR_MISSING"; "UNSAFE_PATH"; "FILE_EXISTS"; "FILE_NOT_FOUND";
    "NOT_A_FILE"; "NO_RDATA"; "DIR_NOT_FOUND"; "NOT_A_DIR"; "FILE_TOO_LARGE";
    "EMPTY_FILE"; "R_NOT_FOUND"; "UNKNOWN_TOOL" ].

Definition is_refusal (r : result) : bool :=
  match r with
  | Ok _ => false
  | Err c _ => bool_decide (c ∈ refusals)
  end.

(** [refuses_cleanly m]: when the computation answers with a refusal, the
    state is what it was. *)
Definition refuses_cleanly (m : Py result) : Prop :=
  forall st r st', m st = (Val r, st') -> is_refusal r = true -> st' = st.

Definition proceeds (r : result) : Prop := is_refusal r = false.

(** The names of the files a call addresses below the working directory, as
    its handler passes them to [is_safe_path]. *)
Definition chosen (f : option string) (s : PilotRServer) : string :=
  match f with
  | Some f' => if nonempty f' then f' else primary_file s
  | None => primary_file s
  end.

Definition named (r : request) (s : PilotRServer) : list string :=
  match r with
  | CreateRFile f _ _ => [ensure_R_extension f]
  | RenameRFile a b _ => [ensure_R_extension a; ensure_R_extension b]
  | SetPrimaryFile f => [ensure_R_extension f]
  | AppendRCode _ f _ | WriteRCode _ f _ _ | RunRScript f _ _ _ =>
      [ensure_R_extension (chosen f s)]
  | ReadExport n _ _ _ | PreviewTable n _ _ => [n]
  | _ => []
  end.

(** The error codes each tool has in its handler, with those of the session
    check and of [run_r_command] where the handler calls them. *)
Definition session_codes : list string := ["NO_WORKDIR"; "WORKDIR_MISSING"].

Definition codes_of (r : request) : list string :=
  match r with
  | SetWorkdir _ _ => ["DIR_NOT_FOUND"; "NOT_A_DIR"; "SET_DIR_ERROR"]
  | GetState => []
  | CreateRFile _ _ _ => session_codes ++ ["UNSAFE_PATH"; "FILE_EXISTS"; "CREATE_ERROR"]
  | RenameRFile _ _ _ =>
      session_codes ++ ["UNSAFE_PATH"; "FILE_NOT_FOUND"; "FILE_EXISTS"; "RENAME_ERROR"]
  | SetPrimaryFile _ => session_codes ++ ["UNSAFE_PATH"; "FILE_NOT_FOUND"]
  | AppendRCode _ _ _ => session_codes ++ ["UNSAFE_PATH"; "FILE_NOT_FOUND"; "APPEND_ERROR"]
  | WriteRCode _ _ _ _ => session_codes ++ ["UNSAFE_PATH"; "FILE_EXISTS"; "WRITE_ERROR"]
  | RunRScript _ _ _ _ => session_codes ++ ["UNSAFE_PATH"; "FILE_NOT_FOUND"] ++ runner_codes
  | RunRExpression _ _ => session_codes ++ runner_codes
  | ListExports _ _ _ _ => session_codes ++ ["LIST_ERROR"]
  | ReadExport _ _ _ _ =>
      session_codes ++ ["UNSAFE_PATH"; "FILE_NOT_FOUND"; "NOT_A_FILE"; "FILE_TOO_LARGE";
                        "DECODE_ERROR"; "READ_ERROR"]
  | PreviewTable _ _ _ =>
      session_codes ++ ["UNSAFE_PATH"; "FILE_NOT_FOUND"; "EMPTY_FILE"; "PREVIEW_ERROR"]
  | GgplotStyleCheck _ => ["ANALYSIS_ERROR"]
  | InspectRObjects _ _ _ => session_codes ++ ["NO_RDATA"] ++ runner_codes
  | WhichR => ["R_NOT_FOUND"]
  | ListRFiles => session_codes ++ ["LIST_ERROR"]
  | UnknownTool _ => ["UNKNOWN_TOOL"]
  end.

(** A result is a success or carries one of the codes of the list. *)
Definition answers_within (codes : list string) (r : result) : Prop :=
  match r with
  | Ok _ => True
  | Err c _ => bool_decide (c ∈ codes) = true
  end.

(** A name that is one path component: no separator in it, and not empty,
    [.] or [..].  Below a directory [w] it names the path [w ++ [n]], which
    is also where the operating system finds it. *)
Definition plain_name (n : string) : Prop :=
  Str.contains n "/" = false /\ n <> EmptyString /\ n <> "." /\ n <> "..".

(** As [stored], with a directory where [save_state] puts its temporary
    file. *)
Definition jammed : state :=
  {| self := {| state_dir := state_dir (self stored);
                state_file := state_file (self stored);
                workdir := workdir (self stored);
                primary_file := "main.R" |};
     fs := <[ ["w"; ".pilotr"; "state.tmp"] := Dir ]> (fs stored);
     cwd := cwd stored;
     journal := [] |}.

(** The paths [save_state] writes: a state file and its temporary sibling. *)
Definition store_path (k : path) : Prop :=
  exists w, k = temp_file_of w \/ k = state_file_of w.

(** The data of a successful result. *)
Definition data_of (r : result) : dict :=
  match r with Ok d => d | Err _ _ => ∅ end.

(** As [stored], with a primary file whose two lines are separated by a
    carriage return alone, and that state after [y = 2] has been appended to
    the primary file. *)
Definition with_mac_script : state :=
  {| self := self stored;
     fs := <[ ["w"; "agent.R"] := File (Text (String "a"%char (String Str.cr "b"))) ]> (fs stored);
     cwd := cwd stored;
     journal := [] |}.

Definition appended : result * state :=
  Eval vm_compute in call_tool quiet_env (AppendRCode "y = 2" None true) with_mac_script.

(** [stored] after [plot.R] has been written, and after [notes.R] has been
    created. *)
Definition written : result * state :=
  Eval vm_compute in call_tool quiet_env (WriteRCode "plot(x)" (Some "plot") false true) stored.

Definition created : result * state :=
  Eval vm_compute in call_tool quiet_env (CreateRFile "notes" false true) stored.

(** [after_select] after [analysis.R] has been renamed to [model.R]. *)
Definition moved : result * state :=
  Eval vm_compute in call_tool quiet_env (RenameRFile "analysis" "model" false) after_select.

(** The order in which [handle_list_exports] returns the entries, by the
    key asked for; the names come in ascending order when [descending] is
    set, the source passing [reverse=not descending] for them. *)
Definition listed_before (sort_by : string) (descending : bool)
    (x y : export_entry) : Prop :=
  if String.eqb sort_by "mtime" then
    if descending then ee_mtime y <= ee_mtime x else ee_mtime x <= ee_mtime y
  else if String.eqb sort_by "size" then
    if descending then ee_size y <= ee_size x else ee_size x <= ee_size y
  else if String.eqb sort_by "name" then
    if descending then String.leb (ee_name x) (ee_name y) = true
    else String.leb (ee_name y) (ee_name x) = true
  else True.

(** Two entries have the same key: sorting leaves such entries in the order
    in which they were found. *)
Definition tied (sort_by : string) (x y : export_entry) : Prop :=
  if String.eqb sort_by "mtime" then ee_mtime x = ee_mtime y
  else if String.eqb sort_by "size" then ee_size x = ee_size y
  else if String.eqb sort_by "name" then ee_name x = ee_name y
  else True.

#[global] Instance tied_dec sort_by x y : Decision (tied sort_by x y).
Proof.
  unfold tied.
  destruct (String.eqb sort_by "mtime"); [apply _ |].
  destruct (String.eqb sort_by "size"); [apply _ |].
  destruct (String.eqb sort_by "name"); apply _.
Defined.

(** As [quiet_env], with two exports that the patterns match and that were
    modified at different times. *)
Definition export_env : Env := {|
  resolve := resolve quiet_env;
  expand_resolve := expand_resolve quiet_env;
  which := which quiet_env;
  subprocess_run := subprocess_run quiet_env;
  now := now quiet_env;
  io_fault := io_fault quiet_env;
  torn := torn quiet_env;
  json_text := json_text quiet_env;
  known_encoding := known_encoding quiet_env;
  decode_fails := decode_fails quiet_env;
  b64encode := b64encode quiet_env;
  csv_reader := csv_reader quiet_env;
  sniff := sniff quiet_env;
  glob := fun _ w _ => inr [w ++ ["b.R"]; w ++ ["a.R"]; w ++ ["b.R"]];
  mtime := fun p => if bool_decide (p = ["w"; "a.R"]) then 5 else 3;
  isoformat := isoformat quiet_env |}.

Definition with_exports : state :=
  {| self := self stored;
     fs := <[ ["w"; "a.R"] := File (Text "a = 1") ]>
             (<[ ["w"; "b.R"] := File (Text "b") ]> (fs stored));
     cwd := cwd stored;
     journal := [] |}.

(** As [stored], with a table whose two lines are separated by a carriage
    return and a line feed. *)
Definition with_dos_table : state :=
  {| self := self stored;
     fs := <[ ["w"; "t.csv"] :=
                File (Text (String "a"%char (String Str.cr (String Str.nl "b")))) ]>
             (fs stored);
     cwd := cwd stored;
     journal := [] |}.

(** The tools that start the interpreter. *)
Definition runs_interpreter (r : request) : bool :=
  match r with
  | RunRScript _ _ _ _ | RunRExpression _ _ | InspectRObjects _ _ _ => true
  | _ => false
  end.

Definition same_cwd (st st' : state) : Prop := cwd st' = cwd st.

(** From [st] to [st'] the server object is the same and the current
    directory is where it was or has become the working directory. *)
Definition stays_or_enters (st st' : state) : Prop :=
  self st' = self st /\ (cwd st' = cwd st \/ workdir (self st) = Some (cwd st')).

(** From [st] to [st'] the disk is the same. *)
Definition same_disk (st st' : state) : Prop := fs st' = fs st.

(** A child process that writes nothing. *)
Definition child_writes_nothing (E : Env) : Prop :=
  forall argv t c m, (subprocess_run E argv t c m).2 = m.

(** ** The string and path operations on examples *)

Example startswith_ex : Str.startswith "Loading required package: x" "Loading" = true.
Proof. reflexivity. Qed.
Example endswith_ex : Str.endswith "agent.R" ".R" = true /\ Str.endswith "agent.Rd" ".R" = false.
Proof. split; reflexivity. Qed.
Example replace_ex : Str.replace "a <- b <- c" "<-" "=" = "a = b = c".
Proof. reflexivity. Qed.
Example split_ex : Str.split "/" "a//b/" = ["a"; EmptyString; "b"; EmptyString].
Proof. reflexivity. Qed.
Example splitlines_ex :
  Str.splitlines (String "a" (String Str.cr (String Str.nl (String "b" (String Str.nl EmptyString))))) = ["a"; "b"].
Proof. reflexivity. Qed.
Example joinpath_ex :
  Path.joinpath ["w"] "a/./b.R" = ["w"; "a"; "b.R"] /\
  Path.joinpath ["w"] "/etc/passwd" = ["etc"; "passwd"] /\
  Path.joinpath ["w"] "../x.R" = ["w"; ".."; "x.R"].
Proof. repeat split; reflexivity. Qed.
Example parents_ex : Path.parents ["a"; "b"; "c"] = [["a"; "b"]; ["a"]; []].
Proof. reflexivity. Qed.
Example with_suffix_ex :
  Path.with_suffix ["w"; ".pilotr"; "state.json"] ".tmp" = Some ["w"; ".pilotr"; "state.tmp"].
Proof. reflexivity. Qed.
Example suffix_ex :
  Path.suffix ["w"; "a.tar.gz"] = ".gz" /\ Path.suffix ["w"; ".pilotr"] = EmptyString.
Proof. split; reflexivity. Qed.

(** * Properties *)

(** ** Computations *)

#[global] Arguments exists_ : simpl never.
#[global] Arguments is_dir : simpl never.
#[global] Arguments is_file : simpl never.
#[global] Arguments is_safe_path : simpl never.
#[global] Arguments Path.joinpath : simpl never.

(** Looking a key up in a dictionary written out as a literal. *)
Ltac map_get :=
  repeat (rewrite lookup_insert_ne by discriminate);
  first [rewrite lookup_insert_eq | rewrite lookup_singleton_eq].

Lemma bind_inv {A B} (m : Py A) (k : A -> Py B) st o st2 :
  bind m k st = (o, st2) ->
  (exists a st1, m st = (Val a, st1) /\ k a st1 = (o, st2)) \/
  (exists e, m st = (Raise e, st2) /\ o = Raise e).
Proof.
  unfold bind. destruct (m st) as [[a|e] st1]; intros H.
  - left. eauto.
  - right. injection H as <- <-. eauto.
Qed.

Lemma bind_val {A B} (m : Py A) (k : A -> Py B) st b st2 :
  bind m k st = (Val b, st2) ->
  exists a st1, m st = (Val a, st1) /\ k a st1 = (Val b, st2).
Proof.
  intros [H | (e & _ & ?)]%bind_inv; [assumption | discriminate].
Qed.

Lemma try_except_inv {A} (m : Py A) (h : exn -> Py A) st o st2 :
  try_except m h st = (o, st2) ->
  (exists a, m st = (Val a, st2) /\ o = Val a) \/
  (exists e st1, m st = (Raise e, st1) /\ h e st1 = (o, st2)).
Proof.
  unfold try_except. destruct (m st) as [[a|e] st1]; intros H.
  - left. injection H as <- <-. eauto.
  - right. eauto.
Qed.

Lemma bind_run {A B} (m : Py A) (k : A -> Py B) st a st1 :
  m st = (Val a, st1) -> bind m k st = k a st1.
Proof. unfold bind. intros ->. reflexivity. Qed.

Lemma bind_raise {A B} (m : Py A) (k : A -> Py B) st e st1 :
  m st = (Raise e, st1) -> bind m k st = (Raise e, st1).
Proof. unfold bind. intros ->. reflexivity. Qed.

(** ** The path guard *)

Lemma elem_of_proper_prefixes (p q : path) :
  q ∈ Path.proper_prefixes p <-> exists rest, rest <> [] /\ p = q ++ rest.
Proof.
  revert q. induction p as [|c p IH]; intros q; simpl.
  - split.
    + intros H. inversion H.
    + intros (rest & Hne & Heq). symmetry in Heq.
      apply app_eq_nil in Heq as [_ ->]. congruence.
  - rewrite elem_of_cons. split.
    + intros [-> | H].
      * exists (c :: p). split; [discriminate | reflexivity].
      * apply list_elem_of_In, in_map_iff in H as (q' & <- & Hq').
        apply list_elem_of_In, IH in Hq' as (rest & Hne & ->).
        exists rest. split; [assumption | reflexivity].
    + intros (rest & Hne & Heq). destruct q as [|c' q'].
      * left. reflexivity.
      * right. simpl in Heq. injection Heq as <- ->.
        apply list_elem_of_In, in_map_iff. exists q'. split; [reflexivity |].
        apply list_elem_of_In, IH. eauto.
Qed.

Lemma is_relative_to_spec (p other : path) :
  Path.is_relative_to p other = true <-> p = other \/ nested_beneath p other.
Proof.
  unfold Path.is_relative_to, Path.parents, nested_beneath.
  rewrite orb_true_iff, !bool_decide_eq_true, elem_of_reverse, elem_of_proper_prefixes.
  intuition congruence.
Qed.

(** C4.  The guard accepts a path exactly when a root is configured, the
    path resolves, and its canonical form is the root or lies below it.  So
    it rejects every path when there is no root, every path whose resolution
    raises, and every path that resolves outside the root. *)
Theorem is_safe_path_iff (E : Env) (s : PilotRServer) (p : path) :
  is_safe_path E s p = true <->
  exists r c, workdir s = Some r /\ resolve E p = Resolved c /\
              (c = r \/ nested_beneath c r).
Proof.
  unfold is_safe_path. split.
  - destruct (workdir s) as [r|]; [|discriminate].
    destruct (resolve E p) as [c|e]; [|discriminate].
    intros H%is_relative_to_spec. eauto.
  - intros (r & c & -> & -> & H). apply is_relative_to_spec, H.
Qed.

Corollary is_safe_path_no_root (E : Env) (s : PilotRServer) (p : path) :
  workdir s = None -> is_safe_path E s p = false.
Proof. unfold is_safe_path. intros ->. reflexivity. Qed.

Corollary is_safe_path_unresolved (E : Env) (s : PilotRServer) (p : path) e :
  resolve E p = Unresolved e -> is_safe_path E s p = false.
Proof. unfold is_safe_path. intros ->. destruct (workdir s); reflexivity. Qed.

(** ** The interpreter runner and the current directory *)

(** X11.  When the child completes, the current directory is put back, whatever the
    exit status. *)
Lemma run_r_command_completed_restores (E : Env) st args timeout r_exe w rc out err fs' :
  find_r_executable E = Some r_exe ->
  workdir (self st) = Some w ->
  is_dir (fs st) (cwd st) = true ->
  fs st !! w = Some Dir ->
  subprocess_run E (r_exe :: args) timeout w (fs st) = (Completed rc out err, fs') ->
  fs' !! cwd st = Some Dir ->
  exists r st', run_r_command E args timeout st = (Val r, st') /\ cwd st' = cwd st /\
                (rc = 0 -> is_ok r = true) /\
                (rc <> 0 -> error_code r = Some "R_EXECUTION_ERROR").
Proof.
  intros Hexe Hw Hcwd Hdir Hrun Hback.
  cbv beta iota zeta delta
    [run_r_command getcwd run chdir bind ret get modify try_except raise].
  rewrite Hexe, Hcwd. simpl. rewrite Hw, Hdir. simpl.
  rewrite Hrun. simpl. rewrite Hback. simpl.
  destruct (bool_decide (rc <> 0)) eqn:Hrc.
  - apply bool_decide_eq_true in Hrc.
    eexists _, _. split; [reflexivity |]. split; [reflexivity |].
    split; [intros ?; contradiction | reflexivity].
  - apply bool_decide_eq_false in Hrc.
    eexists _, _. split; [reflexivity |]. split; [reflexivity |].
    split; [reflexivity | intros ?; contradiction].
Qed.

(** C1.  When the child does not finish in time, [run_r_command] answers
    [TIMEOUT] and the process is left in the working directory: the line that
    puts the current directory back is skipped. *)
Theorem run_r_command_timeout_stays (E : Env) st args timeout r_exe w fs' :
  find_r_executable E = Some r_exe ->
  workdir (self st) = Some w ->
  is_dir (fs st) (cwd st) = true ->
  fs st !! w = Some Dir ->
  subprocess_run E (r_exe :: args) timeout w (fs st) = (TimedOut, fs') ->
  exists st', run_r_command E args timeout st = (Val (Err "TIMEOUT" None), st') /\
              cwd st' = w.
Proof.
  intros Hexe Hw Hcwd Hdir Hrun.
  cbv beta iota zeta delta
    [run_r_command getcwd run chdir bind ret get modify try_except raise].
  rewrite Hexe, Hcwd. simpl. rewrite Hw, Hdir. simpl.
  rewrite Hrun. simpl. eexists. split; reflexivity.
Qed.

Lemma run_r_command_timeout_stays_witness :
  exists st', run_r_command stalling_env ["-e"; "1+1"; "--slave"] 60 in_w
                = (Val (Err "TIMEOUT" None), st') /\
              cwd st' = ["w"] /\ cwd in_w = ["home"].
Proof.
  destruct (run_r_command_timeout_stays stalling_env in_w ["-e"; "1+1"; "--slave"] 60
              "/usr/bin/Rscript" ["w"] (fs in_w)) as (st' & H1 & H2);
    [reflexivity | reflexivity | reflexivity | reflexivity | reflexivity |].
  exists st'. repeat split; assumption.
Defined.

(** ** The table preview *)

Lemma read_rows_stream (max_rows : Z) (data rows : list (list string)) (total : Z) :
  read_rows max_rows rows total (stream_of data) =
  inr (rows ++ take (Z.to_nat (max_rows - Z.of_nat (length rows))) data,
       total + Z.of_nat (length data)).
Proof.
  revert rows total. induction data as [|row data IH]; intros rows total; simpl.
  - rewrite take_nil, app_nil_r, Z.add_0_r. reflexivity.
  - rewrite IH. f_equal. f_equal; [|lia].
    destruct (Z.ltb_spec (Z.of_nat (length rows)) max_rows) as [Hlt | Hge].
    + rewrite length_app. simpl.
      replace (Z.to_nat (max_rows - Z.of_nat (length rows)))
        with (S (Z.to_nat (max_rows - Z.of_nat (length rows + 1)))) by lia.
      simpl. rewrite <- app_assoc. reflexivity.
    + replace (Z.to_nat (max_rows - Z.of_nat (length rows))) with 0%nat by lia.
      reflexivity.
Qed.

(** C8.  For a file that parses into a non-empty header and [N] rows, the
    preview holds the first [min N M] rows, counts all [N] of them, and says
    it is truncated exactly when [N > M]. *)
Theorem preview_streaming (E : Env) st w name delimiter d max_rows text header data :
  workdir (self st) = Some w ->
  exists_ (fs st) w = true ->
  is_safe_path E (self st) (Path.joinpath w name) = true ->
  fs st !! Path.joinpath w name = Some (File (Text text)) ->
  io_fault E OpRead (Path.joinpath w name) = false ->
  choose_delimiter E delimiter text = inr d ->
  csv_reader E text d = stream_of (header :: data) ->
  header <> [] ->
  exists payload,
    handle_preview_table E name delimiter max_rows st = (Val (Ok payload), st) /\
    payload !! "rows" =
      Some (VList (row_value <$>
                     take (Z.to_nat (Z.min (Z.of_nat (length data)) max_rows)) data)) /\
    payload !! "total_rows" = Some (VInt (Z.of_nat (length data))) /\
    payload !! "displayed_rows" =
      Some (VInt (Z.max 0 (Z.min (Z.of_nat (length data)) max_rows))) /\
    payload !! "truncated" = Some (VBool (max_rows <? Z.of_nat (length data))).
Proof.
  intros Hw Hex Hsafe Hfile Hfault Hdelim Hcsv Hhead.
  assert (Hexists : exists_ (fs st) (Path.joinpath w name) = true).
  { unfold exists_. rewrite Hfile. apply bool_decide_eq_true. eauto. }
  cbv beta iota zeta delta
    [handle_preview_table ensure_workdir_set in_workdir open_read read_raw
     fault try_except bind get ret raise].
  rewrite Hw, Hex. simpl. rewrite Hw. simpl. rewrite Hsafe, Hexists. simpl.
  rewrite Hfault. simpl. rewrite Hfile, Hdelim. simpl. rewrite Hcsv. simpl.
  destruct header as [|h header]; [congruence |].
  rewrite read_rows_stream. simpl.
  eexists. split; [reflexivity |].
  rewrite Z.sub_0_r.
  assert (Htake : take (Z.to_nat max_rows) data =
                  take (Z.to_nat (Z.min (Z.of_nat (length data)) max_rows)) data).
  { destruct (Z.le_gt_cases (Z.of_nat (length data)) max_rows).
    - rewrite Z.min_l by assumption. rewrite Nat2Z.id, firstn_all.
      apply take_ge. lia.
    - rewrite Z.min_r by lia. reflexivity. }
  split; [|split; [|split]].
  - map_get. rewrite <- Htake. reflexivity.
  - map_get. reflexivity.
  - map_get. f_equal. f_equal. rewrite length_take. lia.
  - map_get. reflexivity.
Qed.

Lemma preview_streaming_witness :
  exists payload,
    handle_preview_table table_env "t.csv" "," 2 with_table = (Val (Ok payload), with_table) /\
    payload !! "rows" = Some (VList [row_value ["1"; "2"]; row_value ["3"; "4"]]) /\
    payload !! "total_rows" = Some (VInt 3) /\
    payload !! "displayed_rows" = Some (VInt 2) /\
    payload !! "truncated" = Some (VBool true).
Proof.
  apply (preview_streaming table_env with_table ["w"] "t.csv" "," "," 2
           "x,y 1,2 3,4 5,6" ["x"; "y"] [["1"; "2"]; ["3"; "4"]; ["5"; "6"]]);
    try reflexivity.
  discriminate.
Defined.

(** ** The style check *)

Lemma style_check_unmatched (code : string) :
  Str.contains code "<-" = false ->
  Str.contains code "theme_gray()" = false ->
  Str.contains code "theme_grey()" = false ->
  (style_check code).2 = code.
Proof.
  intros H1 H2 H3. unfold style_check. rewrite H1, H2, H3. simpl.
  destruct (negb (Str.contains code "theme(") && Str.contains code "ggplot("); reflexivity.
Qed.

(** C10.  The style check always answers [ok: true] and leaves the state of
    the server as it is; [original_code] is the input, and so is
    [optimized_code] when none of the three replaced patterns occurs in it. *)
Theorem style_check_total (code : string) (st : state) :
  exists data,
    handle_ggplot_style_check code st = (Val (Ok data), st) /\
    data !! "original_code" = Some (VStr code) /\
    (Str.contains code "<-" = false ->
     Str.contains code "theme_gray()" = false ->
     Str.contains code "theme_grey()" = false ->
     data !! "optimized_code" = Some (VStr code)).
Proof.
  unfold handle_ggplot_style_check.
  pose proof (style_check_unmatched code) as Hkeep.
  destruct (style_check code) as [optimizations optimized_code].
  eexists. split; [reflexivity |]. split.
  - map_get. reflexivity.
  - intros H1 H2 H3. map_get. simpl in Hkeep. rewrite (Hkeep H1 H2 H3).
    destruct (bool_decide (optimizations <> [])); reflexivity.
Qed.

Lemma style_check_total_witness :
  exists data,
    handle_ggplot_style_check "plot(x)" fresh = (Val (Ok data), fresh) /\
    data !! "original_code" = Some (VStr "plot(x)") /\
    data !! "optimized_code" = Some (VStr "plot(x)").
Proof.
  destruct (style_check_total "plot(x)" fresh) as (data & H1 & H2 & H3).
  exists data. split; [exact H1 |]. split; [exact H2 |].
  apply H3; reflexivity.
Defined.

(** ** The session check *)

Lemma ensure_workdir_set_unset (st : state) :
  workdir (self st) = None ->
  ensure_workdir_set st = (Val (false, Some "NO_WORKDIR"), st).
Proof. unfold ensure_workdir_set, bind, get. simpl. intros ->. reflexivity. Qed.

Lemma ensure_workdir_set_missing (st : state) w :
  workdir (self st) = Some w -> exists_ (fs st) w = false ->
  ensure_workdir_set st = (Val (false, Some "WORKDIR_MISSING"), st).
Proof. unfold ensure_workdir_set, bind, get. simpl. intros -> ->. reflexivity. Qed.

Lemma ensure_workdir_set_present (st : state) w :
  workdir (self st) = Some w -> exists_ (fs st) w = true ->
  ensure_workdir_set st = (Val (true, None), st).
Proof. unfold ensure_workdir_set, bind, get. simpl. intros -> ->. reflexivity. Qed.

Create HintDb handlers.
#[global] Hint Unfold handle_create_R_file handle_rename_R_file handle_set_primary_file
  handle_append_R_code handle_write_R_code handle_run_R_script handle_run_R_expression
  handle_list_exports handle_read_export handle_preview_table handle_inspect_R_objects
  handle_list_R_files : handlers.

(** A guarded handler stops at a failed check and touches nothing. *)
Lemma guarded_stops (E : Env) (r : request) (st : state) code :
  guarded r = true ->
  ensure_workdir_set st = (Val (false, Some code), st) ->
  call_tool E r st = (Err code None, st).
Proof.
  intros Hg Hchk. unfold call_tool.
  destruct r; try discriminate Hg; simpl; autounfold with handlers;
    rewrite (bind_run _ _ _ _ _ Hchk); reflexivity.
Qed.

(** C3, as the code has it.  Each of the twelve tools that work on the
    directory first checks the session, afresh on every call: with no working
    directory the answer is [NO_WORKDIR], with one that no longer exists
    [WORKDIR_MISSING], and nothing is changed.  [set_workdir], [get_state],
    [which_R] and [ggplot_style_check] make no such check. *)
Theorem guarded_requires_session (E : Env) (r : request) (st : state) :
  guarded r = true ->
  (workdir (self st) = None ->
   call_tool E r st = (Err "NO_WORKDIR" None, st)) /\
  (forall w, workdir (self st) = Some w -> exists_ (fs st) w = false ->
   call_tool E r st = (Err "WORKDIR_MISSING" None, st)).
Proof.
  intros Hg. split.
  - intros Hw. apply guarded_stops; [assumption |].
    apply ensure_workdir_set_unset, Hw.
  - intros w Hw Hex. apply guarded_stops; [assumption |].
    apply (ensure_workdir_set_missing st w Hw Hex).
Qed.

Lemma guarded_requires_session_witness :
  call_tool quiet_env (RunRExpression "1+1" 60) fresh = (Err "NO_WORKDIR" None, fresh) /\
  call_tool quiet_env ListRFiles orphaned = (Err "WORKDIR_MISSING" None, orphaned).
Proof.
  split.
  - apply (proj1 (guarded_requires_session quiet_env (RunRExpression "1+1" 60) fresh eq_refl)).
    reflexivity.
  - apply (proj2 (guarded_requires_session quiet_env ListRFiles orphaned eq_refl) ["gone"]);
      reflexivity.
Defined.

(** The twelve guarded tools answer to the session check in the sense of
    [requires_session]. *)
Corollary guarded_session (E : Env) (r : request) (st : state) :
  guarded r = true -> requires_session E r st.
Proof.
  intros Hg. split.
  - intros Hw.
    rewrite (guarded_stops E r st _ Hg (ensure_workdir_set_unset st Hw)). reflexivity.
  - intros w Hw Hex.
    rewrite (guarded_stops E r st _ Hg (ensure_workdir_set_missing st w Hw Hex)). reflexivity.
Qed.

(** C3, as the specification states it, fails: [get_state], [which_R] and
    [ggplot_style_check] answer [ok: true] on a server that has no working
    directory. *)
Lemma unguarded_tools_need_no_session :
  ~ requires_session quiet_env GetState fresh /\
  ~ requires_session quiet_env WhichR fresh /\
  ~ requires_session quiet_env (GgplotStyleCheck "plot(x)") fresh.
Proof.
  repeat split; intros [H _]; specialize (H eq_refl); vm_compute in H; discriminate H.
Qed.

(** ** Names of scripts and the paths of the state store *)

Lemma state_dir_of_eq (w : path) : state_dir_of w = w ++ [".pilotr"].
Proof. reflexivity. Qed.

Lemma state_file_of_eq (w : path) : state_file_of w = w ++ [".pilotr"; "state.json"].
Proof.
  unfold state_file_of. rewrite state_dir_of_eq.
  change (Path.joinpath (w ++ [".pilotr"]) "state.json")
    with ((w ++ [".pilotr"]) ++ ["state.json"]).
  rewrite <- app_assoc. reflexivity.
Qed.

Lemma with_suffix_state_file (w : path) :
  Path.with_suffix (state_file_of w) ".tmp" = Some (temp_file_of w).
Proof.
  rewrite state_file_of_eq. unfold Path.with_suffix, temp_file_of.
  change [".pilotr"; "state.json"] with ([".pilotr"] ++ ["state.json"]).
  rewrite app_assoc, last_snoc, removelast_last, <- app_assoc. reflexivity.
Qed.

Lemma parent_state_file (w : path) : Path.parent (state_file_of w) = state_dir_of w.
Proof.
  rewrite state_file_of_eq, state_dir_of_eq. unfold Path.parent.
  change [".pilotr"; "state.json"] with ([".pilotr"] ++ ["state.json"]).
  rewrite app_assoc, removelast_last. reflexivity.
Qed.

Lemma parent_temp_file (w : path) : Path.parent (temp_file_of w) = state_dir_of w.
Proof.
  rewrite state_dir_of_eq. unfold Path.parent, temp_file_of.
  change [".pilotr"; "state.tmp"] with ([".pilotr"] ++ ["state.tmp"]).
  rewrite app_assoc, removelast_last. reflexivity.
Qed.

Lemma last_state_dir (w : path) : last (state_dir_of w) = Some ".pilotr".
Proof. rewrite state_dir_of_eq. apply last_snoc. Qed.

Lemma last_state_file (w : path) : last (state_file_of w) = Some "state.json".
Proof.
  rewrite state_file_of_eq. change [".pilotr"; "state.json"] with ([".pilotr"] ++ ["state.json"]).
  rewrite app_assoc. apply last_snoc.
Qed.

Lemma last_temp_file (w : path) : last (temp_file_of w) = Some "state.tmp".
Proof.
  unfold temp_file_of. change [".pilotr"; "state.tmp"] with ([".pilotr"] ++ ["state.tmp"]).
  rewrite app_assoc. apply last_snoc.
Qed.

Lemma temp_ne_state_file (w : path) : temp_file_of w <> state_file_of w.
Proof.
  intros H. apply (f_equal last) in H.
  rewrite last_temp_file, last_state_file in H. discriminate.
Qed.

Lemma state_dir_ne_state_file (w : path) : state_dir_of w <> state_file_of w.
Proof.
  intros H. apply (f_equal last) in H.
  rewrite last_state_dir, last_state_file in H. discriminate.
Qed.

Lemma state_dir_ne_temp_file (w : path) : state_dir_of w <> temp_file_of w.
Proof.
  intros H. apply (f_equal last) in H.
  rewrite last_state_dir, last_temp_file in H. discriminate.
Qed.

Lemma endswith_unfold (s p : string) :
  Str.endswith s p =
  String.eqb s p || match s with EmptyString => false | String _ s' => Str.endswith s' p end.
Proof. destruct s; reflexivity. Qed.

Lemma endswith_refl (s : string) : Str.endswith s s = true.
Proof. rewrite endswith_unfold, String.eqb_refl. reflexivity. Qed.

Lemma endswith_cons (a : ascii) (s p : string) :
  Str.endswith s p = true -> Str.endswith (String a s) p = true.
Proof. intros H. rewrite endswith_unfold, H. apply orb_true_r. Qed.

Lemma endswith_app (s p : string) : Str.endswith (s +:+ p) p = true.
Proof.
  induction s as [|a s IH].
  - apply endswith_refl.
  - apply (endswith_cons a (s +:+ p) p IH).
Qed.

Lemma ensure_R_extension_R (f : string) : R_name (ensure_R_extension f).
Proof.
  unfold ensure_R_extension, R_name.
  destruct (Str.endswith f ".R") eqn:H1; simpl; [left; assumption |].
  destruct (Str.endswith f ".r") eqn:H2; simpl; [right; assumption |].
  left. apply endswith_app.
Qed.

(** The last component of a path string ends as the string does. *)
Lemma split_last_endswith (s suf : string) :
  Str.split "/" suf = [suf] ->
  Str.endswith s suf = true ->
  exists c, last (Str.split "/" s) = Some c /\ Str.endswith c suf = true.
Proof.
  intros Hsuf. induction s as [|a s IH]; intros H.
  - rewrite endswith_unfold, orb_false_r in H. apply String.eqb_eq in H. subst suf.
    exists EmptyString. split; reflexivity.
  - rewrite endswith_unfold in H. apply orb_true_iff in H as [H | H].
    + apply String.eqb_eq in H. rewrite H, Hsuf. exists suf.
      split; [reflexivity | apply endswith_refl].
    + destruct (IH H) as (c & Hlast & Hc). simpl.
      destruct (Ascii.eqb a "/").
      * exists c. rewrite last_cons, Hlast. split; [reflexivity | assumption].
      * destruct (Str.split "/" s) as [|w ws]; [discriminate |].
        destruct ws as [|w' ws].
        -- injection Hlast as ->. exists (String a c).
           split; [reflexivity | apply endswith_cons, Hc].
        -- exists c. rewrite last_cons_cons. rewrite last_cons_cons in Hlast.
           split; assumption.
Qed.

Lemma last_filter_keep {A} (P : A -> Prop) `{forall x, Decision (P x)} (l : list A) c :
  last l = Some c -> P c -> last (filter P l) = Some c.
Proof.
  intros (l' & ->)%last_Some Hc.
  rewrite filter_app, filter_cons_True by assumption. apply last_snoc.
Qed.

Lemma R_name_nonempty (c : string) : R_name c -> c <> EmptyString /\ c <> ".".
Proof. intros [H | H]; split; intros ->; discriminate H. Qed.

(** A path made from the name of a script ends in a component with the
    extension of a script. *)
Lemma R_path_last (w : path) (n : string) :
  R_name n -> exists c, last (Path.joinpath w n) = Some c /\ R_name c.
Proof.
  intros Hn.
  assert (exists c, last (Str.split "/" n) = Some c /\ R_name c) as (c & Hlast & Hc).
  { destruct Hn as [H | H];
      apply split_last_endswith in H as (c & ? & ?); try reflexivity;
      exists c; (split; [assumption |]); [left | right]; assumption. }
  exists c. split; [|assumption].
  assert (Hseg : last (Path.segments n) = Some c).
  { apply last_filter_keep; [assumption | apply R_name_nonempty, Hc]. }
  unfold Path.joinpath. destruct (Str.startswith n "/"); [assumption |].
  rewrite last_app, Hseg. reflexivity.
Qed.

(** So it is none of the paths of the state store. *)
Lemma R_path_ne_store (w w' : path) (n : string) :
  R_name n ->
  Path.joinpath w' n <> state_dir_of w /\
  Path.joinpath w' n <> state_file_of w /\
  Path.joinpath w' n <> temp_file_of w.
Proof.
  intros (c & Hlast & Hc)%(R_path_last w').
  repeat split; intros Heq; rewrite Heq in Hlast;
    [rewrite last_state_dir in Hlast | rewrite last_state_file in Hlast
    | rewrite last_temp_file in Hlast];
    injection Hlast as <-; destruct Hc as [Hc | Hc]; discriminate Hc.
Qed.

(** ** What a computation writes *)

Lemma frames_refl (K : path -> Prop) st : frames K st st.
Proof.
  split; [reflexivity |]. split; [reflexivity |].
  exists []. split; [reflexivity |]. intros k _. split; [reflexivity | constructor].
Qed.

Lemma frames_trans (K : path -> Prop) st1 st2 st3 :
  frames K st1 st2 -> frames K st2 st3 -> frames K st1 st3.
Proof.
  intros (Hs1 & Hc1 & steps1 & Hj1 & H1) (Hs2 & Hc2 & steps2 & Hj2 & H2).
  split; [congruence |]. split; [congruence |].
  exists (steps2 ++ steps1). split.
  - rewrite Hj2, Hj1, app_assoc. reflexivity.
  - intros k Hk. destruct (H1 k Hk) as [E1 F1]. destruct (H2 k Hk) as [E2 F2].
    split; [congruence |]. apply Forall_app. split; [|assumption].
    eapply Forall_impl; [exact F2 |]. simpl. intros m Hm. congruence.
Qed.

Lemma frames_mono (K K' : path -> Prop) st st' :
  (forall k, K k -> K' k) -> frames K st st' -> frames K' st st'.
Proof.
  intros Hsub (Hs & Hc & steps & Hj & H).
  split; [assumption |]. split; [assumption |].
  exists steps. split; [assumption |]. intros k Hk. apply H. auto.
Qed.

Lemma frames_set_fs (K : path -> Prop) (f : FS -> FS) st :
  (forall k, ~ K k -> f (fs st) !! k = fs st !! k) ->
  frames K st (set_fs f st).
Proof.
  intros Hf. split; [reflexivity |]. split; [reflexivity |].
  exists [fs st]. split; [reflexivity |]. intros k Hk. split.
  - apply Hf, Hk.
  - repeat constructor.
Qed.

Lemma frames_lookup (K : path -> Prop) st st' k :
  frames K st st' -> ~ K k -> fs st' !! k = fs st !! k.
Proof. intros (_ & _ & steps & _ & H) Hk. apply H, Hk. Qed.

Lemma touches_ret {A} (a : A) K : touches (ret a) K.
Proof. intros st. apply frames_refl. Qed.

Lemma touches_raise {A} e K : touches (@raise A e) K.
Proof. intros st. apply frames_refl. Qed.

Lemma touches_get K : touches get K.
Proof. intros st. apply frames_refl. Qed.

Lemma touches_bind {A B} (m : Py A) (k : A -> Py B) K :
  touches m K -> (forall a, touches (k a) K) -> touches (bind m k) K.
Proof.
  intros Hm Hk st. unfold bind. specialize (Hm st).
  destruct (m st) as [[a|e] st1]; simpl in *.
  - eapply frames_trans; [exact Hm | apply Hk].
  - exact Hm.
Qed.

Lemma touches_try_except {A} (m : Py A) (h : exn -> Py A) K :
  touches m K -> (forall e, touches (h e) K) -> touches (try_except m h) K.
Proof.
  intros Hm Hh st. unfold try_except. specialize (Hm st).
  destruct (m st) as [[a|e] st1]; simpl in *.
  - exact Hm.
  - eapply frames_trans; [exact Hm | apply Hh].
Qed.

Lemma touches_mono {A} (m : Py A) (K K' : path -> Prop) :
  (forall k, K k -> K' k) -> touches m K -> touches m K'.
Proof. intros Hsub Hm st. eapply frames_mono; [exact Hsub | apply Hm]. Qed.

Lemma touches_fault (E : Env) op p K : touches (fault E op p) K.
Proof. intros st. unfold fault. destruct (io_fault E op p); apply frames_refl. Qed.

(** Splits on what a system call looks up until every case is a plain
    write or no write at all. *)
Ltac frame_cases :=
  repeat match goal with
         | |- context [if ?b then _ else _] => destruct b
         | |- context [match ?x with _ => _ end] => destruct x
         end;
  simpl;
  first [ apply frames_refl
        | apply frames_set_fs; intros k Hk; simpl;
          repeat first [ rewrite lookup_insert_ne by congruence
                       | rewrite lookup_delete_ne by congruence ];
          reflexivity ].

Lemma touches_open_write (E : Env) p : touches (open_write E p) (eq p).
Proof.
  intros st.
  cbv beta iota zeta delta [open_write fault bind get ret raise modify].
  frame_cases.
Qed.

Lemma touches_write_content (E : Env) p c : touches (write_content E p c) (eq p).
Proof.
  intros st.
  cbv beta iota zeta delta [write_content bind get ret raise modify].
  frame_cases.
Qed.

Lemma touches_unlink (E : Env) p : touches (unlink E p) (eq p).
Proof.
  intros st.
  cbv beta iota zeta delta [unlink fault bind get ret raise modify].
  frame_cases.
Qed.

Lemma touches_read_json (E : Env) p K : touches (read_json E p) K.
Proof.
  intros st.
  cbv beta iota zeta delta [read_json fault bind get ret raise modify].
  frame_cases.
Qed.

Lemma touches_read_raw (E : Env) p K : touches (read_raw E p) K.
Proof.
  intros st.
  cbv beta iota zeta delta [read_raw fault bind get ret raise modify].
  frame_cases.
Qed.

Lemma touches_load_state (E : Env) K : touches (load_state E) K.
Proof.
  intros st.
  cbv beta iota zeta delta [load_state bind get].
  destruct (state_file (self st)) as [sf|]; [|apply frames_refl].
  destruct (negb (exists_ (fs st) sf)); [apply frames_refl |].
  apply touches_try_except; [apply touches_read_json | intros; apply touches_ret].
Qed.

Lemma touches_os_mkdir (E : Env) p : touches (os_mkdir E p) (eq p).
Proof.
  intros st.
  cbv beta iota zeta delta [os_mkdir fault bind get ret raise modify].
  frame_cases.
Qed.

Lemma touches_mkdir_exists ok p e K : touches (mkdir_exists ok p e) K.
Proof.
  intros st. cbv beta iota zeta delta [mkdir_exists bind get ret raise].
  frame_cases.
Qed.

Lemma touches_mkdir (E : Env) ok p : touches (mkdir E ok p) (eq p).
Proof.
  apply touches_try_except; [apply touches_os_mkdir |].
  intros e. destruct e; first [apply touches_raise | apply touches_mkdir_exists].
Qed.

(** ** The state store: saving *)

Lemma open_write_val (E : Env) p st u st' :
  open_write E p st = (Val u, st') ->
  st' = set_fs (insert p (File (Text EmptyString))) st /\
  fs st !! Path.parent p = Some Dir.
Proof.
  cbv beta iota zeta delta [open_write fault bind get ret raise modify].
  destruct (io_fault E OpOpenWrite p); [discriminate |].
  destruct (fs st !! p) as [[|c]|]; try discriminate;
    destruct (fs st !! Path.parent p) as [[|c']|]; try discriminate;
    intros H; injection H as _ <-; split; reflexivity.
Qed.

Lemma write_content_val (E : Env) p c st u st' :
  write_content E p c st = (Val u, st') -> st' = set_fs (insert p (File c)) st.
Proof.
  cbv beta iota zeta delta [write_content bind get ret raise modify].
  destruct (io_fault E OpWrite p); [discriminate |].
  intros H; injection H as _ <-; reflexivity.
Qed.

(** Moving a regular file either happens in one step or raises and changes
    nothing. *)
Lemma move_file_cases (E : Env) op src dst st c :
  fs st !! src = Some (File c) ->
  move E op src dst st = (Val tt, set_fs (fun m => <[dst := File c]> (delete src m)) st) \/
  exists e, move E op src dst st = (Raise e, st).
Proof.
  intros Hsrc.
  cbv beta iota zeta delta [move fault bind get ret raise modify].
  destruct (io_fault E op src); [right; eauto |].
  rewrite Hsrc.
  destruct (fs st !! dst) as [[|c']|]; [right; eauto | |];
    destruct (fs st !! Path.parent dst) as [[|c'']|]; eauto.
Qed.

Lemma move_file_ok (E : Env) op src dst st c :
  io_fault E op src = false ->
  fs st !! src = Some (File c) ->
  fs st !! dst <> Some Dir ->
  fs st !! Path.parent dst = Some Dir ->
  move E op src dst st = (Val tt, set_fs (fun m => <[dst := File c]> (delete src m)) st).
Proof.
  intros Hfault Hsrc Hdst Hparent.
  cbv beta iota zeta delta [move fault bind get ret raise modify].
  rewrite Hfault, Hsrc, Hparent.
  destruct (fs st !! dst) as [[|c']|]; [congruence | reflexivity | reflexivity].
Qed.

Lemma open_write_ok (E : Env) p st :
  io_fault E OpOpenWrite p = false ->
  fs st !! p <> Some Dir ->
  fs st !! Path.parent p = Some Dir ->
  open_write E p st = (Val tt, set_fs (insert p (File (Text EmptyString))) st).
Proof.
  intros Hfault Hp Hparent.
  cbv beta iota zeta delta [open_write fault bind get ret raise modify].
  rewrite Hfault, Hparent.
  destruct (fs st !! p) as [[|c']|]; [congruence | reflexivity | reflexivity].
Qed.

Lemma write_content_ok (E : Env) p c st :
  io_fault E OpWrite p = false ->
  write_content E p c st = (Val tt, set_fs (insert p (File c)) st).
Proof.
  intros Hfault.
  cbv beta iota zeta delta [write_content bind get ret raise modify].
  rewrite Hfault. reflexivity.
Qed.

Lemma frames_holds (p q : path) st st' d :
  frames (eq p) st st' -> p <> q -> holds (fs st) q d ->
  holds (fs st') q d /\
  exists steps, journal st' = steps ++ journal st /\
                Forall (fun m => holds m q d) steps.
Proof.
  intros (_ & _ & steps & Hj & H) Hne Hq.
  destruct (H q Hne) as [Hfs Hsteps]. split.
  - unfold holds. rewrite Hfs. exact Hq.
  - exists steps. split; [assumption |].
    eapply Forall_impl; [exact Hsteps |]. simpl. intros m Hm.
    unfold holds. rewrite Hm. exact Hq.
Qed.

(** The handler of the [except] of [save_state] only removes the temporary
    file. *)
Lemma touches_cleanup (E : Env) tmp :
  touches (st' <- get ;; if exists_ (fs st') tmp then unlink E tmp else ret tt) (eq tmp).
Proof.
  apply touches_bind; [apply touches_get |].
  intros st'. destruct (exists_ (fs st') tmp); [apply touches_unlink | apply touches_ret].
Qed.

(** When the body of the [try] raises, only the temporary file was written. *)
Lemma write_and_replace_raise (E : Env) tmp sf d st e st1 :
  write_and_replace E tmp sf d st = (Raise e, st1) ->
  frames (eq tmp) st st1.
Proof.
  unfold write_and_replace.
  intros [(u & sta & Hopen & Hrest) | (e' & Hopen & _)]%bind_inv.
  - pose proof (touches_open_write E tmp st) as Fa. rewrite Hopen in Fa. simpl in Fa.
    apply bind_inv in Hrest as [(u' & stb & Hwrite & Hmove) | (e' & Hwrite & _)].
    + pose proof (touches_write_content E tmp (Json d) sta) as Fb.
      rewrite Hwrite in Fb. simpl in Fb.
      apply open_write_val in Hopen as [-> _].
      apply write_content_val in Hwrite as ->.
      unfold replace_ in Hmove.
      destruct (move_file_cases E OpReplace tmp sf
                  (set_fs (insert tmp (File (Json d)))
                     (set_fs (insert tmp (File (Text EmptyString))) st)) (Json d))
        as [Hok | (e' & Hfail)].
      * simpl. apply lookup_insert_eq.
      * rewrite Hok in Hmove. discriminate.
      * rewrite Hfail in Hmove. injection Hmove as _ <-.
        eapply frames_trans; eassumption.
    + pose proof (touches_write_content E tmp (Json d) sta) as Fb.
      rewrite Hwrite in Fb. simpl in Fb.
      eapply frames_trans; eassumption.
  - pose proof (touches_open_write E tmp st) as Fa. rewrite Hopen in Fa. exact Fa.
Qed.

(** When it returns, the three writes happened in order. *)
Lemma write_and_replace_val (E : Env) tmp sf d st u st1 :
  write_and_replace E tmp sf d st = (Val u, st1) ->
  let sta := set_fs (insert tmp (File (Text EmptyString))) st in
  let stb := set_fs (insert tmp (File (Json d))) sta in
  st1 = set_fs (fun m => <[sf := File (Json d)]> (delete tmp m)) stb.
Proof.
  unfold write_and_replace.
  intros (ua & sta & Hopen & Hrest)%bind_val.
  apply bind_val in Hrest as (ub & stb & Hwrite & Hmove).
  apply open_write_val in Hopen as [-> _].
  apply write_content_val in Hwrite as ->.
  unfold replace_ in Hmove. simpl.
  destruct (move_file_cases E OpReplace tmp sf
              (set_fs (insert tmp (File (Json d)))
                 (set_fs (insert tmp (File (Text EmptyString))) st)) (Json d))
    as [Hok | (e' & Hfail)].
  - simpl. apply lookup_insert_eq.
  - rewrite Hok in Hmove. congruence.
  - rewrite Hfail in Hmove. discriminate.
Qed.

Lemma save_state_unfold (E : Env) st w d :
  state_file (self st) = Some (state_file_of w) ->
  save_state E d st =
  try_except (write_and_replace E (temp_file_of w) (state_file_of w) d)
    (fun _ => st' <- get ;;
              if exists_ (fs st') (temp_file_of w) then unlink E (temp_file_of w) else ret tt)
    st.
Proof.
  intros Hsf. unfold save_state at 1. unfold bind at 1, get at 1.
  rewrite Hsf, with_suffix_state_file. reflexivity.
Qed.

(** C6.  [save_state] writes the document to the temporary file next to the
    state file and renames it over the state file.  Whatever is refused on
    the way, every disk state left behind before the rename holds the
    previous document whole; at the end the state file holds the new document
    whole if the body of the [try] returned (and the state just before the
    rename had it whole in the temporary file), and the previous one whole if
    anything was raised. *)
Theorem save_state_atomic (E : Env) (st : state) (w : path) (d prior : dict) :
  state_file (self st) = Some (state_file_of w) ->
  holds (fs st) (state_file_of w) prior ->
  exists o st' steps,
    save_state E d st = (o, st') /\
    journal st' = steps ++ journal st /\
    Forall (fun m => holds m (state_file_of w) prior) steps /\
    match write_and_replace E (temp_file_of w) (state_file_of w) d st with
    | (Val _, _) =>
        o = Val tt /\ holds (fs st') (state_file_of w) d /\
        exists m rest, steps = m :: rest /\ holds m (temp_file_of w) d
    | (Raise _, _) => holds (fs st') (state_file_of w) prior
    end.
Proof.
  intros Hsf Hprior. rewrite (save_state_unfold E st w d Hsf).
  pose proof (temp_ne_state_file w) as Hne.
  unfold try_except.
  destruct (write_and_replace E (temp_file_of w) (state_file_of w) d st)
    as [[u|e] st1] eqn:Hbody.
  - pose proof (write_and_replace_val E _ _ d st u st1 Hbody) as Hst1.
    simpl in Hst1. subst st1. destruct u.
    exists (Val tt). eexists.
    exists [ <[temp_file_of w := File (Json d)]>
               (<[temp_file_of w := File (Text EmptyString)]> (fs st));
             <[temp_file_of w := File (Text EmptyString)]> (fs st);
             fs st ].
    split; [reflexivity |]. simpl.
    split; [reflexivity |]. split; [|split; [reflexivity | split]].
    + repeat constructor; unfold holds;
        rewrite ?lookup_insert_ne by assumption; exact Hprior.
    + unfold holds. apply lookup_insert_eq.
    + eexists _, _. split; [reflexivity |]. unfold holds. apply lookup_insert_eq.
  - pose proof (write_and_replace_raise E _ _ d st e st1 Hbody) as F1.
    pose proof (touches_cleanup E (temp_file_of w) st1) as F2.
    destruct ((st' <- get;;
               (if exists_ (fs st') (temp_file_of w)
                then unlink E (temp_file_of w) else ret ())) st1) as [o st'].
    simpl in F2. pose proof (frames_trans _ _ _ _ F1 F2) as F.
    destruct (frames_holds _ _ _ _ _ F Hne Hprior) as (Hend & steps & Hj & Hsteps).
    exists o, st', steps. repeat split; assumption.
Qed.

Lemma save_state_atomic_witness :
  exists o st' steps,
    save_state refusing_env new_doc stored = (o, st') /\
    journal st' = steps ++ journal stored /\
    Forall (fun m => holds m (state_file_of ["w"]) old_doc) steps /\
    match write_and_replace refusing_env (temp_file_of ["w"]) (state_file_of ["w"])
            new_doc stored with
    | (Val _, _) =>
        o = Val tt /\ holds (fs st') (state_file_of ["w"]) new_doc /\
        exists m rest, steps = m :: rest /\ holds m (temp_file_of ["w"]) new_doc
    | (Raise _, _) => holds (fs st') (state_file_of ["w"]) old_doc
    end.
Proof.
  apply (save_state_atomic refusing_env stored ["w"] new_doc old_doc); reflexivity.
Defined.

Lemma touches_write_and_replace (E : Env) tmp sf d :
  touches (write_and_replace E tmp sf d) (fun k => k = tmp \/ k = sf).
Proof.
  intros st. destruct (write_and_replace E tmp sf d st) as [[u|e] st1] eqn:Hbody.
  - apply write_and_replace_val in Hbody. simpl in *. subst st1.
    eapply frames_trans; [eapply frames_trans |]; apply frames_set_fs; intros k Hk; simpl;
      repeat first [ rewrite lookup_insert_ne by intuition congruence
                   | rewrite lookup_delete_ne by intuition congruence ];
      reflexivity.
  - apply write_and_replace_raise in Hbody. simpl.
    eapply frames_mono; [|exact Hbody]. simpl. intros k <-. left. reflexivity.
Qed.

(** A save writes the temporary file and the state file and nothing else. *)
Lemma touches_save_state (E : Env) st w d :
  state_file (self st) = Some (state_file_of w) ->
  frames (fun k => k = temp_file_of w \/ k = state_file_of w) st (save_state E d st).2.
Proof.
  intros Hsf. rewrite (save_state_unfold E st w d Hsf).
  apply touches_try_except; [apply touches_write_and_replace |].
  intros _. eapply touches_mono; [|apply touches_cleanup].
  simpl. intros k <-. left. reflexivity.
Qed.

(** When nothing stands in the way, the save goes through. *)
Lemma save_state_ready (E : Env) st w d :
  state_file (self st) = Some (state_file_of w) ->
  store_ready E (fs st) w ->
  exists st', save_state E d st = (Val tt, st') /\
              self st' = self st /\ cwd st' = cwd st /\
              holds (fs st') (state_file_of w) d /\
              store_ready E (fs st') w /\
              frames (fun k => k = temp_file_of w \/ k = state_file_of w) st st'.
Proof.
  intros Hsf (Hsd & Htmp & Hfile & Fopen & Fwrite & Freplace & Fread).
  pose proof (touches_save_state E st w d Hsf) as Hframes.
  rewrite (save_state_unfold E st w d Hsf) in *.
  pose proof (temp_ne_state_file w) as Hne.
  unfold try_except, write_and_replace in *.
  rewrite (bind_run _ _ _ _ _ (open_write_ok E _ st Fopen Htmp
             (eq_ind_r (fun p => fs st !! p = Some Dir) Hsd (parent_temp_file w)))) in *.
  rewrite (bind_run _ _ _ _ _ (write_content_ok E _ (Json d) _ Fwrite)) in *.
  assert (Hmove :
    replace_ E (temp_file_of w) (state_file_of w)
      (set_fs (insert (temp_file_of w) (File (Json d)))
         (set_fs (insert (temp_file_of w) (File (Text EmptyString))) st)) =
    (Val tt,
     set_fs (fun m => <[state_file_of w := File (Json d)]> (delete (temp_file_of w) m))
       (set_fs (insert (temp_file_of w) (File (Json d)))
          (set_fs (insert (temp_file_of w) (File (Text EmptyString))) st)))).
  { apply move_file_ok.
    - exact Freplace.
    - simpl. apply lookup_insert_eq.
    - simpl. rewrite !lookup_insert_ne by assumption. exact Hfile.
    - simpl. rewrite parent_state_file.
      rewrite !lookup_insert_ne by (apply not_eq_sym, state_dir_ne_temp_file). exact Hsd. }
  rewrite Hmove in *. simpl in Hframes.
  eexists. split; [reflexivity |]. simpl.
  split; [reflexivity |]. split; [reflexivity |]. split; [|split; [|exact Hframes]].
  - apply lookup_insert_eq.
  - split; [|split; [|split]].
    + rewrite lookup_insert_ne by (apply not_eq_sym, state_dir_ne_state_file).
      rewrite lookup_delete_ne by (apply not_eq_sym, state_dir_ne_temp_file).
      rewrite !lookup_insert_ne by (apply not_eq_sym, state_dir_ne_temp_file).
      exact Hsd.
    + rewrite lookup_insert_ne by congruence. rewrite lookup_delete_eq. discriminate.
    + rewrite lookup_insert_eq. discriminate.
    + repeat split; assumption.
Qed.

(** ** The state store: loading *)

Lemma load_state_holds (E : Env) st sf d :
  state_file (self st) = Some sf ->
  holds (fs st) sf d ->
  io_fault E OpRead sf = false ->
  load_state E st = (Val d, st).
Proof.
  intros Hsf Hd Hfault.
  cbv beta iota zeta delta [load_state read_json fault try_except bind get ret raise].
  unfold holds in Hd. rewrite Hsf. unfold exists_. rewrite Hd, Hfault.
  rewrite bool_decide_eq_true_2 by eauto. simpl. rewrite Hd. reflexivity.
Qed.

Lemma load_state_absent (E : Env) st sf :
  state_file (self st) = Some sf ->
  fs st !! sf = None ->
  load_state E st = (Val ∅, st).
Proof.
  intros Hsf Hd.
  cbv beta iota zeta delta [load_state read_json fault try_except bind get ret raise].
  rewrite Hsf. unfold exists_. rewrite Hd.
  rewrite bool_decide_eq_false_2 by (intros [? ?]; discriminate). reflexivity.
Qed.

(** [load_state] always returns a document and changes nothing. *)
Lemma load_state_total (E : Env) st : exists d, load_state E st = (Val d, st).
Proof.
  cbv beta iota zeta delta [load_state read_json fault try_except bind get ret raise].
  destruct (state_file (self st)) as [sf|]; [|eauto].
  destruct (negb (exists_ (fs st) sf)); [eauto |].
  destruct (io_fault E OpRead sf); [eauto |].
  destruct (fs st !! sf) as [[|[s|d]]|]; eauto.
Qed.

(** ** Creating directories *)

Lemma touches_mkdir_parents_rev (E : Env) ok rp :
  touches (mkdir_parents_rev E ok rp) (fun k => k `prefix_of` reverse rp).
Proof.
  revert ok. induction rp as [|c rp IH]; intros ok; simpl.
  - apply touches_try_except.
    + eapply touches_mono; [|apply touches_os_mkdir]. simpl. intros k <-. reflexivity.
    + intros e. destruct e; first [apply touches_raise | apply touches_mkdir_exists].
  - apply touches_try_except.
    + eapply touches_mono; [|apply touches_os_mkdir]. simpl. intros k <-. reflexivity.
    + intros e. destruct e; try apply touches_mkdir_exists.
      apply touches_bind.
      * eapply touches_mono; [|apply IH]. simpl. intros k Hk.
        rewrite reverse_cons. etransitivity; [exact Hk |]. apply prefix_app_r. reflexivity.
      * intros _. eapply touches_mono; [|apply touches_mkdir]. simpl. intros k <-. reflexivity.
Qed.

Lemma touches_mkdir_parents (E : Env) ok p :
  touches (mkdir_parents E ok p) (fun k => k `prefix_of` p).
Proof.
  unfold mkdir_parents. eapply touches_mono; [|apply touches_mkdir_parents_rev].
  simpl. intros k Hk. rewrite reverse_involutive in Hk. exact Hk.
Qed.

(** A [mkdir(exist_ok=True)] that returns leaves a directory. *)
Lemma mkdir_val (E : Env) p st u st' :
  mkdir E true p st = (Val u, st') -> fs st' !! p = Some Dir.
Proof.
  unfold mkdir. intros [(a & Hmk & _) | (e & st1 & Hmk & Hh)]%try_except_inv.
  - revert Hmk. cbv beta iota zeta delta [os_mkdir fault bind get ret raise modify].
    destruct (io_fault E OpMkdir p); [discriminate |].
    destruct (fs st !! p) as [n|]; [discriminate |].
    destruct (fs st !! Path.parent p) as [[|c]|]; try discriminate.
    intros H. injection H as _ <-. simpl. apply lookup_insert_eq.
  - assert (Hex : mkdir_exists true p e st1 = (Val u, st')).
    { destruct e; try exact Hh; discriminate Hh. }
    revert Hex. cbv beta iota zeta delta [mkdir_exists bind get ret raise]. simpl.
    unfold is_dir. destruct (fs st1 !! p) as [[|c]|] eqn:Hp; simpl; try discriminate.
    intros H. injection H as _ <-. exact Hp.
Qed.

(** ** Selecting the working directory *)

Lemma modify_val (f : state -> state) st u st' :
  modify f st = (Val u, st') -> st' = f st.
Proof. unfold modify. intros H. injection H as _ <-. reflexivity. Qed.

Lemma ret_val {A} (a b : A) st st' : ret a st = (Val b, st') -> a = b /\ st' = st.
Proof. unfold ret. intros H. injection H as <- <-. split; reflexivity. Qed.

(** The first part of [handle_set_workdir], up to the point where the
    session is assigned: the directory is there or has just been made, or the
    call is refused with nothing changed. *)
Lemma set_workdir_early (E : Env) (create : bool) w st early st1 :
  (if negb (exists_ (fs st) w) then
     if create then mkdir_parents E true w ;;; ret None
     else ret (Some (Err "DIR_NOT_FOUND" None))
   else if negb (is_dir (fs st) w) then ret (Some (Err "NOT_A_DIR" None))
   else ret None) st = (Val early, st1) ->
  (early = None /\ frames (fun k => k `prefix_of` w) st st1) \/
  (exists code, early = Some (Err code None) /\
                (code = "DIR_NOT_FOUND" \/ code = "NOT_A_DIR") /\ st1 = st).
Proof.
  destruct (negb (exists_ (fs st) w)).
  - destruct create.
    + intros (u & st0 & Hmk & [<- ->]%ret_val)%bind_val. left. split; [reflexivity |].
      pose proof (touches_mkdir_parents E true w st) as F. rewrite Hmk in F. exact F.
    + intros [<- ->]%ret_val. right. eauto.
  - destruct (negb (is_dir (fs st) w)).
    + intros [<- ->]%ret_val. right. eauto.
    + intros [<- ->]%ret_val. left. split; [reflexivity | apply frames_refl].
Qed.

(** What a successful [set_workdir] went through: the path resolved to [w];
    up to the save only ancestors of [w], [w] itself and the state directory
    were written, and the state directory is there; then the session was
    assigned, the document loaded, stamped and saved. *)
Lemma set_workdir_ok (E : Env) path_arg create st data st' :
  handle_set_workdir E path_arg create st = (Val (Ok data), st') ->
  exists w st1 doc u,
    expand_resolve E (cwd st) path_arg = Resolved w /\
    frames (fun k => k `prefix_of` w \/ k = state_dir_of w) st st1 /\
    fs st1 !! state_dir_of w = Some Dir /\
    load_state E (set_self (session_at w) st1) = (Val doc, set_self (session_at w) st1) /\
    save_state E (stamped E w (primary_file (self st)) doc) (set_self (session_at w) st1)
      = (Val u, st').
Proof.
  unfold handle_set_workdir.
  intros [(a & Hbody & Ha) | (e & st0 & _ & Hh)]%try_except_inv; [|discriminate Hh].
  injection Ha as <-. unfold bind at 1, get at 1 in Hbody.
  destruct (expand_resolve E (cwd st) path_arg) as [w|e] eqn:Hres; [|discriminate Hbody].
  apply bind_val in Hbody as (early & st1 & Hearly & Hrest).
  apply set_workdir_early in Hearly as [[-> F1] | (code & -> & _ & ->)];
    [|apply ret_val in Hrest as [Hrest _]; discriminate Hrest].
  apply bind_val in Hrest as (u1 & st2 & ->%modify_val & Hrest).
  apply bind_val in Hrest as (u2 & st3 & ->%modify_val & Hrest).
  apply bind_val in Hrest as (u3 & st4 & Hmk & Hrest).
  apply bind_val in Hrest as (u4 & st5 & ->%modify_val & Hrest).
  apply bind_val in Hrest as (doc & st6 & Hload & Hrest).
  apply bind_val in Hrest as (st7 & st8 & Hget & Hrest).
  apply bind_val in Hrest as (u & st9 & Hsave & [_ ->]%ret_val).
  unfold get in Hget. injection Hget as <- <-.
  destruct (load_state_total E (set_self (fun s : PilotRServer =>
              {| state_dir := state_dir s; state_file := Some (Path.joinpath (Path.joinpath w ".pilotr") "state.json");
                 workdir := workdir s; primary_file := primary_file s |}) st4)) as (doc' & Hload').
  rewrite Hload' in Hload. injection Hload as -> <-.
  pose proof (touches_mkdir E true (Path.joinpath w ".pilotr")) as F2.
  specialize (F2 (set_self (fun s : PilotRServer =>
              {| state_dir := Some (Path.joinpath w ".pilotr"); state_file := state_file s;
                 workdir := workdir s; primary_file := primary_file s |})
            (set_self (fun s : PilotRServer =>
              {| state_dir := state_dir s; state_file := state_file s;
                 workdir := Some w; primary_file := primary_file s |}) st1))).
  rewrite Hmk in F2. simpl in F2.
  pose proof (mkdir_val E _ _ _ _ Hmk) as Hdir.
  destruct F1 as (Hs1 & Hc1 & steps1 & Hj1 & H1).
  destruct F2 as (Hs4 & Hc4 & steps4 & Hj4 & H4). simpl in *.
  assert (Hst : set_self (fun s : PilotRServer =>
              {| state_dir := state_dir s; state_file := Some (Path.joinpath (Path.joinpath w ".pilotr") "state.json");
                 workdir := workdir s; primary_file := primary_file s |}) st4
            = set_self (session_at w)
                {| self := self st; fs := fs st4; cwd := cwd st4; journal := journal st4 |}).
  { unfold set_self, session_at. rewrite Hs4. simpl. rewrite Hs1. reflexivity. }
  rewrite Hst in *.
  exists w, {| self := self st; fs := fs st4; cwd := cwd st4; journal := journal st4 |}, doc, u.
  split; [reflexivity |]. split; [|split; [exact Hdir | split]].
  - split; [reflexivity |]. split; [simpl; congruence |].
    exists (steps4 ++ steps1). simpl.
    split; [rewrite Hj4, Hj1, app_assoc; reflexivity |].
    intros k Hk. destruct (H1 k) as [E1 F1]; [tauto |].
    destruct (H4 k) as [E4 F4]; [unfold state_dir_of in Hk; intros <-; tauto |].
    split; [congruence |]. apply Forall_app. split; [|assumption].
    eapply Forall_impl; [exact F4 |]. simpl. intros m Hm. congruence.
  - exact Hload'.
  - rewrite Hs4 in Hsave. simpl in Hsave. rewrite Hs1 in Hsave. exact Hsave.
Qed.

Lemma set_workdir_total (E : Env) path_arg create st :
  exists r st', handle_set_workdir E path_arg create st = (Val r, st').
Proof.
  unfold handle_set_workdir, try_except.
  match goal with |- context [match ?b st with _ => _ end] => destruct (b st) as [[r|e] st'] end;
    unfold ret; eauto.
Qed.

(** A refusal with [DIR_NOT_FOUND] or [NOT_A_DIR] comes before anything is
    assigned or written. *)
Lemma set_workdir_refused (E : Env) path_arg create st code details st' :
  handle_set_workdir E path_arg create st = (Val (Err code details), st') ->
  code = "DIR_NOT_FOUND" \/ code = "NOT_A_DIR" ->
  st' = st.
Proof.
  unfold handle_set_workdir.
  intros [(a & Hbody & Ha) | (e & st0 & _ & Hh)]%try_except_inv Hcode.
  - injection Ha as <-. unfold bind at 1, get at 1 in Hbody.
    destruct (expand_resolve E (cwd st) path_arg) as [w|e]; [|discriminate Hbody].
    apply bind_val in Hbody as (early & st1 & Hearly & Hrest).
    apply set_workdir_early in Hearly as [[-> F1] | (code' & -> & _ & ->)].
    + repeat (apply bind_val in Hrest as (? & ? & _ & Hrest)).
      apply ret_val in Hrest as [Hrest _]. discriminate Hrest.
    + apply ret_val in Hrest as [_ ->]. reflexivity.
  - apply ret_val in Hh as [Hh _]. injection Hh as <- _.
    destruct Hcode as [Hcode | Hcode]; discriminate Hcode.
Qed.

Lemma set_workdir_ok_self (E : Env) path_arg create st data st' :
  handle_set_workdir E path_arg create st = (Val (Ok data), st') ->
  exists w, expand_resolve E (cwd st) path_arg = Resolved w /\
            self st' = session_at w (self st).
Proof.
  intros (w & st1 & doc & u & Hres & F & _ & _ & Hsave)%set_workdir_ok.
  exists w. split; [assumption |].
  pose proof (touches_save_state E (set_self (session_at w) st1) w
                (stamped E w (primary_file (self st)) doc) eq_refl) as Fs.
  rewrite Hsave in Fs. destruct Fs as (Hs' & _). destruct F as (Hs & _).
  simpl in Hs'. rewrite Hs', Hs. reflexivity.
Qed.

(** C2, as the code has it.  [set_workdir] always answers.  When it answers
    [ok: true] the root, the state directory and the state file of the
    session are those of the resolved path, all three, and the primary file is
    the one the session had.  When it answers [DIR_NOT_FOUND] or [NOT_A_DIR]
    nothing at all has changed. *)
Theorem set_workdir_all_or_nothing (E : Env) (path_arg : string) (create : bool) (st : state) :
  exists r st',
    handle_set_workdir E path_arg create st = (Val r, st') /\
    match r with
    | Ok _ =>
        exists w, expand_resolve E (cwd st) path_arg = Resolved w /\
                  self st' = session_at w (self st)
    | Err code _ =>
        code = "DIR_NOT_FOUND" \/ code = "NOT_A_DIR" -> st' = st
    end.
Proof.
  destruct (set_workdir_total E path_arg create st) as (r & st' & H).
  exists r, st'. split; [assumption |]. destruct r as [data | code details].
  - eapply set_workdir_ok_self, H.
  - eapply set_workdir_refused, H.
Qed.

Lemma set_workdir_all_or_nothing_witness :
  handle_set_workdir quiet_env "/missing" false fresh =
    (Val (Err "DIR_NOT_FOUND" None), fresh) /\
  (call_tool quiet_env (SetWorkdir "/missing" false) fresh).2 = fresh.
Proof.
  destruct (set_workdir_all_or_nothing quiet_env "/missing" false fresh) as (r & st' & H & Hr).
  assert (Hrun : handle_set_workdir quiet_env "/missing" false fresh =
                 (Val (Err "DIR_NOT_FOUND" None), (call_tool quiet_env (SetWorkdir "/missing" false) fresh).2))
    by (vm_compute; reflexivity).
  rewrite Hrun in H. injection H as <- <-.
  rewrite (Hr (or_introl eq_refl)) in Hrun. rewrite (Hr (or_introl eq_refl)).
  split; [exact Hrun | reflexivity].
Defined.

(** C2, as the specification states it, fails: when the state directory
    cannot be made, the call answers [SET_DIR_ERROR] with the root and the
    state directory of the session already replaced. *)
Lemma set_workdir_not_atomic : ~ set_workdir_atomic quiet_env "/w" true blocked.
Proof.
  unfold set_workdir_atomic. intros H. vm_compute in H.
  destruct H as [[H _] | (_ & H & _)]; discriminate H.
Qed.

Lemma prefix_longer (w rest : path) : rest <> [] -> ~ (w ++ rest) `prefix_of` w.
Proof.
  intros Hne Hp. apply prefix_length in Hp. rewrite length_app in Hp.
  destruct rest; [congruence | simpl in Hp; lia].
Qed.

(** C5, as the code has it.  A successful [set_workdir] leaves the primary
    file of the session as it was (so it is [agent.R] only if no other file
    was selected before); and when nothing stands in the way of the save, the
    state file then holds a document that records the new root, that primary
    file and the time of the call. *)
Theorem set_workdir_keeps_primary (E : Env) path_arg create st data st' :
  handle_set_workdir E path_arg create st = (Val (Ok data), st') ->
  exists w,
    expand_resolve E (cwd st) path_arg = Resolved w /\
    workdir (self st') = Some w /\
    primary_file (self st') = primary_file (self st) /\
    (store_clear E (fs st) w ->
     exists doc,
       holds (fs st') (state_file_of w) doc /\
       doc !! "workdir" = Some (VStr (Path.str w)) /\
       doc !! "primary_file" = Some (VStr (primary_file (self st))) /\
       doc !! "updated_at" = Some (VStr (now E))).
Proof.
  intros H. destruct (set_workdir_ok_self E _ _ _ _ _ H) as (w & Hres & Hself).
  apply set_workdir_ok in H as (w' & st1 & doc & u & Hres' & F & Hdir & _ & Hsave).
  rewrite Hres in Hres'. injection Hres' as <-.
  exists w. split; [assumption |]. rewrite Hself. split; [reflexivity |].
  split; [reflexivity |].
  intros (Htmp & Hfile & Hfaults).
  assert (Hready : store_ready E (fs (set_self (session_at w) st1)) w).
  { split; [exact Hdir |]. simpl.
    assert (Hk : forall k, k = temp_file_of w \/ k = state_file_of w ->
                   fs st1 !! k = fs st !! k).
    { intros k Hk. apply (frames_lookup _ _ _ _ F).
      intros [Hp | Hp].
      - destruct Hk as [-> | ->]; [|rewrite state_file_of_eq in Hp];
          apply prefix_longer in Hp; [assumption | discriminate | assumption | discriminate].
      - destruct Hk as [-> | ->];
          [apply (state_dir_ne_temp_file w) | apply (state_dir_ne_state_file w)];
          symmetry; exact Hp. }
    unfold store_clear.
    rewrite (Hk (temp_file_of w)), (Hk (state_file_of w)) by auto.
    repeat split; tauto. }
  destruct (save_state_ready E (set_self (session_at w) st1) w
              (stamped E w (primary_file (self st)) doc) eq_refl Hready)
    as (st'' & Hsave' & _ & _ & Hholds & _).
  rewrite Hsave in Hsave'. injection Hsave' as _ <-.
  eexists. split; [exact Hholds |]. unfold stamped.
  split; [|split]; map_get; reflexivity.
Qed.

Lemma set_workdir_keeps_primary_witness :
  exists w,
    expand_resolve quiet_env (cwd after_select) "/b" = Resolved w /\
    workdir (self (handle_set_workdir quiet_env "/b" true after_select).2) = Some w /\
    primary_file (self (handle_set_workdir quiet_env "/b" true after_select).2) = "analysis.R" /\
    (store_clear quiet_env (fs after_select) w ->
     exists doc,
       holds (fs (handle_set_workdir quiet_env "/b" true after_select).2) (state_file_of w) doc /\
       doc !! "workdir" = Some (VStr (Path.str w)) /\
       doc !! "primary_file" = Some (VStr "analysis.R") /\
       doc !! "updated_at" = Some (VStr (now quiet_env))).
Proof.
  apply (set_workdir_keeps_primary quiet_env "/b" true after_select
           (payload (handle_set_workdir quiet_env "/b" true after_select).1)
           (handle_set_workdir quiet_env "/b" true after_select).2).
  vm_compute. reflexivity.
Defined.

(** C5, as the specification states it, fails: a server that has made
    [analysis.R] its primary file and then selects another directory keeps
    [analysis.R] as its primary file. *)
Lemma set_workdir_does_not_reset_primary :
  ~ resets_primary quiet_env "/b" true after_select.
Proof.
  unfold resets_primary. intros H.
  assert (Hok : is_ok (call_tool quiet_env (SetWorkdir "/b" true) after_select).1 = true)
    by (vm_compute; reflexivity).
  specialize (H Hok). vm_compute in H. discriminate H.
Qed.

(** ** Registration of file names *)

Lemma touches_write_text (E : Env) p s : touches (write_text E p s) (eq p).
Proof.
  apply touches_bind; [apply touches_open_write | intros _; apply touches_write_content].
Qed.

Lemma occurrences_app (name : string) (l1 l2 : list value) :
  occurrences name (l1 ++ l2) = (occurrences name l1 + occurrences name l2)%nat.
Proof. unfold occurrences. rewrite filter_app, length_app. reflexivity. Qed.

Lemma occurrences_existsb (name : string) (l : list value) :
  existsb (is_str name) l = negb (Nat.eqb (occurrences name l) 0).
Proof.
  unfold occurrences. induction l as [|v l IH]; [reflexivity |].
  simpl. destruct (is_str name v) eqn:Hv.
  - rewrite filter_cons_True by assumption. reflexivity.
  - rewrite filter_cons_False by congruence. exact IH.
Qed.

(** What [register] returns: the document with a list of files in which the
    name occurs, added at the end if it was not there. *)
Lemma register_val (name : string) (doc doc' : dict) st st' :
  files_listed doc ->
  register name doc st = (Val doc', st') ->
  st' = st /\
  files_listed doc' /\
  tracked doc' = (if existsb (is_str name) (tracked doc) then tracked doc
                  else tracked doc ++ [VStr name]) /\
  forall k, k <> "files" -> doc' !! k = doc !! k.
Proof.
  unfold register, files_listed, tracked.
  intros [Hnone | (l & Hl)].
  - rewrite Hnone, lookup_insert_eq. simpl. unfold bind, py_append, ret. simpl.
    intros H. injection H as <- <-. split; [reflexivity |].
    rewrite insert_insert_eq, lookup_insert_eq. split; [eauto |]. split; [reflexivity |].
    intros k Hk. rewrite lookup_insert_ne by congruence. reflexivity.
  - rewrite Hl, Hl. simpl. unfold bind, py_in, py_append, ret. simpl.
    destruct (existsb (is_str name) l).
    + intros H. injection H as <- <-. rewrite Hl. split; [reflexivity |].
      split; [eauto |]. split; reflexivity.
    + intros H. injection H as <- <-. rewrite lookup_insert_eq. split; [reflexivity |].
      split; [eauto |]. split; [reflexivity |].
      intros k Hk. rewrite lookup_insert_ne by congruence. reflexivity.
Qed.

Lemma tracked_stamp (doc : dict) (v : value) :
  tracked (<["updated_at" := v]> doc) = tracked doc.
Proof. unfold tracked. rewrite lookup_insert_ne by discriminate. reflexivity. Qed.

Lemma files_listed_stamp (doc : dict) (v : value) :
  files_listed doc -> files_listed (<["updated_at" := v]> doc).
Proof. unfold files_listed. rewrite lookup_insert_ne by discriminate. tauto. Qed.

(** A write to a path other than those of the state store leaves the store
    ready and the document in place. *)
Lemma frames_store (E : Env) (K : path -> Prop) st st' w doc :
  frames K st st' ->
  ~ K (state_dir_of w) -> ~ K (state_file_of w) -> ~ K (temp_file_of w) ->
  store_ready E (fs st) w -> holds (fs st) (state_file_of w) doc ->
  store_ready E (fs st') w /\ holds (fs st') (state_file_of w) doc.
Proof.
  intros F Hsd Hsf Htmp (Hd & Ht & Hf & Hfaults) Hdoc.
  unfold store_ready, store_clear, holds.
  rewrite (frames_lookup _ _ _ _ F Hsd), (frames_lookup _ _ _ _ F Hsf),
    (frames_lookup _ _ _ _ F Htmp).
  repeat split; tauto.
Qed.

(** The body both handlers share: write the file, load the document,
    register the name, stamp and save. *)
Lemma write_and_register (E : Env) st w doc fp content name (res : result) r st1 :
  state_file (self st) = Some (state_file_of w) ->
  holds (fs st) (state_file_of w) doc ->
  files_listed doc ->
  store_ready E (fs st) w ->
  fp <> state_dir_of w -> fp <> state_file_of w -> fp <> temp_file_of w ->
  (write_text E fp content ;;;
   d <- load_state E ;;
   d <- register name d ;;
   save_state E (<["updated_at" := VStr (now E)]> d) ;;;
   ret res) st = (Val r, st1) ->
  exists doc1,
    r = res /\ self st1 = self st /\
    holds (fs st1) (state_file_of w) doc1 /\
    files_listed doc1 /\
    store_ready E (fs st1) w /\
    tracked doc1 = (if existsb (is_str name) (tracked doc) then tracked doc
                    else tracked doc ++ [VStr name]).
Proof.
  intros Hsf Hdoc Hlisted Hready Hsd Hfile Htmp Hrun.
  apply bind_val in Hrun as (u & sta & Hwrite & Hrun).
  pose proof (touches_write_text E fp content st) as Fa. rewrite Hwrite in Fa. simpl in Fa.
  destruct (frames_store E _ _ _ w doc Fa) as [Hready_a Hdoc_a]; try congruence; try assumption.
  assert (Hsf_a : state_file (self sta) = Some (state_file_of w)).
  { destruct Fa as (-> & _). exact Hsf. }
  apply bind_val in Hrun as (d & stb & Hload & Hrun).
  rewrite (load_state_holds E sta _ doc Hsf_a Hdoc_a) in Hload
    by (destruct Hready as (_ & _ & _ & _ & _ & _ & H); exact H).
  injection Hload as <- <-.
  apply bind_val in Hrun as (d' & stc & Hreg & Hrun).
  apply register_val in Hreg as (-> & Hlisted' & Htracked & _); [|assumption].
  apply bind_val in Hrun as (u' & std & Hsave & [<- ->]%ret_val).
  destruct (save_state_ready E sta w (<["updated_at" := VStr (now E)]> d') Hsf_a Hready_a)
    as (st'' & Hsave' & Hself & _ & Hholds & Hready' & _).
  rewrite Hsave in Hsave'. injection Hsave' as _ <-.
  eexists. split; [reflexivity |]. split; [|split; [exact Hholds | split; [|split]]].
  - rewrite Hself. destruct Fa as (-> & _). reflexivity.
  - apply files_listed_stamp, Hlisted'.
  - exact Hready'.
  - rewrite tracked_stamp. exact Htracked.
Qed.

Lemma in_workdir_val (st : state) w name :
  workdir (self st) = Some w ->
  in_workdir name st = (Val (Path.joinpath w name), st).
Proof. unfold in_workdir, bind, get, ret. intros ->. reflexivity. Qed.

Lemma or_primary_val (st : state) (f : option string) :
  or_primary f st =
  (Val match f with
       | Some f' => if nonempty f' then f' else primary_file (self st)
       | None => primary_file (self st)
       end, st).
Proof.
  unfold or_primary, bind, get, ret. destruct f as [f'|]; [|reflexivity].
  destruct (nonempty f'); reflexivity.
Qed.

(** One successful call of [create_R_file] or [write_R_code]: the state file
    then holds a document whose file list has the name, added at the end if
    it was not there before. *)
Lemma register_call (E : Env) st w doc r name res st1 :
  workdir (self st) = Some w ->
  state_file (self st) = Some (state_file_of w) ->
  holds (fs st) (state_file_of w) doc ->
  files_listed doc ->
  store_ready E (fs st) w ->
  registers st r = Some name ->
  call_tool E r st = (res, st1) ->
  is_ok res = true ->
  exists doc1,
    self st1 = self st /\
    holds (fs st1) (state_file_of w) doc1 /\
    files_listed doc1 /\
    store_ready E (fs st1) w /\
    tracked doc1 = (if existsb (is_str name) (tracked doc) then tracked doc
                    else tracked doc ++ [VStr name]).
Proof.
  intros Hw Hsf Hdoc Hlisted Hready Hreg Hcall Hok.
  unfold call_tool in Hcall.
  destruct (handler E r st) as [[r'|e] st'] eqn:Hh;
    injection Hcall as <- <-; [|discriminate Hok].
  destruct r; try discriminate Hreg; simpl in Hreg, Hh; injection Hreg as <-.
  - (* create_R_file *)
    unfold handle_create_R_file in Hh.
    destruct (exists_ (fs st) w) eqn:Hex.
    2:{ rewrite (bind_run _ _ _ _ _ (ensure_workdir_set_missing st w Hw Hex)) in Hh.
        apply ret_val in Hh as [<- _]. discriminate Hok. }
    rewrite (bind_run _ _ _ _ _ (ensure_workdir_set_present st w Hw Hex)) in Hh.
    simpl in Hh.
    rewrite (bind_run _ _ _ _ _ (in_workdir_val st w _ Hw)) in Hh.
    unfold bind at 1, get at 1 in Hh.
    destruct (negb (is_safe_path E (self st) _));
      [apply ret_val in Hh as [<- _]; discriminate Hok |].
    destruct (exists_ (fs st) _ && negb overwrite);
      [apply ret_val in Hh as [<- _]; discriminate Hok |].
    apply try_except_inv in Hh as [(a & Hbody & Ha) | (e & st0 & _ & Hh)];
      [|apply ret_val in Hh as [<- _]; discriminate Hok].
    injection Ha as <-.
    pose proof (R_path_ne_store w w _ (ensure_R_extension_R filename)) as (N1 & N2 & N3).
    destruct (write_and_register E st w doc _ _ _ _ _ _ Hsf Hdoc Hlisted Hready N1 N2 N3 Hbody)
      as (doc1 & _ & H1 & H2 & H3 & H4 & H5).
    exists doc1. exact (conj H1 (conj H2 (conj H3 (conj H4 H5)))).
  - (* write_R_code *)
    unfold handle_write_R_code in Hh.
    destruct (exists_ (fs st) w) eqn:Hex.
    2:{ rewrite (bind_run _ _ _ _ _ (ensure_workdir_set_missing st w Hw Hex)) in Hh.
        apply ret_val in Hh as [<- _]. discriminate Hok. }
    rewrite (bind_run _ _ _ _ _ (ensure_workdir_set_present st w Hw Hex)) in Hh.
    simpl in Hh.
    rewrite (bind_run _ _ _ _ _ (or_primary_val st filename)) in Hh.
    rewrite (bind_run _ _ _ _ _ (in_workdir_val st w _ Hw)) in Hh.
    unfold bind at 1, get at 1 in Hh.
    destruct (negb (is_safe_path E (self st) _));
      [apply ret_val in Hh as [<- _]; discriminate Hok |].
    destruct (exists_ (fs st) _ && negb overwrite);
      [apply ret_val in Hh as [<- _]; discriminate Hok |].
    apply try_except_inv in Hh as [(a & Hbody & Ha) | (e & st0 & _ & Hh)];
      [|apply ret_val in Hh as [<- _]; discriminate Hok].
    injection Ha as <-.
    pose proof (R_path_ne_store w w _
                  (ensure_R_extension_R
                     match filename with
                     | Some f' => if nonempty f' then f' else primary_file (self st)
                     | None => primary_file (self st)
                     end)) as (N1 & N2 & N3).
    destruct (write_and_register E st w doc _ _ _ _ _ _ Hsf Hdoc Hlisted Hready N1 N2 N3 Hbody)
      as (doc1 & _ & H1 & H2 & H3 & H4 & H5).
    exists doc1. exact (conj H1 (conj H2 (conj H3 (conj H4 H5)))).
Qed.

Lemma occurrences_registered (name : string) (l : list value) :
  occurrences name
    (if existsb (is_str name) l then l else l ++ [VStr name]) =
  Nat.max 1 (occurrences name l).
Proof.
  rewrite occurrences_existsb.
  destruct (Nat.eqb_spec (occurrences name l) 0) as [H0 | Hpos]; simpl.
  - rewrite occurrences_app, H0. unfold occurrences.
    rewrite filter_cons_True by (simpl; apply String.eqb_refl). reflexivity.
  - lia.
Qed.

(** C9.  Two successful calls of [create_R_file] or [write_R_code] for one
    file name, in either combination, when nothing stands in the way of the
    saves: after the first call the tracked list of the state file has the
    name as often as before, or once if it was not there; the second call
    leaves the list as the first left it.  So the name is there exactly once,
    unless it was already there more than once. *)
Theorem registration_idempotent (E1 E2 : Env) st w doc r1 r2 name res1 st1 res2 st2 :
  workdir (self st) = Some w ->
  state_file (self st) = Some (state_file_of w) ->
  holds (fs st) (state_file_of w) doc ->
  files_listed doc ->
  store_ready E1 (fs st) w ->
  store_ready E2 (fs st) w ->
  registers st r1 = Some name ->
  registers st r2 = Some name ->
  call_tool E1 r1 st = (res1, st1) -> is_ok res1 = true ->
  call_tool E2 r2 st1 = (res2, st2) -> is_ok res2 = true ->
  exists doc1 doc2,
    holds (fs st1) (state_file_of w) doc1 /\
    holds (fs st2) (state_file_of w) doc2 /\
    occurrences name (tracked doc1) = Nat.max 1 (occurrences name (tracked doc)) /\
    tracked doc2 = tracked doc1 /\
    ((occurrences name (tracked doc) <= 1)%nat -> occurrences name (tracked doc2) = 1%nat).
Proof.
  intros Hw Hsf Hdoc Hlisted Hready1 Hready2 Hreg1 Hreg2 Hcall1 Hok1 Hcall2 Hok2.
  destruct (register_call E1 st w doc r1 name res1 st1) as (doc1 & Hs1 & Hd1 & Hl1 & Hr1 & Ht1);
    try assumption.
  assert (Hready2' : store_ready E2 (fs st1) w).
  { destruct Hr1 as (? & ? & ? & _). destruct Hready2 as (_ & _ & _ & ?).
    repeat split; tauto. }
  assert (Hreg2' : registers st1 r2 = Some name).
  { rewrite <- Hreg2. unfold registers. rewrite Hs1. reflexivity. }
  destruct (register_call E2 st1 w doc1 r2 name res2 st2) as (doc2 & Hs2 & Hd2 & Hl2 & Hr2 & Ht2);
    try assumption; try (rewrite Hs1; assumption).
  assert (Hocc : occurrences name (tracked doc1) = Nat.max 1 (occurrences name (tracked doc))).
  { rewrite Ht1. apply occurrences_registered. }
  assert (Hsame : tracked doc2 = tracked doc1).
  { rewrite Ht2, occurrences_existsb, Hocc.
    destruct (Nat.eqb_spec (Nat.max 1 (occurrences name (tracked doc))) 0); [lia | reflexivity]. }
  exists doc1, doc2. split; [assumption |]. split; [assumption |].
  split; [assumption |]. split; [assumption |].
  intros Hle. rewrite Hsame, Hocc. lia.
Qed.

Lemma registration_idempotent_witness :
  exists doc1 doc2,
    holds (fs (call_tool quiet_env (CreateRFile "plot" false true) stored).2)
      (state_file_of ["w"]) doc1 /\
    holds (fs (call_tool quiet_env (WriteRCode "plot(x)" (Some "plot.R") true true)
                 (call_tool quiet_env (CreateRFile "plot" false true) stored).2).2)
      (state_file_of ["w"]) doc2 /\
    occurrences "plot.R" (tracked doc1) = Nat.max 1 (occurrences "plot.R" (tracked old_doc)) /\
    tracked doc2 = tracked doc1 /\
    ((occurrences "plot.R" (tracked old_doc) <= 1)%nat ->
     occurrences "plot.R" (tracked doc2) = 1%nat).
Proof.
  refine (registration_idempotent quiet_env quiet_env stored ["w"] old_doc
            (CreateRFile "plot" false true)
            (WriteRCode "plot(x)" (Some "plot.R") true true) "plot.R"
            (call_tool quiet_env (CreateRFile "plot" false true) stored).1
            (call_tool quiet_env (CreateRFile "plot" false true) stored).2
            (call_tool quiet_env (WriteRCode "plot(x)" (Some "plot.R") true true)
               (call_tool quiet_env (CreateRFile "plot" false true) stored).2).1
            (call_tool quiet_env (WriteRCode "plot(x)" (Some "plot.R") true true)
               (call_tool quiet_env (CreateRFile "plot" false true) stored).2).2
            eq_refl eq_refl _ _ _ _ eq_refl eq_refl _ _ _ _).
  - vm_compute. reflexivity.
  - right. exists [VStr "agent.R"]. vm_compute. reflexivity.
  - repeat split; vm_compute; congruence.
  - repeat split; vm_compute; congruence.
  - apply surjective_pairing.
  - vm_compute. reflexivity.
  - apply surjective_pairing.
  - vm_compute. reflexivity.
Defined.

(** What a rename with [overwrite] onto a tracked name leaves in the list:
    the name twice. *)
Example renamed_over_tracks_twice :
  tracked_on_disk renamed_over = [VStr "b.R"; VStr "b.R"].
Proof. vm_compute. reflexivity. Qed.

(** C9, as the specification states it, fails: a rename with [overwrite]
    onto a tracked name appends that name a second time, and creating and
    then writing the file, both with success, leave it in the list twice. *)
Lemma registration_leaves_duplicates :
  ~ registers_once quiet_env (CreateRFile "b" true true)
      (WriteRCode "plot(x)" (Some "b") true true) renamed_over.
Proof.
  unfold registers_once. intros H.
  specialize (H "b.R" eq_refl eq_refl).
  assert (Hok1 : is_ok (call_tool quiet_env (CreateRFile "b" true true) renamed_over).1 = true)
    by (vm_compute; reflexivity).
  assert (Hok2 : is_ok (call_tool quiet_env (WriteRCode "plot(x)" (Some "b") true true)
                          (call_tool quiet_env (CreateRFile "b" true true) renamed_over).2).1
                 = true)
    by (vm_compute; reflexivity).
  assert (Hocc : occurrences "b.R"
                   (tracked_on_disk
                      (call_tool quiet_env (WriteRCode "plot(x)" (Some "b") true true)
                         (call_tool quiet_env (CreateRFile "b" true true) renamed_over).2).2)
                 = 2%nat)
    by (vm_compute; reflexivity).
  destruct (call_tool quiet_env (CreateRFile "b" true true) renamed_over) as [res1 st1].
  simpl in Hok1, Hok2, Hocc.
  destruct (call_tool quiet_env (WriteRCode "plot(x)" (Some "b") true true) st1) as [res2 st2].
  simpl in Hok2, Hocc.
  rewrite (H Hok1 Hok2) in Hocc. discriminate Hocc.
Qed.

(** ** Renaming *)

Lemma unlink_cases (E : Env) p st o st' :
  unlink E p st = (o, st') -> st' = st \/ st' = set_fs (delete p) st.
Proof.
  cbv beta iota zeta delta [unlink fault bind get ret raise modify].
  destruct (io_fault E OpUnlink p); [intros H; injection H as _ <-; auto |].
  destruct (fs st !! p) as [[|c]|]; intros H; injection H as _ <-; auto.
Qed.

Lemma touches_move_file (E : Env) op src dst st :
  fs st !! src <> Some Dir ->
  frames (fun k => k = src \/ k = dst) st (move E op src dst st).2.
Proof.
  intros Hsrc. destruct (fs st !! src) as [[|c]|] eqn:Hs; [congruence | |].
  - destruct (move_file_cases E op src dst st c Hs) as [-> | (e & ->)]; simpl.
    + apply frames_set_fs. intros k Hk.
      rewrite lookup_insert_ne, lookup_delete_ne by intuition congruence. reflexivity.
    + apply frames_refl.
  - cbv beta iota zeta delta [move fault bind get ret raise modify].
    destruct (io_fault E op src); [apply frames_refl |]. rewrite Hs. apply frames_refl.
Qed.

(** What the state update of a rename returns. *)
Lemma rename_in_state_val (old_name new_name : string) (doc doc' : dict) st st' :
  rename_in_state old_name new_name doc st = (Val doc', st') ->
  fs st' = fs st /\ journal st' = journal st /\
  state_file (self st') = state_file (self st) /\
  tracked doc' = renamed old_name new_name (tracked doc) /\
  (doc !! "primary_file" = Some (VStr old_name) ->
   primary_file (self st') = new_name /\ doc' !! "primary_file" = Some (VStr new_name)) /\
  (doc !! "primary_file" <> Some (VStr old_name) ->
   primary_file (self st') = primary_file (self st) /\
   doc' !! "primary_file" = doc !! "primary_file").
Proof.
  unfold rename_in_state.
  intros (doc1 & st1 & Hfiles & Hprim)%bind_val.
  assert (H1 : st1 = st /\ tracked doc1 = renamed old_name new_name (tracked doc) /\
               doc1 !! "primary_file" = doc !! "primary_file").
  { unfold tracked, renamed.
    destruct (doc !! "files") as [files|] eqn:Hf.
    - apply bind_val in Hfiles as (present & st0 & Hin & Hfiles).
      destruct files as [| | | s | l | d]; simpl in Hin; try discriminate Hin;
        apply ret_val in Hin as [<- ->].
      + destruct (Str.contains s old_name).
        * apply bind_val in Hfiles as (? & ? & Hrm & _). discriminate Hrm.
        * apply ret_val in Hfiles as [<- ->]. rewrite Hf. auto.
      + destruct (existsb (is_str old_name) l) eqn:Hex.
        * apply bind_val in Hfiles as (files1 & sta & Hrm & Hfiles).
          simpl in Hrm. rewrite Hex in Hrm. apply ret_val in Hrm as [<- ->].
          apply bind_val in Hfiles as (files2 & stb & Happ & Hfiles).
          simpl in Happ. apply ret_val in Happ as [<- ->].
          apply ret_val in Hfiles as [<- ->].
          rewrite lookup_insert_eq, lookup_insert_ne by discriminate. auto.
        * apply ret_val in Hfiles as [<- ->]. rewrite Hf. auto.
      + destruct (bool_decide (is_Some (d !! old_name))).
        * apply bind_val in Hfiles as (? & ? & Hrm & _). discriminate Hrm.
        * apply ret_val in Hfiles as [<- ->]. rewrite Hf. auto.
    - apply ret_val in Hfiles as [<- ->]. rewrite Hf. auto. }
  destruct H1 as (-> & Htracked & Hp1).
  rewrite Hp1 in Hprim.
  assert (Hkeep : ret doc1 st = (Val doc', st') ->
                  doc !! "primary_file" <> Some (VStr old_name) ->
                  fs st' = fs st /\ journal st' = journal st /\
                  state_file (self st') = state_file (self st) /\
                  tracked doc' = renamed old_name new_name (tracked doc) /\
                  (doc !! "primary_file" = Some (VStr old_name) ->
                   primary_file (self st') = new_name /\
                   doc' !! "primary_file" = Some (VStr new_name)) /\
                  (doc !! "primary_file" <> Some (VStr old_name) ->
                   primary_file (self st') = primary_file (self st) /\
                   doc' !! "primary_file" = doc !! "primary_file")).
  { intros [<- ->]%ret_val Hne.
    split; [reflexivity |]. split; [reflexivity |]. split; [reflexivity |].
    split; [exact Htracked |]. split; [intros Heq; contradiction |].
    intros _. split; [reflexivity | exact Hp1]. }
  destruct (doc !! "primary_file") as [v|] eqn:Hp; [|apply Hkeep; [exact Hprim | discriminate]].
  destruct v as [| | | p | |]; try (apply Hkeep; [exact Hprim | discriminate]).
  destruct (String.eqb_spec p old_name) as [-> | Hne].
  - apply bind_val in Hprim as (u & stc & ->%modify_val & [<- ->]%ret_val). simpl.
    split; [reflexivity |]. split; [reflexivity |]. split; [reflexivity |].
    split; [|split].
    + unfold tracked. rewrite lookup_insert_ne by discriminate. exact Htracked.
    + intros _. split; [reflexivity | apply lookup_insert_eq].
    + intros Hne. contradiction.
  - apply Hkeep; [exact Hprim | congruence].
Qed.

(** C7, as the code has it.  A successful rename of a regular file, when
    nothing stands in the way of the save.  The state file then holds a
    document whose tracked list is the old one with the first occurrence of
    the old name removed and the new name added at the end if the old name
    was tracked, and the old list unchanged if it was not.  The primary file
    follows the document: if the document named the old file as primary (as
    it does when it is in step with the session and the primary file is the
    one renamed), the session and the document now name the new one;
    otherwise the primary file of the session is unchanged. *)
Theorem rename_updates_state (E : Env) st w doc old_name new_name overwrite data st' :
  workdir (self st) = Some w ->
  state_file (self st) = Some (state_file_of w) ->
  holds (fs st) (state_file_of w) doc ->
  store_ready E (fs st) w ->
  is_file (fs st) (Path.joinpath w (ensure_R_extension old_name)) = true ->
  handle_rename_R_file E old_name new_name overwrite st = (Val (Ok data), st') ->
  exists doc',
    holds (fs st') (state_file_of w) doc' /\
    tracked doc' =
      renamed (ensure_R_extension old_name) (ensure_R_extension new_name) (tracked doc) /\
    (doc !! "primary_file" = Some (VStr (ensure_R_extension old_name)) ->
     primary_file (self st') = ensure_R_extension new_name /\
     doc' !! "primary_file" = Some (VStr (ensure_R_extension new_name))) /\
    (doc !! "primary_file" <> Some (VStr (ensure_R_extension old_name)) ->
     primary_file (self st') = primary_file (self st)).
Proof.
  intros Hw Hsf Hdoc Hready Hfile Hh.
  set (old := ensure_R_extension old_name) in *.
  set (new := ensure_R_extension new_name) in *.
  unfold handle_rename_R_file in Hh. fold old new in Hh.
  destruct (exists_ (fs st) w) eqn:Hex.
  2:{ rewrite (bind_run _ _ _ _ _ (ensure_workdir_set_missing st w Hw Hex)) in Hh.
      apply ret_val in Hh as [Hh _]. discriminate Hh. }
  rewrite (bind_run _ _ _ _ _ (ensure_workdir_set_present st w Hw Hex)) in Hh.
  simpl in Hh.
  rewrite (bind_run _ _ _ _ _ (in_workdir_val st w _ Hw)) in Hh.
  rewrite (bind_run _ _ _ _ _ (in_workdir_val st w _ Hw)) in Hh.
  unfold bind at 1, get at 1 in Hh.
  destruct (negb (is_safe_path E (self st) _) || negb (is_safe_path E (self st) _));
    [apply ret_val in Hh as [Hh _]; discriminate Hh |].
  destruct (negb (exists_ (fs st) (Path.joinpath w old)));
    [apply ret_val in Hh as [Hh _]; discriminate Hh |].
  destruct (exists_ (fs st) (Path.joinpath w new) && negb overwrite);
    [apply ret_val in Hh as [Hh _]; discriminate Hh |].
  apply try_except_inv in Hh as [(a & Hbody & Ha) | (e & st0 & _ & Hh)];
    [|apply ret_val in Hh as [Hh _]; discriminate Hh].
  injection Ha as <-.
  pose proof (R_path_ne_store w w old (ensure_R_extension_R old_name)) as (O1 & O2 & O3).
  pose proof (R_path_ne_store w w new (ensure_R_extension_R new_name)) as (N1 & N2 & N3).
  (* the old file makes way for the new one *)
  apply bind_val in Hbody as (u1 & sta & Hunlink & Hbody).
  assert (Fa : frames (fun k => k = Path.joinpath w old \/ k = Path.joinpath w new) st sta /\
               fs sta !! Path.joinpath w old <> Some Dir).
  { unfold is_file in Hfile.
    destruct (fs st !! Path.joinpath w old) as [[|c]|] eqn:Hold; try discriminate Hfile.
    destruct (exists_ (fs st) (Path.joinpath w new) && overwrite).
    - split.
      + pose proof (touches_unlink E (Path.joinpath w new) st) as F.
        rewrite Hunlink in F. eapply frames_mono; [|exact F]. simpl. intros k <-. auto.
      + apply unlink_cases in Hunlink as [-> | ->]; simpl.
        * rewrite Hold. discriminate.
        * rewrite lookup_delete. case_decide; [discriminate | rewrite Hold; discriminate].
    - apply ret_val in Hunlink as [_ ->]. split; [apply frames_refl |].
      rewrite Hold. discriminate. }
  destruct Fa as [Fa Hold_a].
  apply bind_val in Hbody as (u2 & stb & Hmove & Hbody).
  pose proof (touches_move_file E OpRename _ (Path.joinpath w new) sta Hold_a) as Fb.
  unfold rename in Hmove. rewrite Hmove in Fb. simpl in Fb.
  pose proof (frames_trans _ _ _ _ Fa Fb) as F.
  destruct (frames_store E _ _ _ w doc F) as [Hready_b Hdoc_b];
    try assumption; try (intros [Hk | Hk]; symmetry in Hk; contradiction).
  assert (Hself_b : self stb = self st) by (destruct F as (-> & _); reflexivity).
  (* the state update *)
  apply bind_val in Hbody as (d & stc & Hload & Hbody).
  rewrite (load_state_holds E stb (state_file_of w) doc) in Hload;
    [| rewrite Hself_b; exact Hsf | exact Hdoc_b
     | destruct Hready as (_ & _ & _ & _ & _ & _ & H); exact H].
  injection Hload as <- <-.
  apply bind_val in Hbody as (d' & std & Hren & Hbody).
  apply rename_in_state_val in Hren as (Hfs & _ & Hsf_d & Htracked & Hprim & Hother).
  apply bind_val in Hbody as (u3 & ste & Hsave & [_ ->]%ret_val).
  destruct (save_state_ready E std w (<["updated_at" := VStr (now E)]> d'))
    as (st'' & Hsave' & Hself & _ & Hholds & _).
  { rewrite Hsf_d, Hself_b. exact Hsf. }
  { rewrite Hfs. exact Hready_b. }
  rewrite Hsave in Hsave'. injection Hsave' as _ <-.
  eexists. split; [exact Hholds |]. split; [rewrite tracked_stamp; exact Htracked |].
  rewrite Hself. split.
  - intros Hp. destruct (Hprim Hp) as [H1 H2]. split; [exact H1 |].
    rewrite lookup_insert_ne by discriminate. exact H2.
  - intros Hp. destruct (Hother Hp) as [H1 _]. rewrite H1, Hself_b. reflexivity.
Qed.


Lemma rename_updates_state_witness :
  exists doc',
    holds (fs (handle_rename_R_file quiet_env "agent" "main" false stored).2)
      (state_file_of ["w"]) doc' /\
    tracked doc' = renamed "agent.R" "main.R" (tracked old_doc) /\
    (old_doc !! "primary_file" = Some (VStr "agent.R") ->
     primary_file (self (handle_rename_R_file quiet_env "agent" "main" false stored).2)
       = "main.R" /\
     doc' !! "primary_file" = Some (VStr "main.R")) /\
    (old_doc !! "primary_file" <> Some (VStr "agent.R") ->
     primary_file (self (handle_rename_R_file quiet_env "agent" "main" false stored).2)
       = primary_file (self stored)).
Proof.
  refine (rename_updates_state quiet_env stored ["w"] old_doc "agent" "main" false
            (payload (handle_rename_R_file quiet_env "agent" "main" false stored).1)
            (handle_rename_R_file quiet_env "agent" "main" false stored).2
            eq_refl eq_refl _ _ _ _).
  - vm_compute. reflexivity.
  - repeat split; vm_compute; congruence.
  - vm_compute. reflexivity.
  - vm_compute. reflexivity.
Defined.

(** C7, as the specification states it, fails: renaming a script that is in
    the directory but not in the tracked list succeeds and leaves the list
    without the new name. *)
Lemma rename_untracked_not_added : ~ rename_tracks quiet_env "x" "y" false with_script.
Proof.
  unfold rename_tracks. intros H.
  assert (Hok : is_ok (call_tool quiet_env (RenameRFile "x" "y" false) with_script).1 = true)
    by (vm_compute; reflexivity).
  assert (Hnew : existsb (is_str (ensure_R_extension "y"))
                   (tracked_on_disk
                      (call_tool quiet_env (RenameRFile "x" "y" false) with_script).2) = false)
    by (vm_compute; reflexivity).
  destruct (call_tool quiet_env (RenameRFile "x" "y" false) with_script) as [r st'].
  destruct (H Hok) as (_ & _ & Hnew' & _). simpl in Hnew.
  rewrite Hnew in Hnew'. discriminate Hnew'.
Qed.

(** * The rest of the server *)

(** ** The state store *)

(** X1.  Whatever [load_state] returns is the empty document or the
    document the state file holds, and the call has changed nothing. *)
Theorem load_state_gives_file_or_empty (E : Env) (st st' : state) (d : dict) :
  load_state E st = (Val d, st') ->
  st' = st /\
  (d = ∅ \/ exists sf, state_file (self st) = Some sf /\ holds (fs st) sf d).
Proof.
  cbv beta iota zeta delta [load_state read_json fault try_except bind get ret raise].
  destruct (state_file (self st)) as [sf|]; [| intros H; injection H as <- <-; auto].
  destruct (negb (exists_ (fs st) sf)); [intros H; injection H as <- <-; auto |].
  destruct (io_fault E OpRead sf); [intros H; injection H as <- <-; auto |].
  destruct (fs st !! sf) as [[|[s|doc]]|] eqn:Hsf;
    intros H; injection H as <- <-; auto.
  split; [reflexivity |]. right. exists sf. split; [reflexivity | exact Hsf].
Qed.

Lemma load_state_gives_file_or_empty_witness :
  stored = stored /\
  (old_doc = ∅ \/ exists sf, state_file (self stored) = Some sf /\ holds (fs stored) sf old_doc).
Proof.
  refine (load_state_gives_file_or_empty quiet_env stored stored old_doc _).
  vm_compute. reflexivity.
Defined.

(** X2.  Whenever [save_state] returns, no temporary file is left behind: the
    rename took it, or the handler of the [except] removed it. *)
Theorem save_state_leaves_no_temp (E : Env) (st : state) (w : path) (d : dict) u st' :
  state_file (self st) = Some (state_file_of w) ->
  save_state E d st = (Val u, st') ->
  fs st' !! temp_file_of w = None.
Proof.
  intros Hsf Hsave. rewrite (save_state_unfold E st w d Hsf) in Hsave.
  apply try_except_inv in Hsave as [(a & Hbody & _) | (e & st1 & _ & Hh)].
  - rewrite (write_and_replace_val E _ _ d st a st' Hbody). simpl.
    rewrite lookup_insert_ne by (apply not_eq_sym, temp_ne_state_file).
    apply lookup_delete_eq.
  - unfold bind at 1, get at 1 in Hh. unfold exists_ in Hh.
    destruct (fs st1 !! temp_file_of w) as [n|] eqn:Htmp.
    + rewrite bool_decide_eq_true_2 in Hh by eauto.
      revert Hh. cbv beta iota zeta delta [unlink fault bind get ret raise modify].
      destruct (io_fault E OpUnlink (temp_file_of w)); [discriminate |].
      rewrite Htmp. destruct n as [|c]; [discriminate |].
      intros H. injection H as _ <-. simpl. apply lookup_delete_eq.
    + rewrite bool_decide_eq_false_2 in Hh by (intros [? ?]; discriminate).
      apply ret_val in Hh as [_ ->]. exact Htmp.
Qed.

(** X3.  Save, then load: when nothing stands in the way, [save_state] returns,
    [load_state] then gives back the document that was saved, and no path
    other than the state file and its temporary sibling has changed. *)
Theorem save_then_load (E : Env) (st : state) (w : path) (d : dict) :
  state_file (self st) = Some (state_file_of w) ->
  store_ready E (fs st) w ->
  exists st',
    save_state E d st = (Val tt, st') /\
    load_state E st' = (Val d, st') /\
    forall k, k <> temp_file_of w -> k <> state_file_of w -> fs st' !! k = fs st !! k.
Proof.
  intros Hsf Hready.
  destruct (save_state_ready E st w d Hsf Hready)
    as (st' & Hsave & Hself & _ & Hholds & Hready' & F).
  exists st'. split; [exact Hsave |]. split.
  - apply (load_state_holds E st' (state_file_of w) d).
    + rewrite Hself. exact Hsf.
    + exact Hholds.
    + destruct Hready as (_ & _ & _ & _ & _ & _ & H). exact H.
  - intros k Hk1 Hk2. apply (frames_lookup _ _ _ _ F). intros [? | ?]; contradiction.
Qed.

Lemma save_then_load_witness :
  exists st',
    save_state quiet_env new_doc stored = (Val tt, st') /\
    load_state quiet_env st' = (Val new_doc, st') /\
    forall k, k <> temp_file_of ["w"] -> k <> state_file_of ["w"] ->
              fs st' !! k = fs stored !! k.
Proof.
  refine (save_then_load quiet_env stored ["w"] new_doc eq_refl _).
  repeat split; vm_compute; congruence.
Defined.

Lemma save_state_leaves_no_temp_witness :
  fs (save_state refusing_env new_doc stored).2 !! temp_file_of ["w"] = None.
Proof.
  refine (save_state_leaves_no_temp refusing_env stored ["w"] new_doc tt
            (save_state refusing_env new_doc stored).2 eq_refl _).
  vm_compute. reflexivity.
Defined.

(** ** What a computation keeps *)

Section Preserves.

Context (R : state -> state -> Prop) `{!Reflexive R} `{!Transitive R}.

Lemma preserves_ret {A} (a : A) : preserves R (ret a).
Proof. intros st. reflexivity. Qed.

Lemma preserves_raise {A} e : preserves R (@raise A e).
Proof. intros st. reflexivity. Qed.

Lemma preserves_get : preserves R get.
Proof. intros st. reflexivity. Qed.

Lemma preserves_bind {A B} (m : Py A) (k : A -> Py B) :
  preserves R m -> (forall a, preserves R (k a)) -> preserves R (bind m k).
Proof.
  intros Hm Hk st. unfold bind. specialize (Hm st).
  destruct (m st) as [[a|e] st1]; simpl in *; [|exact Hm].
  etransitivity; [exact Hm | apply Hk].
Qed.

Lemma preserves_try_except {A} (m : Py A) (h : exn -> Py A) :
  preserves R m -> (forall e, preserves R (h e)) -> preserves R (try_except m h).
Proof.
  intros Hm Hh st. unfold try_except. specialize (Hm st).
  destruct (m st) as [[a|e] st1]; simpl in *; [exact Hm |].
  etransitivity; [exact Hm | apply Hh].
Qed.

(** A computation that changes nothing keeps every reflexive relation. *)
Lemma preserves_eq {A} (m : Py A) : preserves eq m -> preserves R m.
Proof. intros Hm st. rewrite <- (Hm st). reflexivity. Qed.

End Preserves.

#[global] Instance same_self_refl : Reflexive same_self.
Proof. intros st. reflexivity. Qed.
#[global] Instance same_self_trans : Transitive same_self.
Proof. unfold same_self. intros a b c H1 H2. congruence. Qed.
#[global] Instance same_session_refl : Reflexive same_session.
Proof. intros st. repeat split. Qed.
#[global] Instance same_session_trans : Transitive same_session.
Proof. unfold same_session. intros a b c (?&?&?) (?&?&?). repeat split; congruence. Qed.

Lemma preserves_self_session {A} (m : Py A) : preserves same_self m -> preserves same_session m.
Proof. intros Hm st. unfold same_session. rewrite (Hm st). repeat split. Qed.

Lemma preserves_touches {A} (m : Py A) K : touches m K -> preserves same_self m.
Proof. intros Hm st. destruct (Hm st) as (H & _). exact H. Qed.

(** Splits a computation along its binds, handlers and case distinctions
    and closes the leaves with the lemmas of the given databases. *)
Ltac preserves_step dbs :=
  first
    [ apply preserves_ret; solve [typeclasses eauto]
    | apply preserves_raise; solve [typeclasses eauto]
    | apply preserves_get; solve [typeclasses eauto]
    | solve [dbs]
    | apply preserves_bind; [typeclasses eauto | | intros ?]
    | apply preserves_try_except; [typeclasses eauto | | intros ?]
    | match goal with
      | |- preserves _ (if ?b then _ else _) => destruct b
      | |- preserves _ (match ?x with _ => _ end) => destruct x
      end
    | progress cbv zeta ].

(** *** Computations that change nothing *)

Create HintDb reads.

Lemma reads_fault (E : Env) op p : preserves eq (fault E op p).
Proof. intros st. unfold fault. destruct (io_fault E op p); reflexivity. Qed.

Lemma reads_read_raw (E : Env) p : preserves eq (read_raw E p).
Proof.
  intros st. cbv beta iota zeta delta [read_raw fault bind get ret raise].
  destruct (io_fault E OpRead p); [reflexivity |].
  destruct (fs st !! p) as [[|[s|d]]|]; reflexivity.
Qed.

Lemma reads_read_text (E : Env) p enc : preserves eq (read_text E p enc).
Proof.
  intros st. unfold read_text. destruct (negb (known_encoding E enc)); [reflexivity |].
  unfold bind. pose proof (reads_read_raw E p st) as H.
  destruct (read_raw E p st) as [[s|e] st1]; simpl in *; [|exact H].
  destruct (decode_fails E enc s); exact H.
Qed.

Lemma reads_load_state (E : Env) : preserves eq (load_state E).
Proof. intros st. destruct (load_state_total E st) as (d & ->). reflexivity. Qed.

Lemma reads_ensure_workdir_set : preserves eq ensure_workdir_set.
Proof.
  intros st. unfold ensure_workdir_set, bind, get, ret.
  destruct (workdir (self st)) as [w|]; [|reflexivity].
  destruct (negb (exists_ (fs st) w)); reflexivity.
Qed.

Lemma reads_in_workdir name : preserves eq (in_workdir name).
Proof.
  intros st. unfold in_workdir, bind, get, ret, raise.
  destruct (workdir (self st)); reflexivity.
Qed.

Lemma reads_the_workdir : preserves eq the_workdir.
Proof.
  intros st. unfold the_workdir, bind, get, ret, raise.
  destruct (workdir (self st)); reflexivity.
Qed.

Lemma reads_or_primary f : preserves eq (or_primary f).
Proof. intros st. rewrite or_primary_val. reflexivity. Qed.

Lemma reads_stat_size (E : Env) p : preserves eq (stat_size E p).
Proof.
  intros st. unfold stat_size, bind, get, ret, raise.
  destruct (fs st !! p) as [[|c]|]; reflexivity.
Qed.

Lemma reads_open_read (E : Env) p : preserves eq (open_read E p).
Proof. apply reads_read_raw. Qed.

#[global] Hint Resolve reads_fault reads_read_raw reads_read_text reads_load_state
  reads_ensure_workdir_set reads_in_workdir reads_the_workdir reads_or_primary
  reads_stat_size reads_open_read : reads.

Ltac reads_tac := repeat preserves_step ltac:(auto with reads).

Lemma reads_get_state (E : Env) : preserves eq (handle_get_state E).
Proof. unfold handle_get_state. reads_tac. Qed.

Lemma reads_list_exports (E : Env) g s d l : preserves eq (handle_list_exports E g s d l).
Proof. unfold handle_list_exports. reads_tac. Qed.

Lemma reads_read_export (E : Env) n m t e : preserves eq (handle_read_export E n m t e).
Proof. unfold handle_read_export. reads_tac. Qed.

Lemma reads_preview_table (E : Env) n d m : preserves eq (handle_preview_table E n d m).
Proof. unfold handle_preview_table. reads_tac. Qed.

Lemma reads_style_check c : preserves eq (handle_ggplot_style_check c).
Proof. unfold handle_ggplot_style_check. reads_tac. Qed.

Lemma reads_which_R (E : Env) : preserves eq (handle_which_R E).
Proof. unfold handle_which_R. reads_tac. Qed.

Lemma reads_list_R_files (E : Env) : preserves eq (handle_list_R_files E).
Proof. unfold handle_list_R_files. reads_tac. Qed.

Lemma call_tool_snd (E : Env) r st : (call_tool E r st).2 = (handler E r st).2.
Proof. unfold call_tool. destruct (handler E r st) as [[res|e] st']; reflexivity. Qed.

(** X4.  The tools that only look change nothing: after [get_state],
    [list_exports], [read_export], [preview_table], [ggplot_style_check],
    [which_R], [list_R_files] and a call of an unknown tool, the server
    object, the disk and the current directory are what they were. *)
Theorem read_only_changes_nothing (E : Env) (r : request) (st : state) :
  read_only r = true -> (call_tool E r st).2 = st.
Proof.
  intros Hr. rewrite call_tool_snd. symmetry.
  destruct r; try discriminate Hr; simpl.
  - apply reads_get_state.
  - apply reads_list_exports.
  - apply reads_read_export.
  - apply reads_preview_table.
  - reflexivity.
  - apply reads_which_R.
  - apply reads_list_R_files.
  - reflexivity.
Qed.

Lemma read_only_changes_nothing_witness :
  (call_tool quiet_env (ReadExport "agent.R" 50000 true "utf-8") stored).2 = stored.
Proof.
  exact (read_only_changes_nothing quiet_env (ReadExport "agent.R" 50000 true "utf-8")
           stored eq_refl).
Defined.

(** *** Computations that leave the server object alone *)

Create HintDb writes.

Lemma writes_modify_fs f : preserves same_self (modify (set_fs f)).
Proof. intros st. reflexivity. Qed.

Lemma writes_modify_cwd p : preserves same_self (modify (set_cwd p)).
Proof. intros st. reflexivity. Qed.

Lemma writes_open_write (E : Env) p : preserves same_self (open_write E p).
Proof. eapply preserves_touches, touches_open_write. Qed.

Lemma writes_write_content (E : Env) p c : preserves same_self (write_content E p c).
Proof. eapply preserves_touches, touches_write_content. Qed.

Lemma writes_write_text (E : Env) p s : preserves same_self (write_text E p s).
Proof. eapply preserves_touches, touches_write_text. Qed.

Lemma writes_unlink (E : Env) p : preserves same_self (unlink E p).
Proof. eapply preserves_touches, touches_unlink. Qed.

Lemma writes_mkdir (E : Env) ok p : preserves same_self (mkdir E ok p).
Proof. eapply preserves_touches, touches_mkdir. Qed.

Lemma writes_mkdir_parents (E : Env) ok p : preserves same_self (mkdir_parents E ok p).
Proof. eapply preserves_touches, touches_mkdir_parents. Qed.

Lemma writes_move (E : Env) op src dst : preserves same_self (move E op src dst).
Proof.
  intros st. cbv beta iota zeta delta [move fault bind get ret raise modify].
  destruct (io_fault E op src); [reflexivity |].
  destruct (fs st !! src) as [[|c]|]; [| |reflexivity];
    destruct (fs st !! dst) as [[|c']|];
    repeat match goal with
           | |- context [if ?b then _ else _] => destruct b
           | |- context [match ?x with _ => _ end] => destruct x
           end; reflexivity.
Qed.

Lemma writes_chdir p : preserves same_self (chdir p).
Proof.
  intros st. unfold chdir, bind, get, modify, raise.
  destruct (fs st !! p) as [[|c]|]; reflexivity.
Qed.

Lemma writes_getcwd : preserves same_self getcwd.
Proof.
  intros st. unfold getcwd, bind, get, ret, raise.
  destruct (is_dir (fs st) (cwd st)); reflexivity.
Qed.

Lemma writes_run (E : Env) argv t : preserves same_self (run E argv t).
Proof.
  intros st. unfold run, bind, get, modify, ret, raise.
  destruct (subprocess_run E argv t (cwd st) (fs st)) as [[rc out err | | e] m]; reflexivity.
Qed.

#[global] Hint Resolve writes_modify_fs writes_modify_cwd writes_open_write
  writes_write_content writes_write_text writes_unlink writes_mkdir writes_mkdir_parents
  writes_move writes_chdir writes_getcwd writes_run : writes.

Ltac self_leaf :=
  first [ solve [auto with writes]
        | solve [apply (preserves_eq same_self); auto with reads] ].

Ltac self_tac := repeat preserves_step ltac:(self_leaf).

Lemma writes_save_state (E : Env) d : preserves same_self (save_state E d).
Proof. unfold save_state, write_and_replace, replace_. self_tac. Qed.

Lemma writes_register name d : preserves same_self (register name d).
Proof. unfold register, py_in, py_append. self_tac. Qed.

Lemma writes_run_r_command (E : Env) args t : preserves same_self (run_r_command E args t).
Proof. unfold run_r_command. self_tac. Qed.

#[global] Hint Resolve writes_save_state writes_register writes_run_r_command : writes.

Lemma writes_create (E : Env) f o s : preserves same_self (handle_create_R_file E f o s).
Proof. unfold handle_create_R_file. self_tac. Qed.

Lemma writes_append (E : Env) c f n : preserves same_self (handle_append_R_code E c f n).
Proof. unfold handle_append_R_code. self_tac. Qed.

Lemma writes_write (E : Env) c f o h : preserves same_self (handle_write_R_code E c f o h).
Proof. unfold handle_write_R_code. self_tac. Qed.

Lemma writes_run_script (E : Env) f a t s : preserves same_self (handle_run_R_script E f a t s).
Proof. unfold handle_run_R_script. self_tac. Qed.

Lemma writes_run_expression (E : Env) e t : preserves same_self (handle_run_R_expression E e t).
Proof. unfold handle_run_R_expression. self_tac. Qed.

Lemma writes_inspect (E : Env) o l t : preserves same_self (handle_inspect_R_objects E o l t).
Proof. unfold handle_inspect_R_objects. self_tac. Qed.

(** *** Computations that leave the locations of the session alone *)

Lemma session_modify_primary p :
  preserves same_session (modify (set_self (fun s =>
    {| workdir := workdir s; state_dir := state_dir s;
       state_file := state_file s; primary_file := p |}))).
Proof. intros st. repeat split. Qed.

Ltac session_leaf :=
  first [ solve [apply session_modify_primary]
        | solve [apply preserves_self_session; self_leaf] ].

Ltac session_tac := repeat preserves_step ltac:(session_leaf).

Lemma session_rename (E : Env) o n ov : preserves same_session (handle_rename_R_file E o n ov).
Proof.
  unfold handle_rename_R_file, rename_in_state, rename, py_in, py_remove, py_append.
  session_tac.
Qed.

Lemma session_set_primary (E : Env) f : preserves same_session (handle_set_primary_file E f).
Proof. unfold handle_set_primary_file. session_tac. Qed.

Lemma handler_keeps_self (E : Env) (r : request) (st : state) :
  assigns_session r = false -> assigns_primary r = false ->
  self (handler E r st).2 = self st.
Proof.
  intros Hs Hp. destruct r; try discriminate Hs; try discriminate Hp; simpl.
  - rewrite <- (reads_get_state E st). reflexivity.
  - apply writes_create.
  - apply writes_append.
  - apply writes_write.
  - apply writes_run_script.
  - apply writes_run_expression.
  - rewrite <- (reads_list_exports E _ _ _ _ st). reflexivity.
  - rewrite <- (reads_read_export E _ _ _ _ st). reflexivity.
  - rewrite <- (reads_preview_table E _ _ _ st). reflexivity.
  - reflexivity.
  - apply writes_inspect.
  - rewrite <- (reads_which_R E st). reflexivity.
  - rewrite <- (reads_list_R_files E st). reflexivity.
  - reflexivity.
Qed.

(** X5.  Only [set_workdir], [rename_R_file] and [set_primary_file] assign a field
    of the server object: after any other call the working directory, the
    state directory, the state file and the primary file held in memory are
    what they were, whatever the call returned. *)
Theorem only_three_tools_assign (E : Env) (r : request) (st : state) :
  assigns_session r = false -> assigns_primary r = false ->
  self (call_tool E r st).2 = self st.
Proof. intros Hs Hp. rewrite call_tool_snd. apply handler_keeps_self; assumption. Qed.

Lemma only_three_tools_assign_witness :
  self (call_tool quiet_env (WriteRCode "plot(x)" (Some "agent.R") true true) stored).2
  = self stored.
Proof.
  exact (only_three_tools_assign quiet_env (WriteRCode "plot(x)" (Some "agent.R") true true)
           stored eq_refl eq_refl).
Defined.

(** X6.  Only [set_workdir] moves the session: [rename_R_file] and
    [set_primary_file] may assign the primary file, but the working
    directory, the state directory and the state file stay where they were. *)
Theorem only_set_workdir_moves_session (E : Env) (r : request) (st : state) :
  assigns_session r = false -> same_session st (call_tool E r st).2.
Proof.
  intros Hs. rewrite call_tool_snd.
  destruct (assigns_primary r) eqn:Hp.
  - destruct r; try discriminate Hp; simpl.
    + apply session_rename.
    + apply session_set_primary.
  - assert (H : self (handler E r st).2 = self st) by (apply handler_keeps_self; assumption).
    unfold same_session. rewrite H. repeat split.
Qed.

Lemma only_set_workdir_moves_session_witness :
  same_session after_select
    (call_tool quiet_env (RenameRFile "analysis" "model" false) after_select).2.
Proof.
  exact (only_set_workdir_moves_session quiet_env (RenameRFile "analysis" "model" false)
           after_select eq_refl).
Defined.

(** *** The shape of the session's locations *)

#[global] Instance ok_step_refl : Reflexive ok_step.
Proof. intros st H. exact H. Qed.
#[global] Instance ok_step_trans : Transitive ok_step.
Proof. unfold ok_step. intros a b c H1 H2 H. auto. Qed.

Lemma preserves_session_ok {A} (m : Py A) : preserves same_session m -> preserves ok_step m.
Proof.
  intros Hm st (Hd & Hf). destruct (Hm st) as (Hw & Hsd & Hsf).
  unfold session_ok. rewrite Hw, Hsd, Hsf. split; assumption.
Qed.

Lemma ok_modify_state_file w :
  preserves ok_step (modify (set_self (fun s =>
    {| workdir := workdir s; state_dir := state_dir s;
       state_file := Some (Path.joinpath (Path.joinpath w ".pilotr") "state.json");
       primary_file := primary_file s |}))).
Proof.
  intros st (Hd & Hf). split; [exact Hd |]. right. exists w. reflexivity.
Qed.

Ltac ok_leaf :=
  first [ solve [apply ok_modify_state_file]
        | solve [apply preserves_session_ok; session_leaf] ].

Ltac ok_tac := repeat preserves_step ltac:(ok_leaf).

Lemma ok_set_workdir (E : Env) p c : preserves ok_step (handle_set_workdir E p c).
Proof.
  unfold handle_set_workdir.
  apply preserves_try_except; [typeclasses eauto | | intros ?; ok_tac].
  apply preserves_bind; [typeclasses eauto | ok_tac | intros st0].
  destruct (expand_resolve E (cwd st0) p) as [w|e]; [| ok_tac].
  apply preserves_bind; [typeclasses eauto | ok_tac | intros early].
  destruct early as [r|]; [ok_tac |].
  intros st Hok.
  match goal with
  | |- session_ok (self ((modify ?f1 ;;; (modify ?f2 ;;; ?rest)) st).2) =>
      change (session_ok (self (rest (f2 (f1 st))).2));
      assert (Hrest : preserves ok_step rest) by ok_tac;
      apply (Hrest (f2 (f1 st)))
  end.
  destruct Hok as (Hd & Hf). split; [reflexivity | exact Hf].
Qed.

(** X7.  The locations of the session keep their shape through every call: once
    the state directory is the [.pilotr] directory of the working directory
    and the state file is absent or the [state.json] of some root (as in a
    server that has just been constructed), this stays so after any sequence
    of calls, whatever they return. *)
Theorem session_shape_invariant (E : Env) (rs : list request) (st : state) :
  session_ok (self st) -> session_ok (self (run_calls E rs st)).
Proof.
  revert st. induction rs as [|r rs IH]; intros st Hok; [exact Hok |].
  simpl. apply IH. rewrite call_tool_snd.
  destruct (assigns_session r) eqn:Hs.
  - destruct r; try discriminate Hs. simpl. apply ok_set_workdir. exact Hok.
  - destruct (assigns_primary r) eqn:Hp.
    + destruct r; try discriminate Hp; simpl.
      * apply (preserves_session_ok _ (session_rename E _ _ _)). exact Hok.
      * apply (preserves_session_ok _ (session_set_primary E _)). exact Hok.
    + rewrite (handler_keeps_self E r st Hs Hp). exact Hok.
Qed.

Lemma session_shape_invariant_witness :
  session_ok (self fresh) /\
  session_ok (self (run_calls refusing_env
     [SetWorkdir "w" true; CreateRFile "plot" false true; SetPrimaryFile "plot"] fresh)).
Proof.
  assert (H : session_ok (self fresh)) by (split; [reflexivity | left; reflexivity]).
  split; [exact H |].
  exact (session_shape_invariant refusing_env
           [SetWorkdir "w" true; CreateRFile "plot" false true; SetPrimaryFile "plot"] fresh H).
Defined.

(** ** File names *)

(** X8.  [ensure_R_extension] is a normal form: applying it twice is applying it
    once, and the names it leaves as they are are exactly those that end in
    [.R] or [.r]. *)
Theorem ensure_R_extension_normal (f : string) :
  ensure_R_extension (ensure_R_extension f) = ensure_R_extension f /\
  (ensure_R_extension f = f <-> R_name f).
Proof.
  assert (Hfix : forall g, R_name g -> ensure_R_extension g = g).
  { intros g [H | H]; unfold ensure_R_extension; rewrite H;
      [reflexivity | rewrite orb_true_r; reflexivity]. }
  split.
  - apply Hfix, ensure_R_extension_R.
  - split; [| apply Hfix].
    intros H. rewrite <- H. apply ensure_R_extension_R.
Qed.

(** ** The interpreter runner *)

Lemma returns_ret {A} (a : A) : returns (ret a).
Proof. intros st. eexists _, _. reflexivity. Qed.

Lemma returns_try_except {A} (m : Py A) (h : exn -> Py A) :
  (forall e, returns (h e)) -> returns (try_except m h).
Proof.
  intros Hh st. unfold try_except. destruct (m st) as [[a|e] st1].
  - eexists _, _. reflexivity.
  - apply Hh.
Qed.

Lemma yields_ret {A} (Q : A -> Prop) (a : A) : Q a -> yields Q (ret a).
Proof. intros Ha st b st' H. unfold ret in H. injection H as Hb _. subst b. exact Ha. Qed.

Lemma yields_raise {A} (Q : A -> Prop) e : yields Q (@raise A e).
Proof. intros st b st' H. discriminate H. Qed.

Lemma yields_bind {A B} (Q : B -> Prop) (m : Py A) (k : A -> Py B) :
  (forall a, yields Q (k a)) -> yields Q (bind m k).
Proof.
  intros Hk st b st' H. apply bind_val in H as (a & st1 & _ & H).
  exact (Hk a st1 b st' H).
Qed.

Lemma yields_try_except {A} (Q : A -> Prop) (m : Py A) (h : exn -> Py A) :
  yields Q m -> (forall e, yields Q (h e)) -> yields Q (try_except m h).
Proof.
  intros Hm Hh st b st' H.
  apply try_except_inv in H as [(a & H & Ha) | (e & st1 & _ & H)].
  - injection Ha as Ha. subst b. exact (Hm st a st' H).
  - exact (Hh e st1 b st' H).
Qed.

(** Splits a computation along its binds, handlers and case distinctions. *)
Ltac yields_step leaf :=
  first
    [ apply yields_raise
    | apply yields_ret; solve [leaf]
    | apply yields_bind; intros ?
    | apply yields_try_except; [| intros ?]
    | match goal with
      | |- yields _ (if ?b then _ else _) => destruct b
      | |- yields _ (match ?x with _ => _ end) => destruct x
      | |- yields _ (let '(_, _) := ?x in _) => destruct x
      end
    | progress cbv zeta ].

Lemma elem_of_runner_codes (c : string) :
  c = "R_NOT_FOUND" \/ c = "R_EXECUTION_ERROR" \/ c = "TIMEOUT" \/ c = "EXECUTION_ERROR" ->
  c ∈ runner_codes.
Proof.
  unfold runner_codes. rewrite !elem_of_cons. intuition.
Qed.

Lemma run_r_command_yields (E : Env) args t : yields runner_result (run_r_command E args t).
Proof.
  unfold run_r_command.
  repeat yields_step ltac:(first [exact I | apply elem_of_runner_codes; tauto]).
Qed.

Lemma run_r_command_returns (E : Env) args t : returns (run_r_command E args t).
Proof.
  unfold run_r_command. destruct (find_r_executable E); [| apply returns_ret].
  apply returns_try_except. intros []; apply returns_ret.
Qed.

(** X9.  [run_r_command] lets no exception escape and never touches the server
    object: it returns a success or one of the four codes [R_NOT_FOUND],
    [R_EXECUTION_ERROR], [TIMEOUT] and [EXECUTION_ERROR]; when no
    interpreter is installed it answers [R_NOT_FOUND] without having moved
    or run anything. *)
Theorem run_r_command_never_raises (E : Env) (args : list string) (t : Z) (st : state) :
  exists r st',
    run_r_command E args t st = (Val r, st') /\
    self st' = self st /\
    runner_result r /\
    (find_r_executable E = None -> r = Err "R_NOT_FOUND" None /\ st' = st).
Proof.
  destruct (run_r_command_returns E args t st) as (r & st' & H).
  exists r, st'. split; [exact H |]. split; [| split].
  - pose proof (writes_run_r_command E args t st) as Hs. rewrite H in Hs. exact Hs.
  - exact (run_r_command_yields E args t st r st' H).
  - intros Hnone. unfold run_r_command in H. rewrite Hnone in H.
    injection H as <- <-. split; reflexivity.
Qed.

Lemma filter_iff {A} (P Q : A -> Prop) `{!forall x, Decision (P x)}
    `{!forall x, Decision (Q x)} (l : list A) :
  (forall x, P x <-> Q x) -> filter P l = filter Q l.
Proof.
  intros HPQ. induction l as [|x l IH]; [reflexivity |].
  destruct (decide (P x)) as [HP | HP].
  - rewrite (filter_cons_True P) by exact HP.
    rewrite (filter_cons_True Q) by (apply HPQ; exact HP). rewrite IH. reflexivity.
  - rewrite (filter_cons_False P) by exact HP.
    rewrite (filter_cons_False Q) by (rewrite <- HPQ; exact HP). exact IH.
Qed.

Lemma nonempty_true (s : string) : nonempty s = true <-> s <> EmptyString.
Proof.
  unfold nonempty. rewrite negb_true_iff. split.
  - intros H. apply bool_decide_eq_false in H. exact H.
  - intros H. apply bool_decide_eq_false. exact H.
Qed.

Lemma chdir_val p st u st' : chdir p st = (Val u, st') -> st' = set_cwd p st.
Proof.
  unfold chdir, bind, get, modify, raise.
  destruct (fs st !! p) as [[|c]|]; intros H; try discriminate H.
  injection H as _ <-. reflexivity.
Qed.

Lemma run_val (E : Env) argv t st rc out err st' :
  run E argv t st = (Val (rc, out, err), st') ->
  exists m, subprocess_run E argv t (cwd st) (fs st) = (Completed rc out err, m).
Proof.
  unfold run, bind, get, modify, ret, raise.
  destruct (subprocess_run E argv t (cwd st) (fs st)) as [[rc' out' err'| |e] m];
    intros H; try discriminate H.
  injection H as -> -> -> _. eauto.
Qed.



Lemma run_r_command_completed_restores_witness :
  exists r st',
    run_r_command quiet_env ["-e"; "1+1"] 120 in_w = (Val r, st') /\ cwd st' = cwd in_w /\
    ((0 : Z) = 0 -> is_ok r = true) /\
    ((0 : Z) <> 0 -> error_code r = Some "R_EXECUTION_ERROR").
Proof.
  refine (run_r_command_completed_restores quiet_env in_w ["-e"; "1+1"] 120
            "/usr/bin/Rscript" ["w"] 0 "[1] 2" EmptyString (fs in_w)
            eq_refl eq_refl _ _ _ _).
  - vm_compute. reflexivity.
  - vm_compute. reflexivity.
  - vm_compute. reflexivity.
  - vm_compute. reflexivity.
Defined.

(** ** Refusals *)

Lemma refuses_ret (r : result) : refuses_cleanly (ret r).
Proof. intros st r' st' H _. unfold ret in H. congruence. Qed.

Lemma refuses_raise e : refuses_cleanly (raise e).
Proof. intros st r' st' H _. discriminate H. Qed.

Lemma refuses_bind_ret {A} (a : A) (k : A -> Py result) :
  refuses_cleanly (k a) -> refuses_cleanly (bind (ret a) k).
Proof. intros H. exact H. Qed.

Lemma refuses_bind_read {A} (m : Py A) (k : A -> Py result) :
  preserves eq m -> (forall a, refuses_cleanly (k a)) -> refuses_cleanly (bind m k).
Proof.
  intros Hm Hk st r st' H Hr. apply bind_val in H as (a & st1 & H1 & H).
  pose proof (Hm st) as Heq. rewrite H1 in Heq. simpl in Heq. subst st1.
  exact (Hk a st r st' H Hr).
Qed.

Lemma refuses_yields (m : Py result) : yields proceeds m -> refuses_cleanly m.
Proof. intros Hm st r st' H Hr. rewrite (Hm st r st' H) in Hr. discriminate Hr. Qed.

Lemma refuses_try_except (m : Py result) (h : exn -> Py result) :
  refuses_cleanly m -> (forall e, yields proceeds (h e)) -> refuses_cleanly (try_except m h).
Proof.
  intros Hm Hh st r st' H Hr.
  apply try_except_inv in H as [(a & H & Ha) | (e & st1 & _ & H)].
  - injection Ha as Ha. subst a. exact (Hm st r st' H Hr).
  - rewrite (Hh e st1 r st' H) in Hr. discriminate Hr.
Qed.

Lemma refuses_reads (m : Py result) : preserves eq m -> refuses_cleanly m.
Proof.
  intros Hm st r st' H _. pose proof (Hm st) as Heq. rewrite H in Heq. symmetry. exact Heq.
Qed.

Lemma refuses_map (m : Py result) (f : result -> result) :
  (forall r, is_refusal (f r) = is_refusal r) ->
  refuses_cleanly m -> refuses_cleanly (r <- m ;; ret (f r)).
Proof.
  intros Hf Hm st r st' H Hr. apply bind_val in H as (a & st1 & H1 & H).
  unfold ret in H. injection H as Hr' Hst. subst r st'.
  rewrite Hf in Hr. exact (Hm st a st1 H1 Hr).
Qed.

Lemma is_refusal_with_data r k v : is_refusal (with_data r k v) = is_refusal r.
Proof. destruct r; reflexivity. Qed.

Lemma yields_bind_bind {A B C} (Q : C -> Prop) (m : Py A) (k1 : A -> Py B) (k2 : B -> Py C) :
  yields Q (bind m (fun a => bind (k1 a) k2)) -> yields Q (bind (bind m k1) k2).
Proof.
  intros H st c st' Hc. apply (H st c st'). revert Hc. unfold bind.
  destruct (m st) as [[a|e] st1]; [| intros Hc; exact Hc].
  intros Hc; exact Hc.
Qed.

Lemma yields_bind_ret {A B} (Q : B -> Prop) (a : A) (k : A -> Py B) :
  yields Q (k a) -> yields Q (bind (ret a) k).
Proof. intros H. exact H. Qed.

Ltac proceeds_tac :=
  repeat first
    [ match goal with
      | |- yields _ (bind (bind _ _) _) => apply yields_bind_bind
      | |- yields _ (bind (ret _) _) => apply yields_bind_ret
      | |- yields _ (bind (if ?b then _ else _) _) => destruct b
      end
    | yields_step ltac:(unfold proceeds; reflexivity) ].

Lemma run_r_command_refuses (E : Env) args t : refuses_cleanly (run_r_command E args t).
Proof.
  unfold run_r_command. destruct (find_r_executable E); [| apply refuses_ret].
  apply refuses_yields. proceeds_tac.
Qed.

(** Works through the checks at the head of a handler, which only read, and
    shows that what comes after them answers with no refusal. *)
Ltac refuses_tac :=
  repeat first
    [ apply refuses_ret
    | apply refuses_raise
    | solve [apply refuses_yields; proceeds_tac]
    | match goal with
      | |- refuses_cleanly (bind (run_r_command _ _ _) _) =>
          apply refuses_map;
          [intros ?; rewrite ?is_refusal_with_data; reflexivity | apply run_r_command_refuses]
      | |- refuses_cleanly (bind (ret _) _) => apply refuses_bind_ret
      end
    | apply refuses_bind_read; [solve [auto with reads | apply preserves_get; typeclasses eauto] | intros ?]
    | apply refuses_try_except; [| intros ?; solve [proceeds_tac]]
    | match goal with
      | |- refuses_cleanly (bind (if ?b then _ else _) _) => destruct b
      | |- refuses_cleanly (if ?b then _ else _) => destruct b
      | |- refuses_cleanly (match ?x with _ => _ end) => destruct x
      end
    | progress cbv zeta ].

Lemma refuses_set_workdir (E : Env) p c : refuses_cleanly (handle_set_workdir E p c).
Proof. unfold handle_set_workdir. refuses_tac. Qed.

Lemma refuses_create (E : Env) f o s : refuses_cleanly (handle_create_R_file E f o s).
Proof. unfold handle_create_R_file. refuses_tac. Qed.

Lemma refuses_rename (E : Env) a b o : refuses_cleanly (handle_rename_R_file E a b o).
Proof. unfold handle_rename_R_file. refuses_tac. Qed.

Lemma refuses_set_primary (E : Env) f : refuses_cleanly (handle_set_primary_file E f).
Proof. unfold handle_set_primary_file. refuses_tac. Qed.

Lemma refuses_append (E : Env) c f n : refuses_cleanly (handle_append_R_code E c f n).
Proof. unfold handle_append_R_code. refuses_tac. Qed.

Lemma refuses_write (E : Env) c f o h : refuses_cleanly (handle_write_R_code E c f o h).
Proof. unfold handle_write_R_code. refuses_tac. Qed.

Lemma refuses_run_script (E : Env) f a t s : refuses_cleanly (handle_run_R_script E f a t s).
Proof. unfold handle_run_R_script. refuses_tac. Qed.

Lemma refuses_run_expression (E : Env) e t : refuses_cleanly (handle_run_R_expression E e t).
Proof. unfold handle_run_R_expression. refuses_tac. Qed.

Lemma refuses_inspect (E : Env) o l t : refuses_cleanly (handle_inspect_R_objects E o l t).
Proof. unfold handle_inspect_R_objects. refuses_tac. Qed.

Lemma handler_refuses (E : Env) (r : request) : refuses_cleanly (handler E r).
Proof.
  destruct r; simpl.
  - apply refuses_set_workdir.
  - apply refuses_reads, reads_get_state.
  - apply refuses_create.
  - apply refuses_rename.
  - apply refuses_set_primary.
  - apply refuses_append.
  - apply refuses_write.
  - apply refuses_run_script.
  - apply refuses_run_expression.
  - apply refuses_reads, reads_list_exports.
  - apply refuses_reads, reads_read_export.
  - apply refuses_reads, reads_preview_table.
  - apply refuses_reads, reads_style_check.
  - apply refuses_inspect.
  - apply refuses_reads, reads_which_R.
  - apply refuses_reads, reads_list_R_files.
  - apply refuses_ret.
Qed.

(** X12.  A call that is turned down has touched nothing.  When the answer is one
    of [NO_WORKDIR], [WORKDIR_MISSING], [UNSAFE_PATH], [FILE_EXISTS],
    [FILE_NOT_FOUND], [NOT_A_FILE], [NO_RDATA], [DIR_NOT_FOUND], [NOT_A_DIR],
    [FILE_TOO_LARGE], [EMPTY_FILE], [R_NOT_FOUND] or [UNKNOWN_TOOL], the
    server object, the disk and the current directory are what they were
    before the call. *)
Theorem refusal_changes_nothing (E : Env) (r : request) (st : state) :
  is_refusal (call_tool E r st).1 = true -> (call_tool E r st).2 = st.
Proof.
  unfold call_tool. destruct (handler E r st) as [[res|e] st'] eqn:H; simpl.
  - intros Hr. exact (handler_refuses E r st res st' H Hr).
  - intros Hr. discriminate Hr.
Qed.

Lemma refusal_changes_nothing_witness :
  (call_tool quiet_env (CreateRFile "agent" false true) stored).2 = stored.
Proof.
  refine (refusal_changes_nothing quiet_env (CreateRFile "agent" false true) stored _).
  vm_compute. reflexivity.
Defined.

(** ** The checks at the head of a handler *)

(** What a handler that begins with [ensure_workdir_set] does, by the state
    of the session. *)
Lemma ensure_bind (rest : Py result) (st : state) :
  (chk <- ensure_workdir_set ;;
   let '(ok, error) := chk in
   if negb ok then ret (failure error) else rest) st =
  match workdir (self st) with
  | None => (Val (Err "NO_WORKDIR" None), st)
  | Some w =>
      if exists_ (fs st) w then rest st else (Val (Err "WORKDIR_MISSING" None), st)
  end.
Proof.
  cbv beta iota zeta delta [ensure_workdir_set bind get ret].
  destruct (workdir (self st)) as [w|]; [| reflexivity].
  destruct (exists_ (fs st) w); reflexivity.
Qed.

Lemma or_primary_chosen (f : option string) (st : state) :
  or_primary f st = (Val (chosen f (self st)), st).
Proof. apply or_primary_val. Qed.

(** Brings a handler to the code after its session check, in a session whose
    working directory is [w] and exists. *)
Ltac enter_rest Hw :=
  rewrite ?(bind_run _ _ _ _ _ (or_primary_chosen _ _)); cbv zeta;
  repeat (erewrite (bind_run (in_workdir _)); [| apply in_workdir_val; exact Hw]);
  unfold bind at 1, get at 1.

Ltac enter_session Hw Hex := rewrite ensure_bind, Hw, Hex; enter_rest Hw.

(** X13.  The path guard comes first: in a live session, a call that names a file
    whose path [is_safe_path] rejects is answered [UNSAFE_PATH] and nothing
    is touched, whether or not the file exists and whatever the other
    arguments say. *)
Theorem unsafe_path_refused (E : Env) (r : request) (st : state) (w : path) (n : string) :
  workdir (self st) = Some w ->
  exists_ (fs st) w = true ->
  n ∈ named r (self st) ->
  is_safe_path E (self st) (Path.joinpath w n) = false ->
  call_tool E r st = (Err "UNSAFE_PATH" None, st).
Proof.
  intros Hw Hex Hn Hsafe. unfold call_tool.
  destruct r; simpl in Hn; try (apply elem_of_nil in Hn; contradiction);
    repeat (apply elem_of_cons in Hn as [Hn | Hn]);
    try (apply elem_of_nil in Hn; contradiction); subst n; simpl.
  - unfold handle_create_R_file. enter_session Hw Hex. rewrite Hsafe. reflexivity.
  - unfold handle_rename_R_file. enter_session Hw Hex. rewrite Hsafe. reflexivity.
  - unfold handle_rename_R_file. enter_session Hw Hex. rewrite Hsafe, orb_true_r. reflexivity.
  - unfold handle_set_primary_file. enter_session Hw Hex. rewrite Hsafe. reflexivity.
  - unfold handle_append_R_code. enter_session Hw Hex. rewrite Hsafe. reflexivity.
  - unfold handle_write_R_code. enter_session Hw Hex. rewrite Hsafe. reflexivity.
  - unfold handle_run_R_script. enter_session Hw Hex. rewrite Hsafe. reflexivity.
  - unfold handle_read_export. enter_session Hw Hex. rewrite Hsafe. reflexivity.
  - unfold handle_preview_table. enter_session Hw Hex. rewrite Hsafe. reflexivity.
Qed.

Lemma unsafe_path_refused_witness :
  call_tool quiet_env (ReadExport "/etc/passwd" 50000 true "utf-8") stored
  = (Err "UNSAFE_PATH" None, stored).
Proof.
  refine (unsafe_path_refused quiet_env (ReadExport "/etc/passwd" 50000 true "utf-8") stored
            ["w"] "/etc/passwd" eq_refl _ _ _).
  - vm_compute. reflexivity.
  - apply list_elem_of_here.
  - vm_compute. reflexivity.
Defined.

(** ** The error codes of the tools *)

Lemma yields_guard (Q : result -> Prop) (rest : Py result) :
  Q (Err "NO_WORKDIR" None) -> Q (Err "WORKDIR_MISSING" None) ->
  yields Q rest ->
  yields Q (chk <- ensure_workdir_set ;;
            let '(ok, error) := chk in
            if negb ok then ret (failure error) else rest).
Proof.
  intros H1 H2 Hrest st r st' H. rewrite ensure_bind in H.
  destruct (workdir (self st)) as [w|]; [| injection H as <- _; exact H1].
  destruct (exists_ (fs st) w); [| injection H as <- _; exact H2].
  exact (Hrest st r st' H).
Qed.

Lemma yields_map {A B} (Q' : A -> Prop) (Q : B -> Prop) (m : Py A) (f : A -> B) :
  yields Q' m -> (forall a, Q' a -> Q (f a)) -> yields Q (a <- m ;; ret (f a)).
Proof.
  intros Hm Hf st b st' H. apply bind_val in H as (a & st1 & H1 & H).
  unfold ret in H. injection H as <- _. exact (Hf a (Hm st a st1 H1)).
Qed.

Lemma answers_with_data (codes : list string) (r : result) k v :
  answers_within codes r -> answers_within codes (with_data r k v).
Proof. destruct r; intros H; exact H. Qed.

Lemma runner_answers (codes : list string) (r : result) :
  (forall c, c ∈ runner_codes -> bool_decide (c ∈ codes) = true) ->
  runner_result r -> answers_within codes r.
Proof.
  intros Hsub Hr. destruct r as [data | c details]; simpl; [exact I |]. apply Hsub, Hr.
Qed.

Lemma runner_codes_within (codes : list string) :
  forallb (fun c => bool_decide (c ∈ codes)) runner_codes = true ->
  forall c, c ∈ runner_codes -> bool_decide (c ∈ codes) = true.
Proof.
  intros H c Hc. rewrite forallb_forall in H. apply H. apply list_elem_of_In. exact Hc.
Qed.

(** Works through a handler and checks the code of every answer it builds
    itself or passes on from [run_r_command]. *)
Ltac codes_tac E :=
  repeat first
    [ match goal with
      | |- yields _ (bind ensure_workdir_set _) =>
          apply yields_guard; [reflexivity | reflexivity |]
      | |- yields _ (bind (run_r_command _ ?a ?t) _) =>
          eapply yields_map; [apply (run_r_command_yields E a t) |];
          intros ? ?; repeat apply answers_with_data; apply runner_answers;
          [apply runner_codes_within; reflexivity | assumption]
      | |- yields _ (bind (bind _ _) _) => apply yields_bind_bind
      | |- yields _ (bind (ret _) _) => apply yields_bind_ret
      | |- yields _ (bind (if ?b then _ else _) _) => destruct b
      end
    | yields_step ltac:(first [exact I | reflexivity]) ].

Lemma handler_codes (E : Env) (r : request) :
  yields (answers_within (codes_of r)) (handler E r).
Proof.
  destruct r; simpl handler; simpl codes_of.
  - unfold handle_set_workdir. codes_tac E.
  - unfold handle_get_state. codes_tac E.
  - unfold handle_create_R_file. codes_tac E.
  - unfold handle_rename_R_file. codes_tac E.
  - unfold handle_set_primary_file. codes_tac E.
  - unfold handle_append_R_code. codes_tac E.
  - unfold handle_write_R_code. codes_tac E.
  - unfold handle_run_R_script. codes_tac E.
  - unfold handle_run_R_expression. codes_tac E.
  - unfold handle_list_exports. codes_tac E.
  - unfold handle_read_export. codes_tac E.
  - unfold handle_preview_table. codes_tac E.
  - unfold handle_ggplot_style_check. codes_tac E.
  - unfold handle_inspect_R_objects. codes_tac E.
  - unfold handle_which_R. codes_tac E.
  - unfold handle_list_R_files. codes_tac E.
  - codes_tac E.
Qed.

(** X14.  No tool answers with an error code that is not its own: whatever
    the arguments and the state, the code of an error that [call_tool]
    returns is one of those the handler of the tool has (with those of the
    session check and of [run_r_command] where it calls them), or the
    [INTERNAL_ERROR] of the dispatcher. *)
Theorem error_codes_by_tool (E : Env) (r : request) (st : state) (c : string) :
  error_code (call_tool E r st).1 = Some c ->
  c ∈ "INTERNAL_ERROR" :: codes_of r.
Proof.
  unfold call_tool. destruct (handler E r st) as [[res|e] st'] eqn:H; simpl.
  - pose proof (handler_codes E r st res st' H) as Hc.
    destruct res as [data | c' details]; simpl; [discriminate |].
    intros Hcode. injection Hcode as <-. simpl in Hc.
    apply elem_of_cons. right. apply bool_decide_eq_true in Hc. exact Hc.
  - intros Hcode. injection Hcode as <-. apply elem_of_cons. left. reflexivity.
Qed.

Lemma error_codes_by_tool_witness :
  "FILE_EXISTS" ∈ "INTERNAL_ERROR" :: codes_of (CreateRFile "agent" false true).
Proof.
  refine (error_codes_by_tool quiet_env (CreateRFile "agent" false true) stored
            "FILE_EXISTS" _).
  vm_compute. reflexivity.
Defined.

Lemma save_state_blocked (E : Env) st w d :
  state_file (self st) = Some (state_file_of w) ->
  fs st !! temp_file_of w = Some Dir ->
  exists e, save_state E d st = (Raise e, st).
Proof.
  intros Hsf Htmp. rewrite (save_state_unfold E st w d Hsf).
  assert (Hopen : exists e, write_and_replace E (temp_file_of w) (state_file_of w) d st
                            = (Raise e, st)).
  { cbv beta iota zeta delta [write_and_replace open_write fault bind get raise ret].
    destruct (io_fault E OpOpenWrite (temp_file_of w)); [eauto |].
    rewrite Htmp. eauto. }
  destruct Hopen as (e & Hopen). unfold try_except. rewrite Hopen.
  cbv beta iota zeta delta [bind get]. unfold exists_. rewrite Htmp.
  rewrite bool_decide_eq_true_2 by eauto.
  cbv beta iota zeta delta [unlink fault bind get raise ret].
  destruct (io_fault E OpUnlink (temp_file_of w)); [eauto |].
  rewrite Htmp. eauto.
Qed.

(** X15.  [set_primary_file] assigns the primary file before it saves, and saves
    outside a [try]: when the temporary sibling of the state file is a
    directory, the call ends in [INTERNAL_ERROR], and yet the server then
    holds the new primary file, with the disk untouched. *)
Theorem set_primary_file_escapes (E : Env) (st : state) (w w' : path) (f : string) :
  workdir (self st) = Some w ->
  exists_ (fs st) w = true ->
  is_safe_path E (self st) (Path.joinpath w (ensure_R_extension f)) = true ->
  exists_ (fs st) (Path.joinpath w (ensure_R_extension f)) = true ->
  state_file (self st) = Some (state_file_of w') ->
  fs st !! temp_file_of w' = Some Dir ->
  exists st',
    call_tool E (SetPrimaryFile f) st = (Err "INTERNAL_ERROR" None, st') /\
    primary_file (self st') = ensure_R_extension f /\
    fs st' = fs st.
Proof.
  intros Hw Hex Hsafe Hfile Hsf Htmp.
  unfold call_tool. simpl. unfold handle_set_primary_file.
  enter_session Hw Hex. rewrite Hsafe, Hfile. cbn [negb].
  unfold bind at 1, modify at 1.
  set (st1 := set_self _ st).
  destruct (load_state_total E st1) as (doc & Hload).
  rewrite (bind_run _ _ _ _ _ Hload).
  destruct (save_state_blocked E st1 w'
              (<["updated_at" := VStr (now E)]>
                 (<["primary_file" := VStr (ensure_R_extension f)]> doc))) as (e & Hsave);
    [exact Hsf | exact Htmp |].
  rewrite (bind_raise _ _ _ _ _ Hsave).
  exists st1. split; [reflexivity |]. split; reflexivity.
Qed.

Lemma set_primary_file_escapes_witness :
  exists st',
    call_tool quiet_env (SetPrimaryFile "agent") jammed = (Err "INTERNAL_ERROR" None, st') /\
    primary_file (self st') = ensure_R_extension "agent" /\
    fs st' = fs jammed.
Proof.
  refine (set_primary_file_escapes quiet_env jammed ["w"] ["w"] "agent" eq_refl _ _ _ _ _).
  - vm_compute. reflexivity.
  - vm_compute. reflexivity.
  - vm_compute. reflexivity.
  - vm_compute. reflexivity.
  - vm_compute. reflexivity.
Defined.

(** ** What [get_state] reports *)

(** X16.  When [get_state] succeeds, it has changed nothing, and its data
    is a document, the empty one or the one the state file holds, in which
    the working directory and the primary file are replaced by those the
    server holds in memory and [r_available] says whether
    [find_r_executable] finds an interpreter; every other key is as in that
    document. *)
Theorem get_state_reports (E : Env) (st st' : state) (d : dict) :
  call_tool E GetState st = (Ok d, st') ->
  st' = st /\
  d !! "workdir" = Some (path_value (workdir (self st))) /\
  d !! "primary_file" = Some (VStr (primary_file (self st))) /\
  d !! "r_available" = Some (VBool (bool_decide (is_Some (find_r_executable E)))) /\
  exists doc,
    (doc = ∅ \/ exists sf, state_file (self st) = Some sf /\ holds (fs st) sf doc) /\
    forall k, k <> "workdir" -> k <> "primary_file" -> k <> "r_available" ->
              d !! k = doc !! k.
Proof.
  unfold call_tool. simpl handler.
  destruct (handle_get_state E st) as [[res|e] st1] eqn:H; simpl; [| discriminate].
  intros Hres. injection Hres as -> ->.
  unfold handle_get_state in H.
  apply bind_val in H as (st0 & st1 & Hget & H).
  unfold get in Hget. injection Hget as <- <-.
  apply bind_val in H as (doc & st1 & Hload & H).
  unfold ret in H. injection H as Hd Hst. subst st1.
  assert (Hdoc : st' = st /\
                 (doc = ∅ \/ exists sf, state_file (self st) = Some sf /\ holds (fs st) sf doc)).
  { revert Hload.
    destruct (bool_decide (is_Some (state_file (self st))));
      [| intros Hl; injection Hl as <- <-; auto].
    cbv beta iota zeta delta [load_state read_json fault try_except bind get ret raise].
    destruct (state_file (self st)) as [sf|]; [| intros Hl; injection Hl as <- <-; auto].
    destruct (negb (exists_ (fs st) sf)); [intros Hl; injection Hl as <- <-; auto |].
    destruct (io_fault E OpRead sf); [intros Hl; injection Hl as <- <-; auto |].
    destruct (fs st !! sf) as [[|[s|doc']]|] eqn:Hsf;
      intros Hl; injection Hl as <- <-; auto.
    split; [reflexivity |]. right. exists sf. split; [reflexivity | exact Hsf]. }
  destruct Hdoc as (-> & Hdoc). split; [reflexivity |].
  rewrite <- Hd. split; [| split; [| split]].
  - rewrite lookup_insert_ne by discriminate.
    rewrite lookup_insert_ne by discriminate. apply lookup_insert_eq.
  - rewrite lookup_insert_ne by discriminate. apply lookup_insert_eq.
  - apply lookup_insert_eq.
  - exists doc. split; [exact Hdoc |].
    intros k H1 H2 H3. rewrite !lookup_insert_ne by congruence. reflexivity.
Qed.

Lemma get_state_reports_witness :
  stored = stored /\
  data_of (call_tool quiet_env GetState stored).1 !! "workdir"
    = Some (path_value (workdir (self stored))) /\
  data_of (call_tool quiet_env GetState stored).1 !! "primary_file"
    = Some (VStr (primary_file (self stored))) /\
  data_of (call_tool quiet_env GetState stored).1 !! "r_available"
    = Some (VBool (bool_decide (is_Some (find_r_executable quiet_env)))) /\
  exists doc,
    (doc = ∅ \/ exists sf, state_file (self stored) = Some sf /\ holds (fs stored) sf doc) /\
    forall k, k <> "workdir" -> k <> "primary_file" -> k <> "r_available" ->
              data_of (call_tool quiet_env GetState stored).1 !! k = doc !! k.
Proof.
  refine (get_state_reports quiet_env stored stored
            (data_of (call_tool quiet_env GetState stored).1) _).
  vm_compute. reflexivity.
Defined.

(** ** Which interpreter *)

(** X17.  [which_R] and [find_r_executable] agree: the tool succeeds exactly when
    an interpreter is found, it names the one [run_r_command] would start,
    and that one is the first of the alternatives it lists; when there is
    none, both the tool and [run_r_command] answer [R_NOT_FOUND]. *)
Theorem which_R_agrees (E : Env) (st : state) :
  match find_r_executable E with
  | Some x =>
      exists d alts,
        call_tool E WhichR st = (Ok d, st) /\
        d !! "executable" = Some (VStr x) /\
        d !! "alternatives" = Some (VList (VStr <$> alts)) /\
        head alts = Some x
  | None =>
      call_tool E WhichR st = (Err "R_NOT_FOUND" None, st) /\
      forall args t, run_r_command E args t st = (Val (Err "R_NOT_FOUND" None), st)
  end.
Proof.
  unfold call_tool, run_r_command. simpl.
  unfold handle_which_R, find_r_executable.
  destruct (which E "Rscript") as [x|]; [| destruct (which E "R") as [y|]].
  - eexists _, _. split; [reflexivity |]. split; [reflexivity |].
    split; [rewrite lookup_insert_ne by discriminate; apply lookup_insert_eq |].
    reflexivity.
  - eexists _, _. split; [reflexivity |]. split; [reflexivity |].
    split; [rewrite lookup_insert_ne by discriminate; apply lookup_insert_eq |].
    reflexivity.
  - split; [reflexivity |]. intros args t. reflexivity.
Qed.

(** ** Writing scripts *)

Lemma call_tool_ok (E : Env) r st d st' :
  call_tool E r st = (Ok d, st') -> handler E r st = (Val (Ok d), st').
Proof.
  unfold call_tool. destruct (handler E r st) as [[res|e] s1]; intros H.
  - injection H as -> ->. reflexivity.
  - discriminate H.
Qed.

Lemma startswith_app (s t : string) : Str.startswith (s +:+ t) s = true.
Proof.
  induction s as [|a s IH]; [destruct t; reflexivity |].
  change ((Ascii.eqb a a && Str.startswith (s +:+ t) s) = true).
  rewrite Ascii.eqb_refl. exact IH.
Qed.

Lemma endswith_app_r (s t p : string) :
  Str.endswith t p = true -> Str.endswith (s +:+ t) p = true.
Proof.
  intros H. induction s as [|a s IH]; [exact H |].
  apply (endswith_cons a (s +:+ t) p IH).
Qed.

Lemma append_assoc (a b c : string) : (a +:+ b) +:+ c = a +:+ (b +:+ c).
Proof.
  induction a as [|x a IH]; [reflexivity |].
  change (String x ((a +:+ b) +:+ c) = String x (a +:+ (b +:+ c))). rewrite IH. reflexivity.
Qed.

Lemma append_empty_r (a : string) : a +:+ EmptyString = a.
Proof.
  induction a as [|x a IH]; [reflexivity |].
  change (String x (a +:+ EmptyString) = String x a). rewrite IH. reflexivity.
Qed.

Lemma write_text_val (E : Env) p s st u st' :
  write_text E p s st = (Val u, st') ->
  self st' = self st /\ cwd st' = cwd st /\
  fs st' = <[p := File (Text s)]> (<[p := File (Text EmptyString)]> (fs st)).
Proof.
  unfold write_text. intros (u1 & st1 & Hopen & Hwrite)%bind_val.
  apply open_write_val in Hopen as (-> & _).
  apply write_content_val in Hwrite as ->. repeat split.
Qed.

Lemma nonempty_false (s : string) : nonempty s = false -> s = EmptyString.
Proof. unfold nonempty. intros H%negb_false_iff%bool_decide_eq_true. exact H. Qed.

(** Below a directory, a plain name is one more component. *)
Lemma split_plain (n : string) : Str.contains n "/" = false -> Str.split "/" n = [n].
Proof.
  induction n as [|a n IH]; [reflexivity |].
  intros H. change (Str.contains (String a n) "/")
              with (Str.startswith (String a n) "/" || Str.contains n "/") in H.
  apply orb_false_elim in H as (Hs & Hc).
  change (Str.startswith (String a n) "/") with (Ascii.eqb "/" a && Str.startswith n EmptyString)
    in Hs.
  assert (Ha : Ascii.eqb a "/" = false).
  { destruct (Ascii.eqb_spec "/"%char a) as [<- | Hne].
    - destruct n; discriminate Hs.
    - apply Ascii.eqb_neq. congruence. }
  change (Str.split "/" (String a n))
    with (if Ascii.eqb a "/" then EmptyString :: Str.split "/" n
          else match Str.split "/" n with
               | [] => [String a EmptyString]
               | w :: ws => String a w :: ws
               end).
  rewrite Ha, (IH Hc). reflexivity.
Qed.

Lemma joinpath_plain (w : path) (n : string) : plain_name n -> Path.joinpath w n = w ++ [n].
Proof.
  intros (Hc & Hne & Hdot & _). unfold Path.joinpath, Path.segments.
  assert (Hs : Str.startswith n "/" = false).
  { destruct n as [|a n]; [reflexivity |].
    change (Str.contains (String a n) "/")
      with (Str.startswith (String a n) "/" || Str.contains n "/") in Hc.
    apply orb_false_elim in Hc as (Hs & _). exact Hs. }
  rewrite Hs, (split_plain n Hc).
  rewrite filter_cons_True by (split; assumption). reflexivity.
Qed.

Lemma read_raw_val (E : Env) p st s st' :
  read_raw E p st = (Val s, st') ->
  st' = st /\ exists c, fs st !! p = Some (File c) /\ s = content_text E c.
Proof.
  cbv beta iota zeta delta [read_raw fault bind get ret raise].
  destruct (io_fault E OpRead p); [intros H; discriminate H |].
  destruct (fs st !! p) as [[|[t|j]]|]; intros H; try discriminate H;
    injection H as <- <-; eauto.
Qed.

Lemma read_text_val (E : Env) p enc st s st' :
  read_text E p enc st = (Val s, st') ->
  st' = st /\
  exists c, fs st !! p = Some (File c) /\ s = Str.universal_newlines (content_text E c).
Proof.
  unfold read_text. destruct (negb (known_encoding E enc)); [intros H; discriminate H |].
  intros (s0 & st1 & Hraw & H)%bind_val.
  apply read_raw_val in Hraw as (-> & c & Hc & ->).
  destruct (decode_fails E enc (content_text E c)); [discriminate H |].
  unfold ret in H. injection H as <- <-. eauto.
Qed.

(** X18.  A successful [append_R_code] on a plain file name only adds to
    that one file: what the file read as before (its content with the line
    ends as text mode gives them) is the beginning of what it holds after,
    the code comes after it at the start of a line, followed by at most one
    line feed, and with [ensure_trailing_newline] the file ends in a line
    feed.  No other path and nothing of the server object changes. *)
Theorem append_extends (E : Env) (code : string) (f : option string) (n : bool)
    (st st' : state) (w : path) (d : dict) :
  workdir (self st) = Some w ->
  plain_name (ensure_R_extension (chosen f (self st))) ->
  call_tool E (AppendRCode code f n) st = (Ok d, st') ->
  let p := w ++ [ensure_R_extension (chosen f (self st))] in
  exists c pre post,
    fs st !! p = Some (File c) /\
    fs st' !! p = Some (File (Text (pre +:+ code +:+ post))) /\
    Str.startswith pre (Str.universal_newlines (content_text E c)) = true /\
    (pre = EmptyString \/ ends_with_newline pre = true) /\
    (post = EmptyString \/ post = String Str.nl EmptyString) /\
    (n = true -> ends_with_newline (pre +:+ code +:+ post) = true) /\
    self st' = self st /\
    forall k, k <> p -> fs st' !! k = fs st !! k.
Proof.
  intros Hw Hplain H%call_tool_ok. rewrite <- (joinpath_plain w _ Hplain). intros p.
  simpl in H. unfold handle_append_R_code in H.
  rewrite ensure_bind, Hw in H.
  destruct (exists_ (fs st) w) eqn:Hex; [| discriminate H].
  revert H. enter_rest Hw. fold p.
  destruct (is_safe_path E (self st) p); cbn [negb]; [| intros H; discriminate H].
  destruct (exists_ (fs st) p); cbn [negb]; [| intros H; discriminate H].
  intros [(a & H & Ha) | (e & st1 & _ & H)]%try_except_inv; [| discriminate H].
  injection Ha as Ha. subst a.
  apply bind_val in H as (old & st1 & Hread & H).
  apply read_text_val in Hread as (-> & c & Hc & Hold).
  cbv zeta in H. apply bind_val in H as (u & st2 & Hwrite & H).
  unfold ret in H. injection H as _ Hst. subst st2.
  apply write_text_val in Hwrite as (Hself & _ & Hfs).
  set (pre := if nonempty old && negb (ends_with_newline old)
              then old +:+ String Str.nl EmptyString else old) in *.
  set (post := if n && negb (ends_with_newline code)
               then String Str.nl EmptyString else EmptyString).
  assert (Hcode : (if n && negb (ends_with_newline code)
                   then code +:+ String Str.nl EmptyString else code) = code +:+ post).
  { unfold post. destruct (n && negb (ends_with_newline code));
      [reflexivity | symmetry; apply append_empty_r]. }
  rewrite Hcode in Hfs.
  exists c, pre, post. split; [exact Hc |]. split; [| split; [| split; [| split]]].
  - rewrite Hfs. apply lookup_insert_eq.
  - rewrite <- Hold. unfold pre. destruct (nonempty old && negb (ends_with_newline old)).
    + apply startswith_app.
    + rewrite <- (append_empty_r old) at 1. apply startswith_app.
  - unfold pre. destruct (nonempty old) eqn:Hne; simpl.
    + destruct (ends_with_newline old) eqn:Hnl; simpl; [right; exact Hnl |].
      right. apply endswith_app.
    + left. apply nonempty_false, Hne.
  - unfold post. destruct (n && negb (ends_with_newline code)); [right | left]; reflexivity.
  - split; [| split; [exact Hself |]].
    + intros ->. unfold post. simpl.
      destruct (ends_with_newline code) eqn:Hnl; simpl.
      * rewrite append_empty_r. apply endswith_app_r, Hnl.
      * rewrite <- append_assoc. apply endswith_app.
    + intros k Hk. rewrite Hfs. rewrite !lookup_insert_ne by congruence. reflexivity.
Qed.

Lemma append_extends_witness :
  let p := ["w"] ++ [ensure_R_extension (chosen None (self with_mac_script))] in
  exists c pre post,
    fs with_mac_script !! p = Some (File c) /\
    fs appended.2 !! p = Some (File (Text (pre +:+ "y = 2" +:+ post))) /\
    Str.startswith pre (Str.universal_newlines (content_text quiet_env c)) = true /\
    (pre = EmptyString \/ ends_with_newline pre = true) /\
    (post = EmptyString \/ post = String Str.nl EmptyString) /\
    (true = true -> ends_with_newline (pre +:+ "y = 2" +:+ post) = true) /\
    self appended.2 = self with_mac_script /\
    forall k, k <> p -> fs appended.2 !! k = fs with_mac_script !! k.
Proof.
  refine (append_extends quiet_env "y = 2" None true with_mac_script appended.2 ["w"]
            (data_of appended.1) eq_refl _ _).
  - repeat split; vm_compute; congruence.
  - vm_compute. reflexivity.
Defined.

Lemma reads_register name d : preserves eq (register name d).
Proof. unfold register, py_in, py_append. reads_tac. Qed.

Lemma save_state_elsewhere (E : Env) st d k :
  session_ok (self st) -> ~ store_path k ->
  fs (save_state E d st).2 !! k = fs st !! k.
Proof.
  intros (_ & [Hnone | (w & Hsf)]) Hk.
  - cbv beta iota zeta delta [save_state bind get ret]. rewrite Hnone. reflexivity.
  - apply (frames_lookup _ _ _ _ (touches_save_state E st w d Hsf)).
    intros [-> | ->]; apply Hk; exists w; [left | right]; reflexivity.
Qed.

(** What the shared tail of [create_R_file] and [write_R_code] leaves on the
    disk: the file, and whatever [save_state] did to the store. *)
Lemma written_and_saved (E : Env) st fp content name (res r : result) st1 :
  session_ok (self st) ->
  (write_text E fp content ;;;
   d <- load_state E ;;
   d <- register name d ;;
   save_state E (<["updated_at" := VStr (now E)]> d) ;;;
   ret res) st = (Val r, st1) ->
  r = res /\ self st1 = self st /\
  forall k, ~ store_path k -> fs st1 !! k = <[fp := File (Text content)]> (fs st) !! k.
Proof.
  intros Hok H.
  apply bind_val in H as (u & sta & Hwrite & H).
  apply write_text_val in Hwrite as (Hself & _ & Hfs).
  apply bind_val in H as (doc & stb & Hload & H).
  pose proof (reads_load_state E sta) as Hb. rewrite Hload in Hb. simpl in Hb. subst stb.
  apply bind_val in H as (doc1 & stb & Hreg & H).
  pose proof (reads_register name doc sta) as Hb. rewrite Hreg in Hb. simpl in Hb. subst stb.
  apply bind_val in H as (u' & stc & Hsave & H).
  unfold ret in H. injection H as Hr Hst. subst r stc.
  split; [reflexivity |]. split.
  - pose proof (writes_save_state E (<["updated_at" := VStr (now E)]> doc1) sta) as Hs.
    rewrite Hsave in Hs. unfold same_self in Hs. simpl in Hs. congruence.
  - intros k Hk.
    pose proof (save_state_elsewhere E sta (<["updated_at" := VStr (now E)]> doc1) k) as Hs.
    rewrite Hsave in Hs. simpl in Hs. rewrite Hs; [| rewrite Hself; exact Hok | exact Hk].
    rewrite Hfs. destruct (decide (k = fp)) as [-> | Hne].
    + rewrite !lookup_insert_eq. reflexivity.
    + rewrite !lookup_insert_ne by congruence. reflexivity.
Qed.

Lemma R_path_not_store (w : path) (n : string) :
  R_name n -> ~ store_path (Path.joinpath w n).
Proof.
  intros Hn (w' & H). destruct (R_path_ne_store w' w n Hn) as (_ & H1 & H2).
  destruct H as [H | H]; [exact (H2 H) | exact (H1 H)].
Qed.





(** ** Renaming scripts *)

Lemma unlink_val (E : Env) p st u st' :
  unlink E p st = (Val u, st') ->
  st' = set_fs (delete p) st /\ exists c, fs st !! p = Some (File c).
Proof.
  cbv beta iota zeta delta [unlink fault bind get ret raise modify].
  destruct (io_fault E OpUnlink p); [intros H; discriminate H |].
  destruct (fs st !! p) as [[|c]|]; intros H; try discriminate H.
  injection H as _ <-. eauto.
Qed.

Lemma move_missing (E : Env) op src dst st :
  fs st !! src = None -> exists e, move E op src dst st = (Raise e, st).
Proof.
  intros Hsrc. cbv beta iota zeta delta [move fault bind get ret raise].
  destruct (io_fault E op src); [eauto |]. rewrite Hsrc. eauto.
Qed.

Lemma session_rename_in_state o n doc : preserves same_session (rename_in_state o n doc).
Proof. unfold rename_in_state, py_in, py_remove, py_append. session_tac. Qed.

(** The file part of a rename: what the optional [unlink] and the [rename]
    leave, when both succeed on a regular file. *)
Lemma unlink_then_rename (E : Env) (b : bool) old new st c u st2 :
  fs st !! old = Some (File c) ->
  (b = false -> fs st !! new = None) ->
  ((if b then unlink E new else ret tt) ;;; rename E old new) st = (Val u, st2) ->
  old <> new /\ self st2 = self st /\
  fs st2 = <[new := File c]> (delete old (if b then delete new (fs st) else fs st)).
Proof.
  intros Hold Hnew (u1 & st1 & H1 & H2)%bind_val.
  assert (Hst1 : self st1 = self st /\ fs st1 = (if b then delete new (fs st) else fs st)).
  { destruct b.
    - apply unlink_val in H1 as (-> & _). split; reflexivity.
    - unfold ret in H1. injection H1 as _ <-. split; reflexivity. }
  destruct Hst1 as (Hself & Hfs).
  assert (Hne : old <> new).
  { intros <-. destruct b.
    - destruct (move_missing E OpRename old old st1) as (e & He).
      + rewrite Hfs. apply lookup_delete_eq.
      + unfold rename in H2. rewrite He in H2. discriminate H2.
    - rewrite (Hnew eq_refl) in Hold. discriminate Hold. }
  split; [exact Hne |].
  assert (Hl : fs st1 !! old = Some (File c)).
  { rewrite Hfs. destruct b; [rewrite lookup_delete_ne by congruence |]; exact Hold. }
  unfold rename in H2.
  destruct (move_file_cases E OpRename old new st1 c Hl) as [Hm | (e & Hm)];
    rewrite Hm in H2; [| discriminate H2].
  injection H2 as _ <-. simpl. rewrite Hfs. split; [exact Hself | reflexivity].
Qed.



Lemma unlink_ok (E : Env) p st c :
  io_fault E OpUnlink p = false ->
  fs st !! p = Some (File c) ->
  unlink E p st = (Val tt, set_fs (delete p) st).
Proof.
  intros Hf Hp. cbv beta iota zeta delta [unlink fault bind get ret raise modify].
  rewrite Hf, Hp. reflexivity.
Qed.

Lemma exists_file (m : FS) p n : m !! p = Some n -> exists_ m p = true.
Proof. intros H. unfold exists_. rewrite H. apply bool_decide_eq_true_2. eauto. Qed.

(** X22.  Renaming a script onto itself with [overwrite] destroys it: the target
    is removed first, which is the file itself, the rename then finds
    nothing to move, and the call answers [RENAME_ERROR] with the file gone.
    The two names need not be spelled alike, only to name the same file
    once the extension is added. *)
Theorem rename_onto_itself_deletes (E : Env) (a b : string) (st : state) (w : path)
    (c : content) :
  workdir (self st) = Some w ->
  exists_ (fs st) w = true ->
  ensure_R_extension a = ensure_R_extension b ->
  is_safe_path E (self st) (Path.joinpath w (ensure_R_extension a)) = true ->
  fs st !! Path.joinpath w (ensure_R_extension a) = Some (File c) ->
  io_fault E OpUnlink (Path.joinpath w (ensure_R_extension a)) = false ->
  call_tool E (RenameRFile a b true) st =
  (Err "RENAME_ERROR" None, set_fs (delete (Path.joinpath w (ensure_R_extension a))) st).
Proof.
  intros Hw Hex Hab Hsafe Hfile Hfault.
  unfold call_tool. simpl. unfold handle_rename_R_file.
  enter_session Hw Hex. rewrite <- Hab.
  set (p := Path.joinpath w (ensure_R_extension a)) in *.
  rewrite Hsafe, (exists_file _ _ _ Hfile). cbn [negb orb andb].
  unfold try_except.
  rewrite (bind_run _ _ _ _ _ (unlink_ok E p st c Hfault Hfile)).
  destruct (move_missing E OpRename p p (set_fs (delete p) st)) as (e & He);
    [apply lookup_delete_eq |].
  unfold rename. rewrite (bind_raise _ _ _ _ _ He). reflexivity.
Qed.

Lemma rename_onto_itself_deletes_witness :
  call_tool quiet_env (RenameRFile "agent" "agent.R" true) stored =
  (Err "RENAME_ERROR" None,
   set_fs (delete (Path.joinpath ["w"] (ensure_R_extension "agent"))) stored).
Proof.
  refine (rename_onto_itself_deletes quiet_env "agent" "agent.R" stored ["w"] (Text "x = 1")
            eq_refl _ _ _ _ _).
  - vm_compute. reflexivity.
  - vm_compute. reflexivity.
  - vm_compute. reflexivity.
  - vm_compute. reflexivity.
  - vm_compute. reflexivity.
Defined.

(** ** Reading exports *)



(** ** Sorting *)

Lemma insert_sorted_perm {A} (before : A -> A -> bool) x l :
  insert_sorted before x l ≡ₚ x :: l.
Proof.
  induction l as [|y l IH]; [reflexivity |]. simpl.
  destruct (before y x); [| reflexivity].
  rewrite IH. apply Permutation_swap.
Qed.

Lemma stable_sort_perm {A} (before : A -> A -> bool) l : stable_sort before l ≡ₚ l.
Proof.
  unfold stable_sort.
  assert (H : forall acc, fold_left (fun acc x => insert_sorted before x acc) l acc ≡ₚ acc ++ l).
  { induction l as [|x l IH]; intros acc; simpl.
    - rewrite app_nil_r. reflexivity.
    - rewrite IH, insert_sorted_perm. apply Permutation_middle. }
  apply (H []).
Qed.

Section Sorted.
Context {A : Type} (before : A -> A -> bool).
Hypothesis before_total : forall a b, before a b = false -> before b a = true.
Hypothesis before_trans : forall a b c, before a b = true -> before b c = true -> before a c = true.

Lemma insert_sorted_sorted x l :
  StronglySorted (fun a b => before a b = true) l ->
  StronglySorted (fun a b => before a b = true) (insert_sorted before x l).
Proof.
  induction 1 as [|y l Hl IH Hy]; simpl.
  - constructor; constructor.
  - destruct (before y x) eqn:Hyx.
    + constructor; [exact IH |].
      apply list.Forall_forall. intros z Hz.
      rewrite insert_sorted_perm in Hz. apply elem_of_cons in Hz as [-> | Hz]; [exact Hyx |].
      rewrite list.Forall_forall in Hy. exact (Hy z Hz).
    + pose proof (before_total y x Hyx) as Hxy.
      constructor; [constructor; assumption |].
      constructor; [exact Hxy |].
      apply list.Forall_forall. intros z Hz. rewrite list.Forall_forall in Hy.
      exact (before_trans x y z Hxy (Hy z Hz)).
Qed.

Lemma stable_sort_sorted l :
  StronglySorted (fun a b => before a b = true) (stable_sort before l).
Proof.
  unfold stable_sort.
  assert (H : forall acc, StronglySorted (fun a b => before a b = true) acc ->
                          StronglySorted (fun a b => before a b = true)
                            (fold_left (fun acc x => insert_sorted before x acc) l acc)).
  { induction l as [|x l IH]; intros acc Hacc; simpl; [exact Hacc |].
    apply IH, insert_sorted_sorted, Hacc. }
  apply H. constructor.
Qed.

Lemma filter_none (P : A -> Prop) `{!forall x, Decision (P x)} (l : list A) :
  (forall u, u ∈ l -> ~ P u) -> filter P l = [].
Proof.
  induction l as [|y l IH]; intros Hno; [reflexivity |].
  rewrite filter_cons_False by (apply Hno, list_elem_of_here).
  apply IH. intros u Hu. apply Hno, list_elem_of_further, Hu.
Qed.

(** Sorting is stable: the elements tied with a given one come out in the
    order in which they went in. *)
Lemma insert_sorted_tied z x l :
  StronglySorted (fun a b => before a b = true) l ->
  filter (fun y => before z y && before y z = true) (insert_sorted before x l) =
  filter (fun y => before z y && before y z = true) l ++
  filter (fun y => before z y && before y z = true) [x].
Proof.
  induction 1 as [|y l Hl IH Hy]; [reflexivity |]. simpl.
  destruct (before y x) eqn:Hyx.
  - destruct (decide (before z y && before y z = true)) as [Hzy | Hzy].
    + rewrite !(filter_cons_True _ y) by exact Hzy. rewrite IH. reflexivity.
    + rewrite !(filter_cons_False _ y) by exact Hzy. exact IH.
  - destruct (decide (before z x && before x z = true)) as [Hzx | Hzx].
    + rewrite (filter_cons_True _ x) by exact Hzx.
      rewrite (filter_cons_True _ x [] Hzx).
      assert (Hnone : filter (fun y0 => before z y0 && before y0 z = true) (y :: l) = []).
      { apply filter_none. intros u Hu Hzu.
        apply andb_true_iff in Hzx as (Hzx1 & Hzx2).
        apply andb_true_iff in Hzu as (Hzu1 & Hzu2).
        assert (Hyu : before y u = true).
        { apply elem_of_cons in Hu as [-> | Hu].
          - destruct (before y y) eqn:Hyy; [reflexivity |].
            pose proof (before_total y y Hyy) as Hyy'. congruence.
          - rewrite list.Forall_forall in Hy. exact (Hy u Hu). }
        pose proof (before_trans y u x Hyu (before_trans u z x Hzu2 Hzx1)) as Hc.
        congruence. }
      rewrite Hnone. reflexivity.
    + rewrite (filter_cons_False _ x) by exact Hzx.
      rewrite (filter_cons_False _ x [] Hzx). rewrite app_nil_r. reflexivity.
Qed.

Lemma stable_sort_tied z l :
  filter (fun y => before z y && before y z = true) (stable_sort before l) =
  filter (fun y => before z y && before y z = true) l.
Proof.
  unfold stable_sort.
  assert (H : forall acc,
            StronglySorted (fun a b => before a b = true) acc ->
            filter (fun y => before z y && before y z = true)
              (fold_left (fun acc x => insert_sorted before x acc) l acc) =
            filter (fun y => before z y && before y z = true) acc ++
            filter (fun y => before z y && before y z = true) l).
  { induction l as [|x l IH]; intros acc Hacc; simpl.
    - rewrite app_nil_r. reflexivity.
    - rewrite IH by (apply insert_sorted_sorted, Hacc).
      rewrite (insert_sorted_tied z x acc Hacc), <- app_assoc.
      f_equal. change (x :: l) with ([x] ++ l). rewrite filter_app. reflexivity. }
  apply (H []). constructor.
Qed.

End Sorted.

Lemma StronglySorted_impl {A} (R R' : A -> A -> Prop) l :
  (forall a b, R a b -> R' a b) -> StronglySorted R l -> StronglySorted R' l.
Proof.
  intros HR. induction 1 as [|x l Hl IH Hx]; constructor; [exact IH |].
  eapply Forall_impl; [exact Hx | intros y; apply HR].
Qed.

Lemma string_leb_trans (s1 s2 s3 : string) :
  String.leb s1 s2 = true -> String.leb s2 s3 = true -> String.leb s1 s3 = true.
Proof.
  unfold String.leb. revert s2 s3.
  induction s1 as [|c1 s1 IH]; intros [|c2 s2] [|c3 s3]; simpl; try congruence.
  unfold Ascii.compare.
  destruct (N.compare_spec (N_of_ascii c1) (N_of_ascii c2)) as [H12 | H12 | H12];
    destruct (N.compare_spec (N_of_ascii c2) (N_of_ascii c3)) as [H23 | H23 | H23];
    destruct (N.compare_spec (N_of_ascii c1) (N_of_ascii c3)) as [H13 | H13 | H13];
    try congruence; try (exfalso; lia).
  apply IH.
Qed.

Lemma string_leb_total (s1 s2 : string) : String.leb s1 s2 = false -> String.leb s2 s1 = true.
Proof. intros H. destruct (String.leb_total s1 s2) as [H' | H']; congruence. Qed.

(** ** Listing exports *)

Lemma sort_entries_perm sort_by descending files :
  sort_entries sort_by descending files ≡ₚ files.
Proof.
  unfold sort_entries.
  repeat match goal with |- context [if ?b then _ else _] => destruct b end;
    first [apply stable_sort_perm | reflexivity].
Qed.

Lemma sorted_by_key (key : export_entry -> Z) (reverse : bool) files :
  StronglySorted (fun x y => if reverse then key y <= key x else key x <= key y)
    (stable_sort (fun x y => if reverse then key y <=? key x else key x <=? key y) files).
Proof.
  eapply StronglySorted_impl; [| apply stable_sort_sorted].
  - intros a b. simpl. destruct reverse; apply Z.leb_le.
  - intros a b. destruct reverse; intros H%Z.leb_gt; apply Z.leb_le; lia.
  - intros a b c. destruct reverse; intros H1%Z.leb_le H2%Z.leb_le; apply Z.leb_le; lia.
Qed.

Lemma sorted_by_name (reverse : bool) (files : list export_entry) :
  StronglySorted
    (fun x y => if reverse then String.leb (ee_name y) (ee_name x) = true
                else String.leb (ee_name x) (ee_name y) = true)
    (stable_sort (fun x y => if reverse then String.leb (ee_name y) (ee_name x)
                             else String.leb (ee_name x) (ee_name y)) files).
Proof.
  eapply StronglySorted_impl; [| apply stable_sort_sorted].
  - intros a b. simpl. destruct reverse; intros H; exact H.
  - intros a b. destruct reverse; apply string_leb_total.
  - intros a b c. destruct reverse; intros H1 H2; eapply string_leb_trans; eassumption.
Qed.

Lemma sort_entries_sorted sort_by descending files :
  StronglySorted (listed_before sort_by descending) (sort_entries sort_by descending files).
Proof.
  unfold sort_entries, listed_before.
  destruct (String.eqb sort_by "mtime"); [apply (sorted_by_key ee_mtime) |].
  destruct (String.eqb sort_by "size"); [apply (sorted_by_key ee_size) |].
  destruct (String.eqb sort_by "name").
  - destruct descending; [apply (sorted_by_name false) | apply (sorted_by_name true)].
  - induction files as [|x l IH]; constructor; [exact IH |].
    apply list.Forall_forall. intros; exact I.
Qed.

Lemma tied_by_key (key : export_entry -> Z) (reverse : bool) (z : export_entry) files :
  filter (fun y => key z = key y)
    (stable_sort (fun x y => if reverse then key y <=? key x else key x <=? key y) files) =
  filter (fun y => key z = key y) files.
Proof.
  set (before := fun x y : export_entry =>
                   if reverse then key y <=? key x else key x <=? key y).
  assert (Hiff : forall y, key z = key y <-> before z y && before y z = true).
  { intros y. unfold before. rewrite andb_true_iff.
    destruct reverse; rewrite !Z.leb_le; lia. }
  rewrite !(filter_iff _ _ _ Hiff). apply stable_sort_tied.
  - intros a b. unfold before. destruct reverse; intros H%Z.leb_gt; apply Z.leb_le; lia.
  - intros a b c. unfold before.
    destruct reverse; intros H1%Z.leb_le H2%Z.leb_le; apply Z.leb_le; lia.
Qed.

Lemma tied_by_name (reverse : bool) (z : export_entry) (files : list export_entry) :
  filter (fun y => ee_name z = ee_name y)
    (stable_sort (fun x y => if reverse then String.leb (ee_name y) (ee_name x)
                             else String.leb (ee_name x) (ee_name y)) files) =
  filter (fun y => ee_name z = ee_name y) files.
Proof.
  set (before := fun x y : export_entry =>
                   if reverse then String.leb (ee_name y) (ee_name x)
                   else String.leb (ee_name x) (ee_name y)).
  assert (Hrefl : forall s, String.leb s s = true).
  { intros s. destruct (String.leb_total s s); assumption. }
  assert (Hiff : forall y, ee_name z = ee_name y <-> before z y && before y z = true).
  { intros y. unfold before. rewrite andb_true_iff. split.
    - intros ->. destruct reverse; split; apply Hrefl.
    - destruct reverse; intros (H1 & H2);
        [symmetry |]; apply String.leb_antisym; assumption. }
  rewrite !(filter_iff _ _ _ Hiff). apply stable_sort_tied.
  - intros a b. unfold before. destruct reverse; apply string_leb_total.
  - intros a b c. unfold before.
    destruct reverse; intros H1 H2; eapply string_leb_trans; eassumption.
Qed.

Lemma sort_entries_stable sort_by descending (z : export_entry) files :
  filter (tied sort_by z) (sort_entries sort_by descending files) =
  filter (tied sort_by z) files.
Proof.
  unfold sort_entries.
  destruct (String.eqb sort_by "mtime") eqn:H1.
  { rewrite !(filter_iff (tied sort_by z) (fun y => ee_mtime z = ee_mtime y))
      by (intros y; unfold tied; rewrite H1; reflexivity).
    apply (tied_by_key ee_mtime). }
  destruct (String.eqb sort_by "size") eqn:H2.
  { rewrite !(filter_iff (tied sort_by z) (fun y => ee_size z = ee_size y))
      by (intros y; unfold tied; rewrite H1, H2; reflexivity).
    apply (tied_by_key ee_size). }
  destruct (String.eqb sort_by "name") eqn:H3; [| reflexivity].
  rewrite !(filter_iff (tied sort_by z) (fun y => ee_name z = ee_name y))
    by (intros y; unfold tied; rewrite H1, H2, H3; reflexivity).
  apply tied_by_name.
Qed.



(** ** Listing scripts *)

Lemma add_names_spec (m : FS) (items : list path) (acc : list string) :
  NoDup acc ->
  NoDup (add_names m items acc) /\
  forall n, n ∈ add_names m items acc <->
            n ∈ acc \/ exists item, item ∈ items /\ is_file m item = true /\ Path.name item = n.
Proof.
  unfold add_names. revert acc. induction items as [|item items IH]; intros acc Hacc; simpl.
  - split; [exact Hacc |]. intros n. split; [auto |].
    intros [H | (item & H%elem_of_nil & _)]; [exact H | contradiction].
  - destruct (is_file m item) eqn:Hfile; simpl.
    + destruct (bool_decide (Path.name item ∈ acc)) eqn:Hin; simpl.
      * apply bool_decide_eq_true in Hin.
        destruct (IH acc Hacc) as (Hnd & Hspec). split; [exact Hnd |].
        intros n. rewrite Hspec. split.
        -- intros [H | (i & Hi & Hf & Hn)]; [left; exact H |].
           right. exists i. split; [apply elem_of_cons; right; exact Hi | auto].
        -- intros [H | (i & Hi & Hf & Hn)]; [left; exact H |].
           apply elem_of_cons in Hi as [-> | Hi]; [left; congruence |].
           right. exists i. auto.
      * apply bool_decide_eq_false in Hin.
        assert (Hacc' : NoDup (acc ++ [Path.name item])).
        { apply NoDup_app. split; [exact Hacc |]. split; [| apply NoDup_singleton].
          intros x Hx Hx'%list_elem_of_singleton. subst x. exact (Hin Hx). }
        destruct (IH _ Hacc') as (Hnd & Hspec). split; [exact Hnd |].
        intros n. rewrite Hspec, elem_of_app, list_elem_of_singleton. split.
        -- intros [[H | ->] | (i & Hi & Hf & Hn)].
           ++ left; exact H.
           ++ right. exists item. split; [apply elem_of_cons; left; reflexivity | auto].
           ++ right. exists i. split; [apply elem_of_cons; right; exact Hi | auto].
        -- intros [H | (i & Hi & Hf & Hn)]; [left; left; exact H |].
           apply elem_of_cons in Hi as [-> | Hi]; [left; right; congruence |].
           right. exists i. auto.
    + destruct (IH acc Hacc) as (Hnd & Hspec). split; [exact Hnd |].
      intros n. rewrite Hspec. split.
      * intros [H | (i & Hi & Hf & Hn)]; [left; exact H |].
        right. exists i. split; [apply elem_of_cons; right; exact Hi | auto].
      * intros [H | (i & Hi & Hf & Hn)]; [left; exact H |].
        apply elem_of_cons in Hi as [-> | Hi]; [congruence |].
        right. exists i. auto.
Qed.

(** X25.  What [list_R_files] returns: the names of the regular files that the
    patterns [*.R] and [*.r] match in the working directory, each once, in
    ascending order, with the primary file the server holds in memory. *)
Theorem list_R_files_sorted (E : Env) (st st' : state) (d : dict) :
  call_tool E ListRFiles st = (Ok d, st') ->
  exists w upper lower names,
    workdir (self st) = Some w /\
    glob E (fs st) w "*.R" = inr upper /\
    glob E (fs st) w "*.r" = inr lower /\
    d !! "files" = Some (VList (VStr <$> names)) /\
    d !! "primary_file" = Some (VStr (primary_file (self st))) /\
    NoDup names /\
    StronglySorted (fun a b => String.leb a b = true) names /\
    forall n, n ∈ names <->
              exists item, item ∈ upper ++ lower /\ is_file (fs st) item = true /\
                           Path.name item = n.
Proof.
  intros H%call_tool_ok. simpl in H. unfold handle_list_R_files in H.
  rewrite ensure_bind in H.
  destruct (workdir (self st)) as [w|] eqn:Hw; [| discriminate H].
  destruct (exists_ (fs st) w) eqn:Hex; [| discriminate H].
  apply try_except_inv in H as [(r & H & Hr) | (e & st1 & _ & H)]; [| discriminate H].
  injection Hr as Hr. subst r.
  revert H. cbv beta iota zeta delta [the_workdir bind get ret raise]. rewrite Hw.
  destruct (glob E (fs st) w "*.R") as [e|upper] eqn:Hup; [intros H; discriminate H |].
  destruct (glob E (fs st) w "*.r") as [e|lower] eqn:Hlo; [intros H; discriminate H |].
  intros H. injection H as Hd _.
  destruct (add_names_spec (fs st) upper [] (NoDup_nil_2)) as (Hnd1 & Hspec1).
  destruct (add_names_spec (fs st) lower _ Hnd1) as (Hnd2 & Hspec2).
  set (r_files := add_names (fs st) lower (add_names (fs st) upper [])) in *.
  exists w, upper, lower, (stable_sort String.leb r_files).
  split; [reflexivity |]. split; [exact Hup |]. split; [exact Hlo |].
  split; [rewrite <- Hd; map_get; reflexivity |].
  split; [rewrite <- Hd; map_get; reflexivity |].
  split; [| split].
  - rewrite stable_sort_perm. exact Hnd2.
  - apply stable_sort_sorted; [apply string_leb_total | apply string_leb_trans].
  - intros n. rewrite stable_sort_perm, Hspec2, Hspec1. split.
    + intros [[H%elem_of_nil | (i & Hi & Hrest)] | (i & Hi & Hrest)]; [contradiction | |];
        exists i; (split; [apply elem_of_app; auto | exact Hrest]).
    + intros (i & [Hi | Hi]%elem_of_app & Hrest); [left; right | right]; exists i; auto.
Qed.

Lemma list_R_files_sorted_witness :
  exists w upper lower names,
    workdir (self with_exports) = Some w /\
    glob export_env (fs with_exports) w "*.R" = inr upper /\
    glob export_env (fs with_exports) w "*.r" = inr lower /\
    data_of (call_tool export_env ListRFiles with_exports).1 !! "files"
      = Some (VList (VStr <$> names)) /\
    data_of (call_tool export_env ListRFiles with_exports).1 !! "primary_file"
      = Some (VStr (primary_file (self with_exports))) /\
    NoDup names /\
    StronglySorted (fun a b => String.leb a b = true) names /\
    forall n, n ∈ names <->
              exists item, item ∈ upper ++ lower /\ is_file (fs with_exports) item = true /\
                           Path.name item = n.
Proof.
  refine (list_R_files_sorted export_env with_exports with_exports
            (data_of (call_tool export_env ListRFiles with_exports).1) _).
  vm_compute. reflexivity.
Defined.

(** ** Selecting the working directory *)

(** The answers of [handle_set_workdir] by what it finds at the resolved
    path. *)
Lemma set_workdir_code (E : Env) p c st w r st' :
  expand_resolve E (cwd st) p = Resolved w ->
  handle_set_workdir E p c st = (Val r, st') ->
  (r = Err "DIR_NOT_FOUND" None /\ exists_ (fs st) w = false /\ c = false) \/
  (r = Err "NOT_A_DIR" None /\ exists_ (fs st) w = true /\ is_dir (fs st) w = false) \/
  ((is_ok r = true \/ r = Err "SET_DIR_ERROR" None) /\
   (if exists_ (fs st) w then is_dir (fs st) w = true else c = true)).
Proof.
  intros Hres H. unfold handle_set_workdir in H.
  assert (Hrest : forall (m : Py (option result)) k st1,
            (forall s o s', m s = (Val o, s') -> o = None) ->
            (early <- m ;; match early with Some r0 => ret r0 | None => k end) st
              = (Val r, st1) ->
            yields (fun r0 => is_ok r0 = true) k -> is_ok r = true).
  { intros m k st1 Hm Hb Hk. apply bind_val in Hb as (early & s1 & He & Hb).
    rewrite (Hm _ _ _ He) in Hb. exact (Hk _ _ _ Hb). }
  apply try_except_inv in H as [(r' & H & Hr) | (e & st1 & Hraise & H)].
  - injection Hr as Hr. subst r'.
    apply bind_val in H as (st0 & st1 & Hget & H).
    unfold get in Hget. injection Hget as <- <-. rewrite Hres in H.
    destruct (exists_ (fs st) w) eqn:Hex; cbn [negb] in H;
      [destruct (is_dir (fs st) w) eqn:Hd | destruct c]; cbn [negb] in H.
    + right. right. split; [left | reflexivity].
      eapply Hrest; [| exact H |].
      * intros s o s' Ho. unfold ret in Ho. congruence.
      * repeat yields_step ltac:(reflexivity).
    + right. left. unfold bind, ret in H. injection H as <- _. auto.
    + right. right. split; [left | reflexivity].
      eapply Hrest; [| exact H |].
      * intros s o s' (u & s1 & _ & Ho)%bind_val. unfold ret in Ho. congruence.
      * repeat yields_step ltac:(reflexivity).
    + left. unfold bind, ret in H. injection H as <- _. auto.
  - unfold ret in H. injection H as <- _. right. right. split; [right; reflexivity |].
    apply bind_inv in Hraise as [(st0 & st2 & Hget & Hraise) | (e' & Hget & _)];
      [| discriminate Hget].
    unfold get in Hget. injection Hget as <- <-. rewrite Hres in Hraise.
    destruct (exists_ (fs st) w) eqn:Hex; cbn [negb] in Hraise;
      [destruct (is_dir (fs st) w) eqn:Hd | destruct c]; cbn [negb] in Hraise;
      try reflexivity; unfold bind, ret in Hraise; discriminate Hraise.
Qed.

(** X26.  [set_workdir] answers [DIR_NOT_FOUND] exactly when the resolved path does
    not exist and [create] is not set, and [NOT_A_DIR] exactly when it exists
    and is not a directory.  When it succeeds, the [.pilotr] directory of the
    new root is on the disk, and without [create] the root was a directory
    before the call. *)
Theorem set_workdir_checks (E : Env) (p : string) (c : bool) (st : state) (w : path) :
  expand_resolve E (cwd st) p = Resolved w ->
  let r := (call_tool E (SetWorkdir p c) st).1 in
  let st' := (call_tool E (SetWorkdir p c) st).2 in
  (error_code r = Some "DIR_NOT_FOUND" <-> exists_ (fs st) w = false /\ c = false) /\
  (error_code r = Some "NOT_A_DIR" <-> exists_ (fs st) w = true /\ is_dir (fs st) w = false) /\
  (is_ok r = true ->
   fs st' !! state_dir_of w = Some Dir /\ (c = false -> is_dir (fs st) w = true)).
Proof.
  intros Hres. cbv zeta. unfold call_tool. simpl handler.
  destruct (set_workdir_total E p c st) as (r & st' & H). rewrite H. simpl.
  pose proof (set_workdir_code E p c st w r st' Hres H) as Hcode.
  split; [| split].
  - split.
    + intros Hr. destruct Hcode as [(-> & ? & ?) | [(-> & ? & ?) | ([Hok | ->] & _)]];
        [auto | discriminate Hr | destruct r; discriminate | discriminate Hr].
    + intros (Hex & ->). destruct Hcode as [(-> & _) | [(_ & Hex' & _) | (_ & Hc)]];
        [reflexivity | congruence | rewrite Hex in Hc; discriminate Hc].
  - split.
    + intros Hr. destruct Hcode as [(-> & ? & ?) | [(-> & ? & ?) | ([Hok | ->] & _)]];
        [discriminate Hr | auto | destruct r; discriminate | discriminate Hr].
    + intros (Hex & Hd). destruct Hcode as [(_ & Hex' & _) | [(-> & _) | (_ & Hc)]];
        [congruence | reflexivity | rewrite Hex in Hc; congruence].
  - intros Hok. split.
    + destruct r as [data|]; [| discriminate Hok].
      apply set_workdir_ok in H as (w' & st1 & doc & u & Hres' & F & Hdir & _ & Hsave).
      rewrite Hres in Hres'. injection Hres' as <-.
      pose proof (touches_save_state E (set_self (session_at w) st1) w
                    (stamped E w (primary_file (self st)) doc) eq_refl) as Fs.
      rewrite Hsave in Fs. simpl in Fs.
      rewrite (frames_lookup _ _ _ _ Fs); [exact Hdir |].
      intros [Hk | Hk];
        [exact (state_dir_ne_temp_file w Hk) | exact (state_dir_ne_state_file w Hk)].
    + intros ->. destruct Hcode as [(-> & _) | [(-> & _) | (_ & Hc)]];
        [discriminate Hok | discriminate Hok |].
      destruct (exists_ (fs st) w); [exact Hc | discriminate Hc].
Qed.

Lemma set_workdir_checks_witness :
  let r := (call_tool quiet_env (SetWorkdir "w" true) fresh).1 in
  let st' := (call_tool quiet_env (SetWorkdir "w" true) fresh).2 in
  (error_code r = Some "DIR_NOT_FOUND" <-> exists_ (fs fresh) ["home"; "w"] = false /\ true = false) /\
  (error_code r = Some "NOT_A_DIR" <->
   exists_ (fs fresh) ["home"; "w"] = true /\ is_dir (fs fresh) ["home"; "w"] = false) /\
  (is_ok r = true ->
   fs st' !! state_dir_of ["home"; "w"] = Some Dir /\
   (true = false -> is_dir (fs fresh) ["home"; "w"] = true)).
Proof.
  refine (set_workdir_checks quiet_env "w" true fresh ["home"; "w"] _).
  vm_compute. reflexivity.
Defined.

(** ** The current directory *)

#[global] Instance same_cwd_refl : Reflexive same_cwd.
Proof. intros st. reflexivity. Qed.
#[global] Instance same_cwd_trans : Transitive same_cwd.
Proof. unfold same_cwd. intros a b c H1 H2. congruence. Qed.

Lemma cwd_touches {A} (m : Py A) K : touches m K -> preserves same_cwd m.
Proof. intros Hm st. destruct (Hm st) as (_ & H & _). exact H. Qed.

Lemma cwd_modify_self f : preserves same_cwd (modify (set_self f)).
Proof. intros st. reflexivity. Qed.

Lemma cwd_modify_fs f : preserves same_cwd (modify (set_fs f)).
Proof. intros st. reflexivity. Qed.

Lemma cwd_move (E : Env) op src dst : preserves same_cwd (move E op src dst).
Proof.
  intros st. cbv beta iota zeta delta [move fault bind get ret raise modify].
  destruct (io_fault E op src); [reflexivity |].
  destruct (fs st !! src) as [[|c]|]; [| |reflexivity];
    destruct (fs st !! dst) as [[|c']|];
    repeat match goal with
           | |- context [if ?b then _ else _] => destruct b
           | |- context [match ?x with _ => _ end] => destruct x
           end; reflexivity.
Qed.

Ltac cwd_leaf :=
  first [ solve [apply cwd_modify_self]
        | solve [apply cwd_modify_fs]
        | solve [apply cwd_move]
        | solve [apply (preserves_eq same_cwd); auto with reads]
        | solve [eapply cwd_touches;
                 first [ apply touches_open_write | apply touches_write_content
                       | apply touches_write_text | apply touches_unlink
                       | apply touches_mkdir | apply touches_mkdir_parents ]] ].

Ltac cwd_tac := repeat preserves_step ltac:(cwd_leaf).

Lemma cwd_save_state (E : Env) d : preserves same_cwd (save_state E d).
Proof. unfold save_state, write_and_replace, replace_. cwd_tac. Qed.

Lemma cwd_register name d : preserves same_cwd (register name d).
Proof. apply (preserves_eq same_cwd), reads_register. Qed.

Ltac cwd_leaf' :=
  first [ solve [apply cwd_save_state] | solve [apply cwd_register] | cwd_leaf ].

Ltac cwd_tac' := repeat preserves_step ltac:(cwd_leaf').

Lemma handler_keeps_cwd (E : Env) (r : request) :
  runs_interpreter r = false -> preserves same_cwd (handler E r).
Proof.
  intros Hr. destruct r; try discriminate Hr; simpl.
  - unfold handle_set_workdir. cwd_tac'.
  - apply (preserves_eq same_cwd), reads_get_state.
  - unfold handle_create_R_file. cwd_tac'.
  - unfold handle_rename_R_file, rename_in_state, rename, py_in, py_remove, py_append.
    cwd_tac'.
  - unfold handle_set_primary_file. cwd_tac'.
  - unfold handle_append_R_code. cwd_tac'.
  - unfold handle_write_R_code. cwd_tac'.
  - apply (preserves_eq same_cwd), reads_list_exports.
  - apply (preserves_eq same_cwd), reads_read_export.
  - apply (preserves_eq same_cwd), reads_preview_table.
  - apply (preserves_eq same_cwd), reads_style_check.
  - apply (preserves_eq same_cwd), reads_which_R.
  - apply (preserves_eq same_cwd), reads_list_R_files.
  - intros st. reflexivity.
Qed.

(** X27.  Only the tools that start the interpreter move the process: after a call
    of any other tool the current directory is what it was, whatever the
    call returned. *)
Theorem cwd_unchanged (E : Env) (r : request) (st : state) :
  runs_interpreter r = false -> cwd (call_tool E r st).2 = cwd st.
Proof. intros Hr. rewrite call_tool_snd. apply (handler_keeps_cwd E r Hr st). Qed.

Lemma cwd_unchanged_witness :
  cwd (call_tool quiet_env (SetWorkdir "w" true) fresh).2 = cwd fresh.
Proof. exact (cwd_unchanged quiet_env (SetWorkdir "w" true) fresh eq_refl). Defined.

#[global] Instance stays_or_enters_refl : Reflexive stays_or_enters.
Proof. intros st. split; [reflexivity | left; reflexivity]. Qed.
#[global] Instance stays_or_enters_trans : Transitive stays_or_enters.
Proof.
  intros a b c (Hs1 & H1) (Hs2 & H2). split; [congruence |].
  destruct H2 as [H2 | H2]; [rewrite H2; exact H1 | right; rewrite <- Hs1; exact H2].
Qed.

#[global] Instance same_disk_refl : Reflexive same_disk.
Proof. intros st. reflexivity. Qed.
#[global] Instance same_disk_trans : Transitive same_disk.
Proof. unfold same_disk. intros a b c H1 H2. congruence. Qed.

(** Where [run_r_command] leaves the process, however it ends. *)
Ltac runner_cases :=
  repeat (match goal with
          | |- context [is_dir ?m ?p] => destruct (is_dir m p) eqn:?
          | |- context [workdir (self ?s)] => destruct (workdir (self s)) eqn:?
          | |- context [subprocess_run ?E ?a ?b ?c ?d] =>
              destruct (subprocess_run E a b c d) as [[? ? ?| |?] ?] eqn:?
          | |- context [@lookup _ _ FS _ ?p ?m] => destruct (m !! p) as [[|?]|] eqn:?
          | |- context [bool_decide ?P] => destruct (bool_decide P)
          | |- context [match ?e with TimeoutExpired => _ | _ => _ end] => destruct e
          end; simpl).

Lemma run_r_command_cwd (E : Env) args t : preserves stays_or_enters (run_r_command E args t).
Proof.
  intros st. unfold run_r_command.
  destruct (find_r_executable E) as [r_exe|]; [| reflexivity].
  cbv beta iota zeta delta [try_except getcwd chdir run bind get ret raise modify].
  runner_cases; split; simpl; auto.
Qed.

Lemma run_r_command_disk (E : Env) args t :
  child_writes_nothing E -> preserves same_disk (run_r_command E args t).
Proof.
  intros Hchild st. unfold run_r_command.
  destruct (find_r_executable E) as [r_exe|]; [| reflexivity].
  cbv beta iota zeta delta [try_except getcwd chdir run bind get ret raise modify].
  runner_cases;
    repeat match goal with
           | H : subprocess_run E ?a ?b ?c ?d = (_, ?m) |- _ =>
               pose proof (Hchild a b c d) as Hm; rewrite H in Hm; simpl in Hm; subst m;
               clear H
           end;
    reflexivity.
Qed.

Ltac runner_leaf R lemma :=
  first [ solve [apply lemma]
        | solve [apply (preserves_eq R); auto with reads] ].

Lemma runner_stays_or_enters (E : Env) (r : request) :
  runs_interpreter r = true -> preserves stays_or_enters (handler E r).
Proof.
  intros Hr. destruct r; try discriminate Hr; simpl.
  - unfold handle_run_R_script.
    repeat preserves_step ltac:(runner_leaf stays_or_enters (run_r_command_cwd E)).
  - unfold handle_run_R_expression.
    repeat preserves_step ltac:(runner_leaf stays_or_enters (run_r_command_cwd E)).
  - unfold handle_inspect_R_objects.
    repeat preserves_step ltac:(runner_leaf stays_or_enters (run_r_command_cwd E)).
Qed.

Lemma runner_same_disk (E : Env) (r : request) :
  child_writes_nothing E ->
  runs_interpreter r = true -> preserves same_disk (handler E r).
Proof.
  intros Hchild Hr. destruct r; try discriminate Hr; simpl.
  - unfold handle_run_R_script.
    repeat preserves_step
      ltac:(runner_leaf same_disk (fun a t => run_r_command_disk E a t Hchild)).
  - unfold handle_run_R_expression.
    repeat preserves_step
      ltac:(runner_leaf same_disk (fun a t => run_r_command_disk E a t Hchild)).
  - unfold handle_inspect_R_objects.
    repeat preserves_step
      ltac:(runner_leaf same_disk (fun a t => run_r_command_disk E a t Hchild)).
Qed.

(** X28.  The tools that start the interpreter, [run_R_script], [run_R_expression]
    and [inspect_R_objects], write nothing themselves and leave the server
    object alone: whatever they return, the process is then where it was or
    in the working directory, and if the child process writes no file the
    disk is what it was. *)
Theorem runner_tools_only_run (E : Env) (r : request) (st : state) :
  runs_interpreter r = true ->
  let st' := (call_tool E r st).2 in
  self st' = self st /\
  (cwd st' = cwd st \/ workdir (self st) = Some (cwd st')) /\
  (child_writes_nothing E -> fs st' = fs st).
Proof.
  intros Hr. cbv zeta. rewrite call_tool_snd.
  destruct (runner_stays_or_enters E r Hr st) as (Hself & Hcwd).
  split; [exact Hself |]. split; [exact Hcwd |].
  intros Hchild. exact (runner_same_disk E r Hchild Hr st).
Qed.

Lemma runner_tools_only_run_witness :
  let st' := (call_tool quiet_env (RunRExpression "1+1" 120) stored).2 in
  self st' = self stored /\
  (cwd st' = cwd stored \/ workdir (self stored) = Some (cwd st')) /\
  (child_writes_nothing quiet_env -> fs st' = fs stored).
Proof.
  exact (runner_tools_only_run quiet_env (RunRExpression "1+1" 120) stored eq_refl).
Defined.

(** ** Selecting the primary file *)


